(** * WAV container decoding (package [wav] of go-dsp)

    A shallow embedding of [wav/wav.go] (chunk location, header
    validation, bulk and streaming sample decoding) and of the mono
    downmix helper [GetMonoData], followed by the properties of the
    decoder that the specification states.

    Conventions of the embedding.
    - Go's [int] is taken to be 64 bits wide.  Every [int] computed by the
      decoder from header fields stays far below that width, so those
      values are plain [Z]; the one product with a caller-chosen factor
      ([ReadSamples]) has its wrap-around written out.
    - [uint16], [uint32], [int16] and [uint8] conversions and arithmetic
      are written with their wrap-around ([wrap16], [wrap32], [int16],
      [wrap8]).
    - A run-time panic is a result of its own ([Panic]), distinct from a
      returned [error] ([Err]).
    - A [[]byte] is a Go slice: its elements and, behind them, the rest of
      its backing array up to the capacity.  Index expressions are checked
      against the length, slice expressions against the capacity. *)

From Stdlib Require Import ZArith List Lia QArith SpecFloat.
From Stdlib.Strings Require Import String Byte.
From stdpp Require Import base list.
Import ListNotations.

Local Open Scope Z_scope.

(** ** Results, errors and panics *)

(** The run-time panics the decoder can raise. *)
Inductive panic : Set :=
| IndexOutOfRange
| SliceBoundsOutOfRange
| IntegerDivideByZero
| MakeLenOutOfRange.

(** A Go [error] value, identified by its message ([errors.New msg]). *)
Definition error : Set := string.
Definition errors_New (msg : string) : error := msg.

Inductive result (A : Type) : Type :=
| Ok (a : A)
| Err (e : error)
| Panic (p : panic).
Arguments Ok {A} a.
Arguments Err {A} e.
Arguments Panic {A} p.

Definition bind {A B : Type} (r : result A) (k : A -> result B) : result B :=
  match r with
  | Ok a => k a
  | Err e => Err e
  | Panic p => Panic p
  end.

#[global] Instance result_ret : MRet result := fun A a => Ok a.
#[global] Instance result_bind : MBind result := fun A B k r => bind r k.

#[global] Instance byte_eq_dec : EqDecision byte := Byte.byte_eq_dec.

(** ** Byte slices *)

Record Bytes : Set := mkBytes {
  elems : list byte;   (* the elements [0, len) *)
  spare : list byte    (* the backing array behind them, [len, cap) *)
}.

Definition backing (b : Bytes) : list byte := elems b ++ spare b.
Definition len (b : Bytes) : Z := Z.of_nat (length (elems b)).
Definition cap (b : Bytes) : Z := Z.of_nat (length (backing b)).

(** [string(b)] and [[]byte(s)] for a slice without spare capacity. *)
Definition exact (l : list byte) : Bytes := mkBytes l [].

(** [make([]byte, n)]: [n] zero bytes, capacity [n]. *)
Definition make_bytes (n : Z) : result Bytes :=
  if decide (0 <= n) then Ok (exact (replicate (Z.to_nat n) x00))
  else Panic MakeLenOutOfRange.

(** [b[i]] *)
Definition index (b : Bytes) (i : Z) : result byte :=
  if decide (0 <= i < len b) then
    match elems b !! Z.to_nat i with
    | Some x => Ok x
    | None => Panic IndexOutOfRange
    end
  else Panic IndexOutOfRange.

(** [b[lo:hi]] *)
Definition reslice (b : Bytes) (lo hi : Z) : result Bytes :=
  if decide (0 <= lo /\ lo <= hi /\ hi <= cap b) then
    Ok (mkBytes (take (Z.to_nat (hi - lo)) (drop (Z.to_nat lo) (backing b)))
                (drop (Z.to_nat hi) (backing b)))
  else Panic SliceBoundsOutOfRange.

(** [for i := start; i < start + n; i++ { body }] over a loop state. *)
Fixpoint for_range {St : Type} (i : Z) (n : nat)
    (body : Z -> St -> result St) (s : St) : result St :=
  match n with
  | O => Ok s
  | S n' => s' ← body i s; for_range (i + 1) n' body s'
  end.

(** ** Fixed-width integers *)

Definition wrap8 (z : Z) : Z := z mod 2 ^ 8.
Definition wrap16 (z : Z) : Z := z mod 2 ^ 16.
Definition wrap32 (z : Z) : Z := z mod 2 ^ 32.
Definition int16 (z : Z) : Z := (z + 2 ^ 15) mod 2 ^ 16 - 2 ^ 15.
Definition int64 (z : Z) : Z := (z + 2 ^ 63) mod 2 ^ 64 - 2 ^ 63.

(** The value of a byte, [0 .. 255]. *)
Definition byte_val (b : byte) : Z := Z.of_N (Byte.to_N b).

(** ** Byte-level codec *)

(** little-endian [4]byte to uint32 conversion *)
Definition bLEtoUint32 (b : Bytes) (idx : Z) : result Z :=
  b3 ← index b (idx + 3);
  b2 ← index b (idx + 2);
  b1 ← index b (idx + 1);
  b0 ← index b idx;
  Ok (wrap32 (wrap32 (wrap32 (wrap32 (Z.shiftl (byte_val b3) 24)
                               + wrap32 (Z.shiftl (byte_val b2) 16))
                       + wrap32 (Z.shiftl (byte_val b1) 8))
              + byte_val b0)).

(** little-endian [2]byte to uint16 conversion *)
Definition bLEtoUint16 (b : Bytes) (idx : Z) : result Z :=
  b1 ← index b (idx + 1);
  b0 ← index b idx;
  Ok (wrap16 (wrap16 (Z.shiftl (byte_val b1) 8) + byte_val b0)).

Definition bLEtoInt16 (b : Bytes) (idx : Z) : result Z :=
  b1 ← index b (idx + 1);
  b0 ← index b idx;
  Ok (int16 (int16 (Z.shiftl (byte_val b1) 8) + byte_val b0)).

(** ** Header model *)

Definition RIFFMarkerOffset : Z := 0.
Definition WAVEMarkerOffset : Z := 8.
Definition FMTMarkerOffset : Z := 12.

Definition AudioFormatOffset : Z := 20.
Definition NumChannelsOffset : Z := 22.
Definition SampleRateOffset : Z := 24.
Definition ByteRateOffset : Z := 28.
Definition BlockAlignOffset : Z := 32.
Definition BitsPerSampleOffset : Z := 34.

Record WavHeader : Set := mkWavHeader {
  AudioFormat : Z;
  NumChannels : Z;
  SampleRate : Z;
  ByteRate : Z;
  BlockAlign : Z;
  BitsPerSample : Z;
  ChunkSize : Z;
  NumSamples : Z;
  DataMarkerOffset : Z
}.

(** The zero value of [WavHeader], as [new] gives it. *)
Definition zeroHeader : WavHeader := mkWavHeader 0 0 0 0 0 0 0 0 0.

Record Wav : Set := mkWav {
  header : WavHeader;
  (* The Data corresponding to BitsPerSample is populated; [None] is nil. *)
  Data8 : option (list (list Z));
  Data16 : option (list (list Z));
  (* Indexed by sample, then by channel; a nil entry is the empty list. *)
  Data : list (list Z)
}.

(** ** Marker locator *)

(** [strings.HasPrefix] *)
Fixpoint HasPrefix (s prefix : list byte) {struct prefix} : bool :=
  match prefix, s with
  | [], _ => true
  | _ :: _, [] => false
  | p :: prefix', c :: s' => if decide (c = p) then HasPrefix s' prefix' else false
  end.

(** [strings.Index]: the index of the first instance of [substr] in [s],
    or -1 if [substr] is not present; [i] is the index of the head of [s]. *)
Fixpoint IndexFrom (i : Z) (s substr : list byte) : Z :=
  if HasPrefix s substr then i
  else match s with
       | [] => -1
       | _ :: s' => IndexFrom (i + 1) s' substr
       end.

Definition Index (s substr : list byte) : Z := IndexFrom 0 s substr.

(** [strings.Contains] *)
Definition Contains (s substr : list byte) : bool := 0 <=? Index s substr.

Definition marker (s : string) : list byte := list_byte_of_string s.

(** Scans the file for presence of "data" *)
Definition getDataMarkerOffset (filedata : Bytes) : Z :=
  let stringdata := elems filedata in
  if negb (Contains stringdata (marker "data")) then -1
  else Index stringdata (marker "data").

(** ** Header validator *)

Definition checkHeader (header : Bytes) (datamarkeroffset : Z) : result unit :=
  riff ← reslice header 0 4;
  if decide (elems riff <> marker "RIFF") then
    Err (errors_New "wav: Header does not contain 'RIFF'")
  else
  wave ← reslice header 8 12;
  if decide (elems wave <> marker "WAVE") then
    Err (errors_New "wav: Header does not contain 'WAVE'")
  else
  fmt ← reslice header 12 16;
  if decide (elems fmt <> marker "fmt ") then
    Err (errors_New "wav: Header does not contain 'fmt'")
  else
  data ← reslice header datamarkeroffset (datamarkeroffset + 4);
  if decide (elems data <> marker "data") then
    Err (errors_New "wav: Header does not contain 'data'")
  else Ok tt.

(** [a / b] on [int]s: a zero divisor panics, the quotient truncates. *)
Definition int_div (a b : Z) : result Z :=
  if decide (b = 0) then Panic IntegerDivideByZero else Ok (Z.quot a b).

(** [a % b] on [int]s. *)
Definition int_rem (a b : Z) : result Z :=
  if decide (b = 0) then Panic IntegerDivideByZero else Ok (Z.rem a b).

Definition setupWithHeaderData (wavHeader : WavHeader) (header : Bytes)
    : result WavHeader :=
  _ ← checkHeader header (DataMarkerOffset wavHeader);
  audioFormat ← bLEtoUint16 header AudioFormatOffset;
  numChannels ← bLEtoUint16 header NumChannelsOffset;
  sampleRate ← bLEtoUint32 header SampleRateOffset;
  byteRate ← bLEtoUint32 header ByteRateOffset;
  blockAlign ← bLEtoUint16 header BlockAlignOffset;
  bitsPerSample ← bLEtoUint16 header BitsPerSampleOffset;
  chunkSize ← bLEtoUint32 header (DataMarkerOffset wavHeader + 4);
  numSamples ← int_div chunkSize blockAlign;
  Ok (mkWavHeader audioFormat numChannels sampleRate byteRate blockAlign
        bitsPerSample chunkSize numSamples (DataMarkerOffset wavHeader)).

(** ** Slices of [int]s and of frames *)

(** [make([]T, n)] filled with the zero value [zero]. *)
Definition make_slice {A : Type} (n : Z) (zero : A) : result (list A) :=
  if decide (0 <= n) then Ok (replicate (Z.to_nat n) zero)
  else Panic MakeLenOutOfRange.

(** [s[i]] *)
Definition load {A : Type} (s : list A) (i : Z) : result A :=
  if decide (0 <= i < Z.of_nat (length s)) then
    match s !! Z.to_nat i with
    | Some x => Ok x
    | None => Panic IndexOutOfRange
    end
  else Panic IndexOutOfRange.

(** [s[i] = v] *)
Definition store {A : Type} (s : list A) (i : Z) (v : A) : result (list A) :=
  if decide (0 <= i < Z.of_nat (length s)) then Ok (<[Z.to_nat i := v]> s)
  else Panic IndexOutOfRange.

(** [s[i][j] = v] *)
Definition store2 {A : Type} (s : list (list A)) (i j : Z) (v : A)
    : result (list (list A)) :=
  row ← load s i;
  row' ← store row j v;
  store s i row'.

(** ** Per-frame decode *)

(** Returns a single sample laid out by channel e.g. [ch0, ch1, ...] *)
Definition readSampleFromData (data : Bytes) (sampleIndex : Z)
    (header : WavHeader) : result (list Z) :=
  sample ← make_slice (NumChannels header) 0;
  for_range 0 (Z.to_nat (NumChannels header))
    (fun channelIdx sample =>
       if decide (BitsPerSample header = 8) then
         b ← index data (sampleIndex * NumChannels header + channelIdx);
         store sample channelIdx (byte_val b)
       else if decide (BitsPerSample header = 16) then
         v ← bLEtoInt16 data (2 * sampleIndex * NumChannels header + channelIdx);
         store sample channelIdx v
       else Ok sample)
    sample.

(** ** Bulk decoder *)

(** What [ReadWav] sees of its reader: a nil reader, or the outcome of
    [ioutil.ReadAll] on it (an error, or the whole content as a slice whose
    capacity [ReadAll] chose). *)
Inductive Source : Set :=
| NilReader
| ReadAllError (err : error)
| ReadAllBytes (bytes : Bytes).

Definition withData (wav : Wav) (d : list (list Z)) : Wav :=
  mkWav (header wav) (Data8 wav) (Data16 wav) d.
Definition withData8 (wav : Wav) (d : list (list Z)) : Wav :=
  mkWav (header wav) (Some d) (Data16 wav) (Data wav).
Definition withData16 (wav : Wav) (d : list (list Z)) : Wav :=
  mkWav (header wav) (Data8 wav) (Some d) (Data wav).

(** The rows of a depth-specific representation; indexing nil panics. *)
Definition rows (d : option (list (list Z))) : list (list Z) :=
  match d with Some l => l | None => [] end.

(** The body of [ReadWav] once the data marker has been found. *)
Definition decodeAt (bytes : Bytes) (dataMarkerOffset : Z) : result Wav :=
  hdr ← setupWithHeaderData
          (mkWavHeader 0 0 0 0 0 0 0 0 dataMarkerOffset) bytes;
  data ← reslice bytes (dataMarkerOffset + 8)
                       (ChunkSize hdr + dataMarkerOffset + 8);
  generic ← make_slice (NumSamples hdr) [];
  let wav := mkWav hdr None None generic in
  if decide (BitsPerSample hdr = 8) then
    d8 ← make_slice (NumSamples hdr) [];
    d8 ← for_range 0 (Z.to_nat (NumSamples hdr))
           (fun sampleIndex d8 =>
              row ← make_slice (NumChannels hdr) 0;
              store d8 sampleIndex row) d8;
    for_range 0 (Z.to_nat (NumSamples hdr))
      (fun i wav =>
         sample ← readSampleFromData data i (header wav);
         generic ← store (Data wav) i sample;
         for_range 0 (Z.to_nat (NumChannels hdr))
           (fun ch wav =>
              v ← load sample ch;
              d8 ← store2 (rows (Data8 wav)) i ch (wrap8 v);
              Ok (withData8 wav d8))
           (withData wav generic))
      (withData8 wav d8)
  else if decide (BitsPerSample hdr = 16) then
    d16 ← make_slice (NumSamples hdr) [];
    d16 ← for_range 0 (Z.to_nat (NumSamples hdr))
            (fun sampleIndex d16 =>
               row ← make_slice (NumChannels hdr) 0;
               store d16 sampleIndex row) d16;
    for_range 0 (Z.to_nat (NumSamples hdr))
      (fun i wav =>
         sample ← readSampleFromData data i (header wav);
         generic ← store (Data wav) i sample;
         for_range 0 (Z.to_nat (NumChannels hdr))
           (fun ch wav =>
              v ← load sample ch;
              d16 ← store2 (rows (Data16 wav)) i ch (int16 v);
              Ok (withData16 wav d16))
           (withData wav generic))
      (withData16 wav d16)
  else Ok wav.

(** ReadWav reads a wav file. *)
Definition ReadWav (r : Source) : result Wav :=
  match r with
  | NilReader => Err (errors_New "wav: Invalid Reader")
  | ReadAllError err => Err err
  | ReadAllBytes bytes =>
      let dataMarkerOffset := getDataMarkerOffset bytes in
      if decide (dataMarkerOffset = -1) then
        Err (errors_New "data header not found")
      else decodeAt bytes dataMarkerOffset
  end.

(** ** Streaming decoder *)

(** [io.Reader]: [Read r n] is a call of [r.Read(p)] with [len(p) = n];
    it gives the bytes the reader delivers, its error (if any) and the
    reader afterwards. *)
Class Reader (R : Type) := Read : R -> nat -> list byte * option error * R.

(** [n, err := r.Read(p)]: at most [len(p)] bytes are written to the front
    of [p], and [n] is their number. *)
Definition callRead {R : Type} `{Reader R} (r : R) (p : Bytes)
    : Z * Bytes * option error * R :=
  let '(chunk, err, r') := Read r (length (elems p)) in
  let got := take (length (elems p)) chunk in
  (Z.of_nat (length got),
   mkBytes (got ++ drop (length got) (elems p)) (spare p), err, r').

Record StreamedWav (R : Type) : Type := mkStreamedWav {
  sheader : WavHeader;
  sreader : R
}.
Arguments mkStreamedWav {R} _ _.
Arguments sheader {R} _.
Arguments sreader {R} _.

Section Streaming.
Context {R : Type} `{Reader R}.

(** The scanning loop of [StreamWav]: one byte per iteration until the
    text read so far contains "data" or a read fails.  [None]: the loop
    is still running when [fuel] iterations have been spent. *)
Fixpoint scanForData (fuel : nat) (reader : R) (stringdata : list byte)
    (headerdataoffset : Z) : option (R * Z) :=
  if Contains stringdata (marker "data") then Some (reader, headerdataoffset)
  else match fuel with
       | O => None
       | S fuel' =>
           let '(_, singlebyte, readerror, reader') :=
             callRead reader (exact [x00]) in
           match readerror with
           | Some _ => Some (reader', headerdataoffset)
           | None => scanForData fuel' reader'
                       (stringdata ++ elems singlebyte)
                       (headerdataoffset + 1)
           end
       end.

(** Constructs a StreamedWav which can be read using ReadSamples *)
Definition StreamWav (fuel : nat) (reader : option R)
    : option (result (StreamedWav R)) :=
  match reader with
  | None => Some (Err (errors_New "wav: Invalid Reader"))
  | Some reader =>
      match scanForData fuel reader [] 0 with
      | None => None
      | Some (reader, headerdataoffset) =>
          Some (header ← make_bytes (headerdataoffset + 8);
                let '(_, header, err, reader) := callRead reader header in
                match err with
                | Some err => Err err
                | None =>
                    hdr ← setupWithHeaderData zeroHeader header;
                    Ok (mkStreamedWav hdr reader)
                end)
      end
  end.

(** The frames of one pull, decoded from the buffer [data]. *)
Definition decodeBatch (wav : StreamedWav R) (data : Bytes) (amountRead : Z)
    : result (list (list Z)) :=
  r ← int_rem amountRead (BlockAlign (sheader wav));
  if decide (r <> 0) then
    Err (errors_New "wav: Read an invalid amount of data")
  else
    numberOfSamplesRead ← int_div amountRead (BlockAlign (sheader wav));
    samples ← make_slice numberOfSamplesRead [];
    for_range 0 (Z.to_nat numberOfSamplesRead)
      (fun sampleIndex samples =>
         sample ← readSampleFromData data sampleIndex (sheader wav);
         store samples sampleIndex sample)
      samples.

(** Returns the samples read and the container with its reader advanced.
    The number of samples returned may be less than the amount requested
    depending on the amount of data available. *)
Definition ReadSamples (wav : StreamedWav R) (numSamples : Z)
    : result (list (list Z)) * StreamedWav R :=
  match make_bytes (int64 (numSamples * BlockAlign (sheader wav))) with
  | Ok data =>
      let '(amountRead, data, err, reader) := callRead (sreader wav) data in
      let wav' := mkStreamedWav (sheader wav) reader in
      match err with
      | Some err => (Err err, wav')
      | None => (decodeBatch wav data amountRead, wav')
      end
  | Err e => (Err e, wav)
  | Panic p => (Panic p, wav)
  end.
End Streaming.

(** An in-memory stream that hands out its bytes as [bytes.Reader] does:
    as many as fit, and [io.EOF] once nothing is left. *)
Definition EOF : error := errors_New "EOF".

#[global] Instance bytes_Reader : Reader (list byte) := fun s n =>
  match s with
  | [] => ([], Some EOF, [])
  | _ => (take n s, None, drop n s)
  end.

(** ** Mono downmix *)

(** IEEE 754 binary64, as [float64]. *)
Definition float64 : Set := spec_float.
Definition float64_of_int (z : Z) : float64 := binary_normalize 53 1024 z 0 false.
Definition float64_div (x y : float64) : float64 := SFdiv 53 1024 x y.

Definition GetMonoData (w : Wav) : result (list float64) :=
  y ← make_slice (Z.of_nat (length (Data w))) (float64_of_int 0);
  if decide (NumChannels (header w) = 1) then
    for_range 0 (length (Data w))
      (fun i y =>
         val ← load (Data w) i;
         v0 ← load val 0;
         store y i (float64_of_int v0))
      y
  else
    for_range 0 (length (Data w))
      (fun i y =>
         val ← load (Data w) i;
         v0 ← load val 0;
         v1 ← load val 1;
         store y i (float64_div (float64_of_int (int64 (v0 + v1)))
                                (float64_of_int 2)))
      y.

(** ** Sample inputs *)

Definition byte_of (z : Z) : byte :=
  match Byte.of_N (Z.to_N (z mod 256)) with
  | Some b => b
  | None => x00
  end.

(** Little-endian encodings of a 16-bit and a 32-bit field. *)
Definition le16 (z : Z) : list byte := [byte_of z; byte_of (z / 256)].
Definition le32 (z : Z) : list byte := le16 z ++ le16 (z / 65536).

(** The 16-byte body of a "fmt " sub-chunk. *)
Definition fmtBody (audioFormat channels sampleRate byteRate blockAlign
    bitsPerSample : Z) : list byte :=
  le16 audioFormat ++ le16 channels ++ le32 sampleRate ++ le32 byteRate ++
  le16 blockAlign ++ le16 bitsPerSample.

(** A file in the canonical layout: the RIFF prelude, the "fmt " sub-chunk
    (marker, its size 16, its body) and the "data" sub-chunk (marker, the
    declared size, the payload). *)
Definition wavFile (channels sampleRate byteRate blockAlign bitsPerSample
    chunkSize : Z) (payload : list byte) : list byte :=
  marker "RIFF????WAVEfmt " ++ le32 16 ++
  fmtBody 1 channels sampleRate byteRate blockAlign bitsPerSample ++
  marker "data" ++ le32 chunkSize ++ payload.

(** Mono, 16 bits, the two samples 100 and -100. *)
Definition monoFile : list byte :=
  wavFile 1 44100 88200 2 16 4 (le16 100 ++ le16 (-100)).

(** The same fields with the "fmt " body directly behind the marker, that
    is, without the four bytes of the sub-chunk size. *)
Definition monoFileNoFmtSize : list byte :=
  marker "RIFF????WAVEfmt " ++ fmtBody 1 1 44100 88200 2 16 ++
  marker "data" ++ le32 4 ++ le16 100 ++ le16 (-100).

(** Stereo, 16 bits, one frame with left 1 and right 2. *)
Definition stereoPayload : list byte := le16 1 ++ le16 2.
Definition stereoFile : list byte := wavFile 2 44100 176400 4 16 4 stereoPayload.

(** Mono, 24 bits, one frame. *)
Definition depth24File : list byte :=
  wavFile 1 44100 132300 3 24 3 [x01; x02; x03].

(** No channel, 8 bits, a block alignment of 1 and one byte of payload. *)
Definition noChannelFile : list byte :=
  wavFile 0 44100 44100 1 8 1 [x05].

(** A block alignment of zero. *)
Definition zeroAlignFile : list byte :=
  wavFile 1 44100 88200 0 16 4 (le16 100 ++ le16 (-100)).

(** A declared chunk size of 1000 bytes over a payload of 4. *)
Definition shortPayloadFile : list byte :=
  wavFile 1 44100 88200 2 16 1000 (le16 100 ++ le16 (-100)).

(** What [monoFile] and [stereoFile] decode to. *)
Definition monoDecoded : Wav :=
  mkWav (mkWavHeader 1 1 44100 88200 2 16 4 2 36)
    None (Some [[100]; [-100]]) [[100]; [-100]].
Definition stereoDecoded : Wav :=
  mkWav (mkWavHeader 1 2 44100 176400 4 16 4 1 36)
    None (Some [[1; 512]]) [[1; 512]].

(** ** Vocabulary of the statements *)

(** [substr] occurs in [s] at index [k]. *)
Definition occurs_at (s substr : list byte) (k : nat) : Prop :=
  take (length substr) (drop k s) = substr.

(** The four bytes of [b] from offset [off] exist and spell [m]. *)
Definition has_marker (b : Bytes) (off : Z) (m : string) : Prop :=
  0 <= off /\ off + 4 <= cap b /\
  take 4 (drop (Z.to_nat off) (backing b)) = marker m.

(** The four bytes of [b] from offset [off] exist. *)
Definition in_bounds (b : Bytes) (off : Z) : Prop :=
  0 <= off /\ off + 4 <= cap b.

(** The four bytes of [b] from offset [off] exist and differ from [m]. *)
Definition mismatch (b : Bytes) (off : Z) (m : string) : Prop :=
  0 <= off /\ off + 4 <= cap b /\
  take 4 (drop (Z.to_nat off) (backing b)) <> marker m.

(** Bytes per sample of a supported depth; the other depths read none. *)
Definition sampleWidth (bitsPerSample : Z) : Z :=
  if decide (bitsPerSample = 8) then 1
  else if decide (bitsPerSample = 16) then 2
  else 0.

(** The pull operation as the specification words it, for a pull of [N]
    frames: with [amountRead] the number of bytes the one read of
    [N × block-alignment] bytes returns, a read error is returned as it is;
    otherwise a count that is no multiple of the block alignment is the
    misaligned-read error; otherwise [amountRead ÷ block-alignment] frames
    come back, decoded from the bytes read. *)
Definition pull_as_specified {R : Type} `{Reader R} (wav : StreamedWav R)
    (N : Z) : Prop :=
  let hdr := sheader wav in
  let request := exact (replicate (Z.to_nat (N * BlockAlign hdr)) x00) in
  let '(amountRead, data, err, _) := callRead (sreader wav) request in
  let got := exact (take (Z.to_nat amountRead) (elems data)) in
  match err with
  | Some e => fst (ReadSamples wav N) = Err e
  | None =>
      (~ (BlockAlign hdr | amountRead) ->
       fst (ReadSamples wav N) =
         Err (errors_New "wav: Read an invalid amount of data")) /\
      ((BlockAlign hdr | amountRead) ->
       exists frames,
         fst (ReadSamples wav N) = Ok frames /\
         Z.of_nat (length frames) = amountRead / BlockAlign hdr /\
         forall i frame, frames !! i = Some frame ->
           readSampleFromData got (Z.of_nat i) hdr = Ok frame)
  end.

(** The real number a [float64] stands for, [m·2^e] as a fraction; none for
    infinities and NaN. *)
Definition float64_val (x : float64) : option Q :=
  match x with
  | S754_zero _ => Some 0%Q
  | S754_finite s m e =>
      let sm := if s then Z.neg m else Z.pos m in
      Some match e with
           | Z0 => inject_Z sm
           | Z.pos p => inject_Z (sm * 2 ^ Z.pos p)
           | Z.neg p => sm # (2 ^ p)%positive
           end
  | _ => None
  end.

(** [x] is finite and its value is the rational [q]. *)
Definition represents (x : float64) (q : Q) : Prop :=
  match float64_val x with
  | Some r => (r == q)%Q
  | None => False
  end.

(** A frame of a decoded container of a supported depth: one slot per
    channel, each within the range of a 16-bit sample. *)
Definition decoded_frame (h : WavHeader) (frame : list Z) : Prop :=
  length frame = Z.to_nat (NumChannels h) /\
  Forall (fun v => -32768 <= v <= 32767) frame.

(** A computation that can panic but never returns an [error]. *)
Definition no_error {A : Type} (r : result A) : Prop := forall e, r <> Err e.

(** What slot [c] of a decoded frame holds: the byte at [i·C + c] for 8
    bits, the signed little-endian pair read at [2·i·C + c] for 16 bits,
    zero otherwise. *)
Definition slot_of (data : Bytes) (i : Z) (h : WavHeader) (c : nat) (x : Z) : Prop :=
  (BitsPerSample h = 8 ->
     exists b, index data (i * NumChannels h + Z.of_nat c) = Ok b /\ x = byte_val b) /\
  (BitsPerSample h = 16 ->
     bLEtoInt16 data (2 * i * NumChannels h + Z.of_nat c) = Ok x) /\
  (BitsPerSample h <> 8 -> BitsPerSample h <> 16 -> x = 0).

(** The frames at indexes [0 .. n) of a payload, by the per-frame decode;
    a frame that cannot be decoded counts as empty. *)
Definition frames_of (data : Bytes) (hdr : WavHeader) (n : nat) : list (list Z) :=
  map (fun i => match readSampleFromData data (Z.of_nat i) hdr with
                | Ok frame => frame
                | _ => []
                end)
      (seq 0 n).

(** The container a bulk decode of a supported depth returns. *)
Definition decoded_as (hdr : WavHeader) (fs : list (list Z)) : Wav :=
  mkWav hdr
    (if decide (BitsPerSample hdr = 8) then Some fs else None)
    (if decide (BitsPerSample hdr = 16) then Some fs else None)
    fs.

(** The number of leading entries of a frame the downmix indexes: one for
    a mono header, two for any other. *)
Definition channels_read (h : WavHeader) : nat :=
  if decide (NumChannels h = 1) then 1%nat else 2%nat.


(** * Properties *)

(** ** The result monad *)

Lemma bind_Ok_inv {A B : Type} (r : result A) (k : A -> result B) (b : B) :
  r ≫= k = Ok b -> exists a, r = Ok a /\ k a = Ok b.
Proof. destruct r as [a|e|p]; simpl; intros Hb; try discriminate; eauto. Qed.

Lemma bind_Err_inv {A B : Type} (r : result A) (k : A -> result B) (e : error) :
  r ≫= k = Err e -> r = Err e \/ exists a, r = Ok a /\ k a = Err e.
Proof.
  destruct r as [a|e'|p]; simpl; intros Hb; try discriminate.
  - right. exists a. auto.
  - left. injection Hb as ->. reflexivity.
Qed.

Lemma bind_Ok {A B : Type} (r : result A) (k : A -> result B) (a : A) :
  r = Ok a -> r ≫= k = k a.
Proof. intros ->. reflexivity. Qed.

Lemma no_error_bind {A B : Type} (r : result A) (k : A -> result B) :
  no_error r -> (forall a, r = Ok a -> no_error (k a)) -> no_error (r ≫= k).
Proof.
  intros Hr Hk e He. apply bind_Err_inv in He as [He|(a & Ha & He)].
  - exact (Hr e He).
  - exact (Hk a Ha e He).
Qed.

Lemma no_error_Ok {A : Type} (a : A) : no_error (Ok a).
Proof. intros e; discriminate. Qed.

Lemma no_error_Panic {A : Type} (p : panic) : no_error (@Panic A p).
Proof. intros e; discriminate. Qed.

(** ** Loops *)

Lemma for_range_no_error {St : Type} (body : Z -> St -> result St) :
  (forall i s, no_error (body i s)) ->
  forall n i s, no_error (for_range i n body s).
Proof.
  intros Hbody n; induction n as [|n IH]; intros i s; simpl.
  - apply no_error_Ok.
  - apply no_error_bind; [apply Hbody | intros; apply IH].
Qed.

(** Total correctness: an invariant indexed by the number of iterations
    done, each iteration succeeding under it. *)
Lemma for_range_total {St : Type} (P : nat -> St -> Prop)
    (body : Z -> St -> result St) (start : Z) (n : nat) (s0 : St) :
  P 0%nat s0 ->
  (forall k s, (k < n)%nat -> P k s ->
     exists s', body (start + Z.of_nat k) s = Ok s' /\ P (S k) s') ->
  exists s', for_range start n body s0 = Ok s' /\ P n s'.
Proof.
  revert P start s0; induction n as [|n IH]; intros P start s0 H0 Hstep; simpl.
  - eauto.
  - destruct (Hstep 0%nat s0 ltac:(lia) H0) as (s1 & Hb & H1).
    rewrite Z.add_0_r in Hb. rewrite Hb; simpl.
    destruct (IH (fun k => P (S k)) (start + 1) s1 H1) as (s' & Hs' & HP).
    + intros k s Hk HPk. destruct (Hstep (S k) s ltac:(lia) HPk) as (s'' & Hb' & HP').
      exists s''. split; [|exact HP'].
      rewrite <- Hb'. f_equal. lia.
    + eauto.
Qed.

(** Partial correctness: what a loop that ran to its end established. *)
Lemma for_range_partial {St : Type} (P : nat -> St -> Prop)
    (body : Z -> St -> result St) (start : Z) (n : nat) (s0 s' : St) :
  P 0%nat s0 ->
  (forall k s s1, (k < n)%nat -> P k s ->
     body (start + Z.of_nat k) s = Ok s1 -> P (S k) s1) ->
  for_range start n body s0 = Ok s' -> P n s'.
Proof.
  revert P start s0; induction n as [|n IH]; intros P start s0 H0 Hstep; simpl.
  - intros [= <-]. exact H0.
  - intros Hrun. apply bind_Ok_inv in Hrun as (s1 & Hb & Hrun).
    apply (IH (fun k => P (S k)) (start + 1) s1); [| |exact Hrun].
    + apply (Hstep 0%nat s0 s1); [lia|exact H0|]. rewrite Z.add_0_r. exact Hb.
    + intros k s s2 Hk HPk Hb'. apply (Hstep (S k) s s2); [lia|exact HPk|].
      rewrite <- Hb'. f_equal. lia.
Qed.

(** Two bodies that agree on the indexes the loop visits run alike. *)
Lemma for_range_ext {St : Type} (body1 body2 : Z -> St -> result St)
    (start : Z) (n : nat) (s : St) :
  (forall k s, (k < n)%nat ->
     body1 (start + Z.of_nat k) s = body2 (start + Z.of_nat k) s) ->
  for_range start n body1 s = for_range start n body2 s.
Proof.
  revert start s; induction n as [|n IH]; intros start s Hag; simpl; [reflexivity|].
  pose proof (Hag 0%nat s ltac:(lia)) as H0. rewrite Z.add_0_r in H0. rewrite H0.
  destruct (body2 start s) as [s1| |]; simpl; try reflexivity.
  apply IH. intros k s2 Hk.
  replace (start + 1 + Z.of_nat k) with (start + Z.of_nat (S k)) by lia.
  apply Hag. lia.
Qed.

(** ** Slices *)

Lemma index_Ok (b : Bytes) (i : Z) :
  0 <= i < len b -> exists x, index b i = Ok x /\ elems b !! Z.to_nat i = Some x.
Proof.
  intros Hi. unfold index. rewrite decide_True by exact Hi.
  destruct (elems b !! Z.to_nat i) as [x|] eqn:Hx; [eauto|].
  apply lookup_ge_None in Hx. unfold len in Hi. lia.
Qed.


Lemma index_no_error (b : Bytes) (i : Z) : no_error (index b i).
Proof.
  intros e. unfold index. destruct (decide _); [|discriminate].
  destruct (_ !! _); discriminate.
Qed.

Lemma index_out_of_range (b : Bytes) (i : Z) :
  ~ (0 <= i < len b) -> index b i = Panic IndexOutOfRange.
Proof. intros Hi. unfold index. rewrite decide_False by exact Hi. reflexivity. Qed.

Lemma reslice_no_error (b : Bytes) (lo hi : Z) : no_error (reslice b lo hi).
Proof. intros e. unfold reslice. destruct (decide _); discriminate. Qed.

Lemma make_slice_no_error {A : Type} (n : Z) (z : A) : no_error (make_slice n z).
Proof. intros e. unfold make_slice. destruct (decide _); discriminate. Qed.

Lemma make_slice_Ok {A : Type} (n : Z) (z : A) :
  0 <= n -> make_slice n z = Ok (replicate (Z.to_nat n) z).
Proof. intros Hn. unfold make_slice. rewrite decide_True by exact Hn. reflexivity. Qed.

Lemma load_no_error {A : Type} (s : list A) (i : Z) : no_error (load s i).
Proof.
  intros e. unfold load. destruct (decide _); [|discriminate].
  destruct (_ !! _); discriminate.
Qed.

Lemma store_no_error {A : Type} (s : list A) (i : Z) (v : A) :
  no_error (store s i v).
Proof. intros e. unfold store. destruct (decide _); discriminate. Qed.

Lemma store_Ok {A : Type} (s : list A) (i : Z) (v : A) :
  0 <= i < Z.of_nat (length s) -> store s i v = Ok (<[Z.to_nat i := v]> s).
Proof. intros Hi. unfold store. rewrite decide_True by exact Hi. reflexivity. Qed.

Lemma store_Ok_inv {A : Type} (s s' : list A) (i : Z) (v : A) :
  store s i v = Ok s' ->
  0 <= i < Z.of_nat (length s) /\ s' = <[Z.to_nat i := v]> s.
Proof.
  unfold store. destruct (decide _) as [Hi|]; [|discriminate].
  intros [= <-]. auto.
Qed.

Lemma load_Ok_inv {A : Type} (s : list A) (i : Z) (x : A) :
  load s i = Ok x -> 0 <= i /\ s !! Z.to_nat i = Some x.
Proof.
  unfold load. destruct (decide _) as [Hi|]; [|discriminate].
  destruct (s !! Z.to_nat i) as [y|]; [|discriminate].
  intros [= ->]. split; [lia|reflexivity].
Qed.

Lemma load_Ok {A : Type} (s : list A) (i : nat) (x : A) :
  s !! i = Some x -> load s (Z.of_nat i) = Ok x.
Proof.
  intros Hx. unfold load. pose proof (lookup_lt_Some _ _ _ Hx).
  rewrite decide_True by lia. rewrite Nat2Z.id, Hx. reflexivity.
Qed.

(** ** Codec *)

Lemma byte_val_range (b : byte) : 0 <= byte_val b <= 255.
Proof. unfold byte_val. pose proof (Byte.to_N_bounded b). lia. Qed.

Lemma int16_range (z : Z) : -32768 <= int16 z <= 32767.
Proof. unfold int16. pose proof (Z.mod_pos_bound (z + 2 ^ 15) (2 ^ 16)). lia. Qed.

Lemma wrap16_range (z : Z) : 0 <= wrap16 z < 65536.
Proof. unfold wrap16. pose proof (Z.mod_pos_bound z (2 ^ 16)). lia. Qed.

Lemma wrap32_range (z : Z) : 0 <= wrap32 z < 4294967296.
Proof. unfold wrap32. pose proof (Z.mod_pos_bound z (2 ^ 32)). lia. Qed.

Lemma bLEtoUint16_Ok (b : Bytes) (idx : Z) :
  0 <= idx -> idx + 2 <= len b ->
  exists v, bLEtoUint16 b idx = Ok v /\ 0 <= v < 65536.
Proof.
  intros H0 H1. unfold bLEtoUint16.
  destruct (index_Ok b (idx + 1)) as (b1 & -> & _); [lia|].
  destruct (index_Ok b idx) as (b0 & -> & _); [lia|].
  simpl. eexists; split; [reflexivity|apply wrap16_range].
Qed.

Lemma bLEtoUint32_Ok (b : Bytes) (idx : Z) :
  0 <= idx -> idx + 4 <= len b ->
  exists v, bLEtoUint32 b idx = Ok v /\ 0 <= v < 4294967296.
Proof.
  intros H0 H1. unfold bLEtoUint32.
  destruct (index_Ok b (idx + 3)) as (b3 & -> & _); [lia|].
  destruct (index_Ok b (idx + 2)) as (b2 & -> & _); [lia|].
  destruct (index_Ok b (idx + 1)) as (b1 & -> & _); [lia|].
  destruct (index_Ok b idx) as (b0 & -> & _); [lia|].
  simpl. eexists; split; [reflexivity|apply wrap32_range].
Qed.

Lemma bLEtoInt16_Ok (b : Bytes) (idx : Z) :
  0 <= idx -> idx + 2 <= len b ->
  exists v, bLEtoInt16 b idx = Ok v /\ -32768 <= v <= 32767.
Proof.
  intros H0 H1. unfold bLEtoInt16.
  destruct (index_Ok b (idx + 1)) as (b1 & -> & _); [lia|].
  destruct (index_Ok b idx) as (b0 & -> & _); [lia|].
  simpl. eexists; split; [reflexivity|apply int16_range].
Qed.

Lemma bLEtoInt16_Ok_inv (b : Bytes) (idx v : Z) :
  bLEtoInt16 b idx = Ok v -> -32768 <= v <= 32767.
Proof.
  unfold bLEtoInt16. intros Hv.
  apply bind_Ok_inv in Hv as (b1 & _ & Hv).
  apply bind_Ok_inv in Hv as (b0 & _ & Hv).
  injection Hv as <-. apply int16_range.
Qed.

Lemma bLEtoUint16_no_error (b : Bytes) (idx : Z) : no_error (bLEtoUint16 b idx).
Proof.
  unfold bLEtoUint16.
  repeat (apply no_error_bind; [apply index_no_error|intros]).
  apply no_error_Ok.
Qed.

Lemma bLEtoUint32_no_error (b : Bytes) (idx : Z) : no_error (bLEtoUint32 b idx).
Proof.
  unfold bLEtoUint32.
  repeat (apply no_error_bind; [apply index_no_error|intros]).
  apply no_error_Ok.
Qed.

Lemma bLEtoInt16_no_error (b : Bytes) (idx : Z) : no_error (bLEtoInt16 b idx).
Proof.
  unfold bLEtoInt16.
  repeat (apply no_error_bind; [apply index_no_error|intros]).
  apply no_error_Ok.
Qed.

(** ** Marker location *)

Lemma HasPrefix_spec (p s : list byte) :
  HasPrefix s p = true <-> take (length p) s = p.
Proof.
  revert s; induction p as [|c p IH]; intros s; simpl.
  - rewrite take_0. split; reflexivity.
  - destruct s as [|d s]; simpl.
    + split; discriminate.
    + destruct (decide (d = c)) as [->|Hne].
      * rewrite IH. split; [intros ->; reflexivity|intros [= ?]; assumption].
      * split; [discriminate|intros [= ? ?]; contradiction].
Qed.

Lemma occurs_at_0 (s sub : list byte) :
  occurs_at s sub 0 <-> HasPrefix s sub = true.
Proof. unfold occurs_at. rewrite drop_0. symmetry. apply HasPrefix_spec. Qed.

Lemma occurs_at_S (c : byte) (s sub : list byte) (k : nat) :
  occurs_at (c :: s) sub (S k) <-> occurs_at s sub k.
Proof. unfold occurs_at. simpl. tauto. Qed.

(** [IndexFrom] answers -1 exactly when there is no occurrence, and the
    first occurrence otherwise. *)
Lemma IndexFrom_spec (sub s : list byte) (i : Z) :
  (IndexFrom i s sub = -1 /\ forall k, ~ occurs_at s sub k) \/
  (exists k, IndexFrom i s sub = i + Z.of_nat k /\ occurs_at s sub k /\
             forall j, (j < k)%nat -> ~ occurs_at s sub j).
Proof.
  revert i; induction s as [|c s IH]; intros i; simpl.
  - destruct (HasPrefix [] sub) eqn:Hp.
    + right. exists 0%nat. rewrite Z.add_0_r. split; [reflexivity|].
      split; [apply occurs_at_0; exact Hp|lia].
    + left. split; [reflexivity|]. intros k Hk.
      unfold occurs_at in Hk. rewrite drop_nil in Hk.
      apply HasPrefix_spec in Hk. congruence.
  - destruct (HasPrefix (c :: s) sub) eqn:Hp.
    + right. exists 0%nat. rewrite Z.add_0_r. split; [reflexivity|].
      split; [apply occurs_at_0; exact Hp|lia].
    + destruct (IH (i + 1)) as [[Hm Hno]|(k & Hk & Hoc & Hfirst)].
      * left. split; [exact Hm|]. intros [|k] Hk.
        -- apply occurs_at_0 in Hk. congruence.
        -- apply occurs_at_S in Hk. exact (Hno k Hk).
      * right. exists (S k). split; [rewrite Hk; lia|].
        split; [apply occurs_at_S; exact Hoc|].
        intros [|j] Hj Hoj.
        -- apply occurs_at_0 in Hoj. congruence.
        -- apply occurs_at_S in Hoj. apply (Hfirst j); [lia|exact Hoj].
Qed.

Lemma getDataMarkerOffset_spec (filedata : Bytes) :
  (getDataMarkerOffset filedata = -1 /\
   forall k, ~ occurs_at (elems filedata) (marker "data") k) \/
  (exists k, getDataMarkerOffset filedata = Z.of_nat k /\
             occurs_at (elems filedata) (marker "data") k /\
             forall j, (j < k)%nat -> ~ occurs_at (elems filedata) (marker "data") j).
Proof.
  unfold getDataMarkerOffset, Contains, Index.
  destruct (IndexFrom_spec (marker "data") (elems filedata) 0)
    as [[Hm Hno]|(k & Hk & Hoc & Hfirst)].
  - left. rewrite Hm. simpl. auto.
  - right. exists k. rewrite Hk.
    replace (0 <=? 0 + Z.of_nat k) with true by (symmetry; apply Z.leb_le; lia).
    simpl. split; [lia|auto].
Qed.

(** ** Header validation *)

Lemma reslice_marker (h : Bytes) (lo hi : Z) (m : string) :
  hi = lo + 4 ->
  (has_marker h lo m /\ exists s, reslice h lo hi = Ok s /\ elems s = marker m) \/
  (mismatch h lo m /\ exists s, reslice h lo hi = Ok s /\ elems s <> marker m) \/
  (~ (0 <= lo /\ lo + 4 <= cap h) /\ reslice h lo hi = Panic SliceBoundsOutOfRange).
Proof.
  intros ->. unfold reslice, has_marker, mismatch.
  destruct (decide (0 <= lo /\ lo <= lo + 4 /\ lo + 4 <= cap h)) as [Hb|Hb].
  - replace (Z.to_nat (lo + 4 - lo)) with 4%nat by lia.
    destruct (decide (take 4 (drop (Z.to_nat lo) (backing h)) = marker m)) as [He|He].
    + left. split; [intuition lia|]. eexists; split; [reflexivity|exact He].
    + right; left. split; [intuition lia|]. eexists; split; [reflexivity|exact He].
  - right; right. split; [lia|reflexivity].
Qed.

Lemma has_marker_not_mismatch (h : Bytes) (off : Z) (m : string) :
  has_marker h off m -> ~ mismatch h off m.
Proof. unfold has_marker, mismatch. tauto. Qed.

Lemma has_marker_in_bounds (h : Bytes) (off : Z) (m : string) :
  has_marker h off m -> in_bounds h off.
Proof. unfold has_marker, in_bounds. tauto. Qed.

Lemma mismatch_in_bounds (h : Bytes) (off : Z) (m : string) :
  mismatch h off m -> in_bounds h off.
Proof. unfold mismatch, in_bounds. tauto. Qed.

Ltac marker_clash :=
  match goal with
  | Hh : has_marker ?h ?o ?m, Hm : mismatch ?h ?o ?m |- _ =>
      destruct (has_marker_not_mismatch h o m Hh Hm)
  end.

Ltac check_step h lo hi m :=
  let Hm := fresh "Hm" in
  let s := fresh "s" in
  let Hs := fresh "Hs" in
  let He := fresh "He" in
  destruct (reslice_marker h lo hi m ltac:(lia))
    as [[Hm (s & Hs & He)]|[[Hm (s & Hs & He)]|[Hm Hs]]];
  rewrite Hs; simpl;
  [rewrite decide_False by (intros Hne; exact (Hne He))
  |rewrite decide_True by exact He
  |].

Lemma checkHeader_cases (h : Bytes) (off : Z) :
  (mismatch h 0 "RIFF" /\
     checkHeader h off = Err (errors_New "wav: Header does not contain 'RIFF'")) \/
  (has_marker h 0 "RIFF" /\ mismatch h 8 "WAVE" /\
     checkHeader h off = Err (errors_New "wav: Header does not contain 'WAVE'")) \/
  (has_marker h 0 "RIFF" /\ has_marker h 8 "WAVE" /\ mismatch h 12 "fmt " /\
     checkHeader h off = Err (errors_New "wav: Header does not contain 'fmt'")) \/
  (has_marker h 0 "RIFF" /\ has_marker h 8 "WAVE" /\ has_marker h 12 "fmt " /\
     mismatch h off "data" /\
     checkHeader h off = Err (errors_New "wav: Header does not contain 'data'")) \/
  (has_marker h 0 "RIFF" /\ has_marker h 8 "WAVE" /\ has_marker h 12 "fmt " /\
     has_marker h off "data" /\ checkHeader h off = Ok tt) \/
  (((~ in_bounds h 0) \/
    (has_marker h 0 "RIFF" /\ ~ in_bounds h 8) \/
    (has_marker h 0 "RIFF" /\ has_marker h 8 "WAVE" /\ ~ in_bounds h 12) \/
    (has_marker h 0 "RIFF" /\ has_marker h 8 "WAVE" /\ has_marker h 12 "fmt " /\
     ~ in_bounds h off)) /\
   checkHeader h off = Panic SliceBoundsOutOfRange).
Proof.
  unfold checkHeader.
  check_step h 0 4 "RIFF"%string; [|tauto|].
  2:{ do 5 right. unfold in_bounds. tauto. }
  check_step h 8 12 "WAVE"%string; [|tauto|].
  2:{ do 5 right. unfold in_bounds. tauto. }
  check_step h 12 16 "fmt "%string; [|tauto|].
  2:{ do 5 right. unfold in_bounds. tauto. }
  check_step h off (off + 4) "data"%string; [|tauto|].
  2:{ do 5 right. unfold in_bounds. tauto. }
  tauto.
Qed.

Lemma checkHeader_Ok_inv (h : Bytes) (off : Z) :
  checkHeader h off = Ok tt ->
  has_marker h 0 "RIFF" /\ has_marker h 8 "WAVE" /\
  has_marker h 12 "fmt " /\ has_marker h off "data".
Proof.
  intros Hok.
  destruct (checkHeader_cases h off)
    as [(_ & E)|[(_ & _ & E)|[(_ & _ & _ & E)|[(_ & _ & _ & _ & E)
       |[(H1 & H2 & H3 & H4 & _)|(_ & E)]]]]];
    try (rewrite E in Hok; discriminate).
  auto.
Qed.

Lemma checkHeader_Err_inv (h : Bytes) (off : Z) (e : error) :
  checkHeader h off = Err e ->
  e = errors_New "wav: Header does not contain 'RIFF'" \/
  e = errors_New "wav: Header does not contain 'WAVE'" \/
  e = errors_New "wav: Header does not contain 'fmt'" \/
  e = errors_New "wav: Header does not contain 'data'".
Proof.
  intros Herr.
  destruct (checkHeader_cases h off)
    as [(_ & E)|[(_ & _ & E)|[(_ & _ & _ & E)|[(_ & _ & _ & _ & E)
       |[(_ & _ & _ & _ & E)|(_ & E)]]]]];
    rewrite E in Herr; try discriminate; injection Herr as <-; auto.
Qed.

(** ** No error besides the validator's *)

Ltac no_err :=
  repeat first
    [ apply no_error_Ok
    | apply no_error_Panic
    | apply index_no_error
    | apply reslice_no_error
    | apply make_slice_no_error
    | apply load_no_error
    | apply store_no_error
    | apply bLEtoUint16_no_error
    | apply bLEtoUint32_no_error
    | apply bLEtoInt16_no_error
    | apply for_range_no_error; intros
    | apply no_error_bind; [|intros]
    | match goal with |- no_error (if decide ?P then _ else _) =>
        destruct (decide P) end ].

(** Refute [H : r = Err e] by showing that [r] never returns an error. *)
Ltac refute_error H :=
  match type of H with
  | ?r = Err ?e => cut (no_error r); [intros Hne; exact (Hne e H)|clear H]
  end.

Lemma int_div_no_error (a b : Z) : no_error (int_div a b).
Proof. unfold int_div. no_err. Qed.

Lemma int_rem_no_error (a b : Z) : no_error (int_rem a b).
Proof. unfold int_rem. no_err. Qed.

Lemma store2_no_error {A : Type} (s : list (list A)) (i j : Z) (v : A) :
  no_error (store2 s i j v).
Proof. unfold store2. no_err. Qed.

Lemma readSampleFromData_no_error (data : Bytes) (i : Z) (h : WavHeader) :
  no_error (readSampleFromData data i h).
Proof. unfold readSampleFromData. no_err. Qed.

Lemma setupWithHeaderData_Err_inv (wh : WavHeader) (h : Bytes) (e : error) :
  setupWithHeaderData wh h = Err e -> checkHeader h (DataMarkerOffset wh) = Err e.
Proof.
  unfold setupWithHeaderData. intros Herr.
  apply bind_Err_inv in Herr as [Herr|(u & _ & Herr)]; [exact Herr|].
  exfalso. refute_error Herr.
  no_err. apply int_div_no_error.
Qed.

Lemma decodeAt_Err_inv (bytes : Bytes) (off : Z) (e : error) :
  decodeAt bytes off = Err e -> checkHeader bytes off = Err e.
Proof.
  unfold decodeAt. intros Herr.
  apply bind_Err_inv in Herr as [Herr|(hdr & _ & Herr)].
  { apply setupWithHeaderData_Err_inv in Herr. exact Herr. }
  exfalso. refute_error Herr.
  no_err; first [apply store2_no_error | apply readSampleFromData_no_error].
Qed.

(** ** The header a decode carries *)

Lemma setupWithHeaderData_offset (wh hdr : WavHeader) (h : Bytes) :
  setupWithHeaderData wh h = Ok hdr -> DataMarkerOffset hdr = DataMarkerOffset wh.
Proof.
  unfold setupWithHeaderData. intros Hok.
  repeat (apply bind_Ok_inv in Hok as (? & _ & Hok)).
  injection Hok as <-. reflexivity.
Qed.

(** The frame loop of the bulk decoder rewrites the sample tables and
    leaves the header alone. *)
Lemma frame_loop_header (hdr : WavHeader) (data : Bytes) (n c : nat)
    (put : Wav -> Z -> Z -> Z -> result Wav) (wav wav' : Wav) :
  (forall w i ch v w', put w i ch v = Ok w' -> header w' = header w) ->
  for_range 0 n
    (fun i wav =>
       sample ← readSampleFromData data i (header wav);
       generic ← store (Data wav) i sample;
       for_range 0 c
         (fun ch wav => v ← load sample ch; put wav i ch v)
         (withData wav generic))
    wav = Ok wav' ->
  header wav' = header wav.
Proof.
  intros Hput Hrun.
  apply (for_range_partial (fun _ w => header w = header wav)) in Hrun;
    [exact Hrun|reflexivity|].
  intros k w w1 _ Hw Hbody.
  apply bind_Ok_inv in Hbody as (sample & _ & Hbody).
  apply bind_Ok_inv in Hbody as (generic & _ & Hbody).
  apply (for_range_partial (fun _ w' => header w' = header wav)) in Hbody;
    [exact Hbody|exact Hw|].
  intros j w2 w3 _ Hw2 Hinner.
  apply bind_Ok_inv in Hinner as (v & _ & Hinner).
  rewrite (Hput _ _ _ _ _ Hinner). exact Hw2.
Qed.

Lemma decodeAt_header (bytes : Bytes) (off : Z) (w : Wav) :
  decodeAt bytes off = Ok w ->
  setupWithHeaderData (mkWavHeader 0 0 0 0 0 0 0 0 off) bytes = Ok (header w).
Proof.
  unfold decodeAt. intros Hok.
  apply bind_Ok_inv in Hok as (hdr & Hhdr & Hok). rewrite Hhdr. f_equal.
  apply bind_Ok_inv in Hok as (data & _ & Hok).
  apply bind_Ok_inv in Hok as (generic & _ & Hok).
  destruct (decide (BitsPerSample hdr = 8)) as [H8|H8];
    [|destruct (decide (BitsPerSample hdr = 16)) as [H16|H16]].
  - apply bind_Ok_inv in Hok as (d0 & _ & Hok).
    apply bind_Ok_inv in Hok as (d8 & _ & Hok).
    apply (frame_loop_header hdr data _ _
             (fun wav i ch v =>
                d8 ← store2 (rows (Data8 wav)) i ch (wrap8 v);
                Ok (withData8 wav d8))) in Hok.
    + rewrite Hok. reflexivity.
    + intros w0 i ch v w' Hput.
      apply bind_Ok_inv in Hput as (d & _ & Hput). injection Hput as <-. reflexivity.
  - apply bind_Ok_inv in Hok as (d0 & _ & Hok).
    apply bind_Ok_inv in Hok as (d16 & _ & Hok).
    apply (frame_loop_header hdr data _ _
             (fun wav i ch v =>
                d16 ← store2 (rows (Data16 wav)) i ch (int16 v);
                Ok (withData16 wav d16))) in Hok.
    + rewrite Hok. reflexivity.
    + intros w0 i ch v w' Hput.
      apply bind_Ok_inv in Hput as (d & _ & Hput). injection Hput as <-. reflexivity.
  - injection Hok as <-. reflexivity.
Qed.

(** ** Parsing a validated header *)

Lemma bLEtoUint16_Ok_inv (b : Bytes) (idx v : Z) :
  bLEtoUint16 b idx = Ok v -> 0 <= v < 65536.
Proof.
  unfold bLEtoUint16. intros Hv.
  repeat (apply bind_Ok_inv in Hv as (? & _ & Hv)).
  injection Hv as <-. apply wrap16_range.
Qed.

Lemma bLEtoUint32_Ok_inv (b : Bytes) (idx v : Z) :
  bLEtoUint32 b idx = Ok v -> 0 <= v < 4294967296.
Proof.
  unfold bLEtoUint32. intros Hv.
  repeat (apply bind_Ok_inv in Hv as (? & _ & Hv)).
  injection Hv as <-. apply wrap32_range.
Qed.

Lemma int_div_Ok_inv (a b q : Z) :
  int_div a b = Ok q -> b <> 0 /\ q = Z.quot a b.
Proof.
  unfold int_div. destruct (decide (b = 0)); [discriminate|].
  intros [= <-]. auto.
Qed.

(** The fields a successful header parse read, and the frame count it
    derived from them. *)
Lemma setupWithHeaderData_Ok_inv (wh hdr : WavHeader) (h : Bytes) :
  setupWithHeaderData wh h = Ok hdr ->
  checkHeader h (DataMarkerOffset wh) = Ok tt /\
  bLEtoUint16 h NumChannelsOffset = Ok (NumChannels hdr) /\
  bLEtoUint16 h BlockAlignOffset = Ok (BlockAlign hdr) /\
  bLEtoUint16 h BitsPerSampleOffset = Ok (BitsPerSample hdr) /\
  bLEtoUint32 h (DataMarkerOffset wh + 4) = Ok (ChunkSize hdr) /\
  BlockAlign hdr <> 0 /\
  NumSamples hdr = Z.quot (ChunkSize hdr) (BlockAlign hdr) /\
  DataMarkerOffset hdr = DataMarkerOffset wh.
Proof.
  unfold setupWithHeaderData. intros Hok.
  apply bind_Ok_inv in Hok as ([] & Hck & Hok).
  apply bind_Ok_inv in Hok as (af & Haf & Hok).
  apply bind_Ok_inv in Hok as (nc & Hnc & Hok).
  apply bind_Ok_inv in Hok as (sr & Hsr & Hok).
  apply bind_Ok_inv in Hok as (br & Hbr & Hok).
  apply bind_Ok_inv in Hok as (ba & Hba & Hok).
  apply bind_Ok_inv in Hok as (bits & Hbits & Hok).
  apply bind_Ok_inv in Hok as (cs & Hcs & Hok).
  apply bind_Ok_inv in Hok as (n & Hn & Hok).
  injection Hok as <-. simpl.
  apply int_div_Ok_inv in Hn as [Hne ->]. auto 10.
Qed.

(** With the fixed-offset fields and the chunk size inside the buffer, a
    validated header parses up to the division by the block alignment. *)
Lemma setupWithHeaderData_fields (wh : WavHeader) (h : Bytes) :
  checkHeader h (DataMarkerOffset wh) = Ok tt ->
  36 <= len h -> DataMarkerOffset wh + 8 <= len h ->
  exists af nc sr br ba bits cs,
    bLEtoUint16 h NumChannelsOffset = Ok nc /\
    bLEtoUint16 h BlockAlignOffset = Ok ba /\
    bLEtoUint16 h BitsPerSampleOffset = Ok bits /\
    bLEtoUint32 h (DataMarkerOffset wh + 4) = Ok cs /\
    0 <= nc < 65536 /\ 0 <= ba < 65536 /\ 0 <= cs < 4294967296 /\
    setupWithHeaderData wh h =
      (numSamples ← int_div cs ba;
       Ok (mkWavHeader af nc sr br ba bits cs numSamples (DataMarkerOffset wh))).
Proof.
  intros Hck Hlen Hoff.
  assert (0 <= DataMarkerOffset wh) as Hpos.
  { apply checkHeader_Ok_inv in Hck as (_ & _ & _ & (H0 & _)). exact H0. }
  unfold setupWithHeaderData. rewrite Hck. simpl.
  unfold AudioFormatOffset, NumChannelsOffset, SampleRateOffset, ByteRateOffset,
    BlockAlignOffset, BitsPerSampleOffset.
  destruct (bLEtoUint16_Ok h 20) as (af & -> & _); [lia..|].
  destruct (bLEtoUint16_Ok h 22) as (nc & -> & Hnc); [lia..|].
  destruct (bLEtoUint32_Ok h 24) as (sr & -> & _); [lia..|].
  destruct (bLEtoUint32_Ok h 28) as (br & -> & _); [lia..|].
  destruct (bLEtoUint16_Ok h 32) as (ba & -> & Hba); [lia..|].
  destruct (bLEtoUint16_Ok h 34) as (bits & -> & _); [lia..|].
  destruct (bLEtoUint32_Ok h (DataMarkerOffset wh + 4)) as (cs & -> & Hcs); [lia..|].
  simpl. exists af, nc, sr, br, ba, bits, cs. auto 10.
Qed.

(** Truncated division is floor division on the values of the header. *)
Lemma frame_count_floor (cs ba : Z) :
  0 <= cs -> 0 < ba ->
  Z.quot cs ba = cs / ba /\ 0 <= Z.quot cs ba /\ Z.quot cs ba * ba <= cs.
Proof.
  intros Hcs Hba. rewrite Z.quot_div_nonneg by lia.
  split; [reflexivity|]. split; [apply Z.div_pos; lia|].
  rewrite Z.mul_comm. apply Z.mul_div_le. lia.
Qed.

(** ** Spare capacity

    Where a decode of a buffer without spare capacity returns, a decode of
    the same bytes with any spare capacity behind them returns the same. *)

Lemma reslice_spare (l sp : list byte) (lo hi : Z) (s : Bytes) :
  reslice (exact l) lo hi = Ok s ->
  exists s', reslice (mkBytes l sp) lo hi = Ok s' /\ elems s' = elems s.
Proof.
  unfold reslice, cap, backing, exact; simpl. rewrite app_nil_r.
  destruct (decide (0 <= lo /\ lo <= hi /\ hi <= Z.of_nat (length l)))
    as [Hb|Hb]; [|discriminate].
  intros [= <-]. rewrite decide_True by (rewrite length_app; lia).
  eexists; split; [reflexivity|]. simpl.
  rewrite drop_app_le by lia.
  rewrite take_app_le by (rewrite length_drop; lia). reflexivity.
Qed.

Lemma reslice_Ok_or_Panic (b : Bytes) (lo hi : Z) :
  (exists s, reslice b lo hi = Ok s) \/ reslice b lo hi = Panic SliceBoundsOutOfRange.
Proof. unfold reslice. destruct (decide _); eauto. Qed.

Ltac spare_step l sp lo hi :=
  let s := fresh "s" in
  let s' := fresh "s'" in
  let Hs := fresh "Hs" in
  let Hs' := fresh "Hs'" in
  let He := fresh "He" in
  destruct (reslice_Ok_or_Panic (exact l) lo hi) as [[s Hs]|Hs];
  [destruct (reslice_spare l sp lo hi s Hs) as (s' & Hs' & He);
   rewrite Hs, Hs'; simpl; rewrite He
  |rewrite Hs; simpl; intros <- Hnp; destruct (Hnp _ eq_refl)].

Lemma checkHeader_spare (l sp : list byte) (off : Z) (r : result unit) :
  checkHeader (exact l) off = r -> (forall p, r <> Panic p) ->
  checkHeader (mkBytes l sp) off = r.
Proof.
  unfold checkHeader.
  spare_step l sp 0 4. destruct (decide _); [intros <- _; reflexivity|].
  spare_step l sp 8 12. destruct (decide _); [intros <- _; reflexivity|].
  spare_step l sp 12 16. destruct (decide _); [intros <- _; reflexivity|].
  spare_step l sp off (off + 4). destruct (decide _); intros <- _; reflexivity.
Qed.

Lemma setupWithHeaderData_spare (wh : WavHeader) (l sp : list byte)
    (r : result WavHeader) :
  setupWithHeaderData wh (exact l) = r -> (forall p, r <> Panic p) ->
  setupWithHeaderData wh (mkBytes l sp) = r.
Proof.
  unfold setupWithHeaderData.
  destruct (checkHeader (exact l) (DataMarkerOffset wh)) as [[]|e|p] eqn:Hck.
  - rewrite (checkHeader_spare l sp _ _ Hck) by discriminate.
    intros <- _. reflexivity.
  - rewrite (checkHeader_spare l sp _ _ Hck) by discriminate.
    intros <- _. reflexivity.
  - simpl. intros <- Hnp. destruct (Hnp _ eq_refl).
Qed.

Lemma decodeAt_spare (l sp : list byte) (off : Z) (r : result Wav) :
  decodeAt (exact l) off = r -> (forall p, r <> Panic p) ->
  decodeAt (mkBytes l sp) off = r.
Proof.
  unfold decodeAt.
  destruct (setupWithHeaderData (mkWavHeader 0 0 0 0 0 0 0 0 off) (exact l))
    as [hdr|e|p] eqn:Hhdr.
  - rewrite (setupWithHeaderData_spare _ l sp _ Hhdr) by discriminate. simpl.
    destruct (reslice_Ok_or_Panic (exact l) (off + 8) (ChunkSize hdr + off + 8))
      as [[data Hd]|Hd].
    + destruct (reslice_spare l sp _ _ data Hd) as (data' & Hd' & He).
      rewrite Hd, Hd'. simpl. intros <- _.
      destruct data as [del dsp], data' as [del' dsp']. simpl in He. subst del'.
      reflexivity.
    + rewrite Hd. simpl. intros <- Hnp. destruct (Hnp _ eq_refl).
  - rewrite (setupWithHeaderData_spare _ l sp _ Hhdr) by discriminate.
    intros <- _. reflexivity.
  - simpl. intros <- Hnp. destruct (Hnp _ eq_refl).
Qed.

Lemma ReadWav_spare (l sp : list byte) (r : result Wav) :
  ReadWav (ReadAllBytes (exact l)) = r -> (forall p, r <> Panic p) ->
  ReadWav (ReadAllBytes (mkBytes l sp)) = r.
Proof.
  unfold ReadWav. change (getDataMarkerOffset (mkBytes l sp))
    with (getDataMarkerOffset (exact l)).
  destruct (decide _); [intros <- _; reflexivity|].
  apply decodeAt_spare.
Qed.

(** ** Bulk decode of a validated buffer *)

Lemma ReadWav_found (bytes : Bytes) (off : Z) :
  getDataMarkerOffset bytes = off -> off <> -1 ->
  ReadWav (ReadAllBytes bytes) = decodeAt bytes off.
Proof.
  intros Hoff Hne. unfold ReadWav. rewrite Hoff.
  rewrite decide_False by exact Hne. reflexivity.
Qed.

Lemma decodeAt_zero_block_align (bytes : Bytes) (off : Z) :
  checkHeader bytes off = Ok tt ->
  36 <= len bytes -> off + 8 <= len bytes ->
  bLEtoUint16 bytes BlockAlignOffset = Ok 0 ->
  decodeAt bytes off = Panic IntegerDivideByZero.
Proof.
  intros Hck Hlen Hoff Hba. unfold decodeAt.
  destruct (setupWithHeaderData_fields (mkWavHeader 0 0 0 0 0 0 0 0 off) bytes
              Hck Hlen Hoff)
    as (af & nc & sr & br & ba & bits & cs & _ & Hba' & _ & _ & _ & _ & _ & ->).
  rewrite Hba in Hba'. injection Hba' as <-. reflexivity.
Qed.

Lemma decodeAt_payload_out_of_bounds (bytes : Bytes) (off ba cs : Z) :
  checkHeader bytes off = Ok tt ->
  36 <= len bytes -> off + 8 <= len bytes ->
  bLEtoUint16 bytes BlockAlignOffset = Ok ba -> ba <> 0 ->
  bLEtoUint32 bytes (off + 4) = Ok cs -> cap bytes < off + 8 + cs ->
  decodeAt bytes off = Panic SliceBoundsOutOfRange.
Proof.
  intros Hck Hlen Hoff Hba Hne Hcs Hcap. unfold decodeAt.
  destruct (setupWithHeaderData_fields (mkWavHeader 0 0 0 0 0 0 0 0 off) bytes
              Hck Hlen Hoff)
    as (af & nc & sr & br & ba' & bits & cs' & _ & Hba' & _ & Hcs' & _ & _ & _ & ->).
  simpl in Hcs'. rewrite Hba in Hba'. rewrite Hcs in Hcs'.
  injection Hba' as <-. injection Hcs' as <-.
  unfold int_div. rewrite decide_False by exact Hne. simpl.
  unfold reslice. rewrite decide_False by lia. reflexivity.
Qed.

Lemma decodeAt_unsupported_depth (bytes : Bytes) (off ba bits cs : Z) :
  checkHeader bytes off = Ok tt ->
  36 <= len bytes -> off + 8 <= len bytes ->
  bLEtoUint16 bytes BitsPerSampleOffset = Ok bits -> bits <> 8 -> bits <> 16 ->
  bLEtoUint16 bytes BlockAlignOffset = Ok ba -> ba <> 0 ->
  bLEtoUint32 bytes (off + 4) = Ok cs -> off + 8 + cs <= cap bytes ->
  exists hdr,
    decodeAt bytes off =
      Ok (mkWav hdr None None (replicate (Z.to_nat (NumSamples hdr)) [])) /\
    NumSamples hdr = cs / ba /\ BitsPerSample hdr = bits /\
    BlockAlign hdr = ba /\ ChunkSize hdr = cs.
Proof.
  intros Hck Hlen Hoff Hbits H8 H16 Hba Hne Hcs Hcap. unfold decodeAt.
  assert (0 <= off) as Hpos.
  { apply checkHeader_Ok_inv in Hck as (_ & _ & _ & (H0 & _)). exact H0. }
  destruct (setupWithHeaderData_fields (mkWavHeader 0 0 0 0 0 0 0 0 off) bytes
              Hck Hlen Hoff)
    as (af & nc & sr & br & ba' & bits' & cs' & _ & Hba' & Hbits' & Hcs' & _ & Rba
        & Rcs & ->).
  simpl in Hcs'. rewrite Hba in Hba'. rewrite Hcs in Hcs'. rewrite Hbits in Hbits'.
  injection Hba' as <-. injection Hcs' as <-. injection Hbits' as <-.
  destruct (frame_count_floor cs ba) as (Hq & Hq0 & _); [lia..|].
  unfold int_div. rewrite decide_False by exact Hne. simpl.
  unfold reslice. rewrite decide_True by lia. simpl.
  rewrite (make_slice_Ok (Z.quot cs ba)) by exact Hq0. simpl.
  rewrite (decide_False (P := bits = 8)) by exact H8.
  rewrite (decide_False (P := bits = 16)) by exact H16.
  exists (mkWavHeader af nc sr br ba bits cs (Z.quot cs ba) off).
  split; [reflexivity|]. simpl. auto.
Qed.

(** ** Per-frame decode *)

Lemma make_slice_Ok_inv {A : Type} (n : Z) (z : A) (s : list A) :
  make_slice n z = Ok s -> 0 <= n /\ s = replicate (Z.to_nat n) z.
Proof.
  unfold make_slice. destruct (decide (0 <= n)); [|discriminate].
  intros [= <-]. auto.
Qed.

Lemma readSampleFromData_Ok_inv (data : Bytes) (i : Z) (h : WavHeader)
    (s : list Z) :
  readSampleFromData data i h = Ok s ->
  length s = Z.to_nat (NumChannels h) /\
  forall c, (c < Z.to_nat (NumChannels h))%nat ->
    exists x, s !! c = Some x /\ slot_of data i h c x.
Proof.
  unfold readSampleFromData. intros Hok.
  apply bind_Ok_inv in Hok as (s0 & Hs0 & Hok).
  apply make_slice_Ok_inv in Hs0 as [Hc ->].
  set (n := Z.to_nat (NumChannels h)) in *.
  apply (for_range_partial
           (fun k s => length s = n /\
              (forall c, (c < k)%nat -> (c < n)%nat ->
                 exists x, s !! c = Some x /\ slot_of data i h c x) /\
              (forall c, (k <= c < n)%nat -> s !! c = Some 0))) in Hok.
  - destruct Hok as (Hlen & Hslots & _). split; [exact Hlen|].
    intros c Hcn. apply Hslots; lia.
  - split; [apply length_replicate|]. split; [lia|].
    intros c Hcn. apply lookup_replicate_2. lia.
  - intros k s1 s2 Hk (Hlen & Hslots & Hzero) Hbody. rewrite Z.add_0_l in Hbody.
    destruct (decide (BitsPerSample h = 8)) as [H8|H8];
      [|destruct (decide (BitsPerSample h = 16)) as [H16|H16]].
    + apply bind_Ok_inv in Hbody as (b & Hb & Hst).
      apply store_Ok_inv in Hst as [_ ->]. rewrite Nat2Z.id.
      split; [rewrite length_insert; exact Hlen|]. split.
      * intros c Hck Hcn. destruct (decide (c = k)) as [->|Hne].
        -- exists (byte_val b). split; [apply list_lookup_insert_eq; lia|].
           split; [eauto|]. split; [lia|contradiction].
        -- rewrite list_lookup_insert_ne by lia. apply Hslots; lia.
      * intros c Hcn. rewrite list_lookup_insert_ne by lia. apply Hzero. lia.
    + apply bind_Ok_inv in Hbody as (v & Hv & Hst).
      apply store_Ok_inv in Hst as [_ ->]. rewrite Nat2Z.id.
      split; [rewrite length_insert; exact Hlen|]. split.
      * intros c Hck Hcn. destruct (decide (c = k)) as [->|Hne].
        -- exists v. split; [apply list_lookup_insert_eq; lia|].
           split; [lia|]. split; [auto|contradiction].
        -- rewrite list_lookup_insert_ne by lia. apply Hslots; lia.
      * intros c Hcn. rewrite list_lookup_insert_ne by lia. apply Hzero. lia.
    + injection Hbody as <-. split; [exact Hlen|]. split.
      * intros c Hck Hcn. destruct (decide (c = k)) as [->|Hne].
        -- exists 0. split; [apply Hzero; lia|].
           split; [contradiction|]. split; [contradiction|auto].
        -- apply Hslots; lia.
      * intros c Hcn. apply Hzero. lia.
Qed.

(** A frame is decoded whenever the bytes it reads are inside the data. *)
Lemma readSampleFromData_total (data : Bytes) (i : Z) (h : WavHeader) :
  0 <= NumChannels h ->
  (BitsPerSample h = 8 -> forall c, 0 <= c < NumChannels h ->
     0 <= i * NumChannels h + c < len data) ->
  (BitsPerSample h = 16 -> forall c, 0 <= c < NumChannels h ->
     0 <= 2 * i * NumChannels h + c /\ 2 * i * NumChannels h + c + 2 <= len data) ->
  exists s, readSampleFromData data i h = Ok s.
Proof.
  intros Hc H8 H16. unfold readSampleFromData.
  rewrite make_slice_Ok by exact Hc. simpl.
  set (n := Z.to_nat (NumChannels h)).
  destruct (for_range_total (fun _ s => length s = n)
              (fun channelIdx sample =>
                 if decide (BitsPerSample h = 8) then
                   b ← index data (i * NumChannels h + channelIdx);
                   store sample channelIdx (byte_val b)
                 else if decide (BitsPerSample h = 16) then
                   v ← bLEtoInt16 data (2 * i * NumChannels h + channelIdx);
                   store sample channelIdx v
                 else Ok sample)
              0 n (replicate n 0)) as (s & Hs & _).
  - apply length_replicate.
  - intros k s Hk Hlen. rewrite Z.add_0_l.
    destruct (decide (BitsPerSample h = 8)) as [E8|E8];
      [|destruct (decide (BitsPerSample h = 16)) as [E16|E16]].
    + destruct (index_Ok data (i * NumChannels h + Z.of_nat k)) as (b & -> & _).
      { apply H8; [exact E8|lia]. }
      simpl. rewrite store_Ok by lia. eexists; split; [reflexivity|].
      rewrite length_insert. exact Hlen.
    + destruct (bLEtoInt16_Ok data (2 * i * NumChannels h + Z.of_nat k))
        as (v & -> & _).
      { apply H16; [exact E16|lia]. }
      { apply H16; [exact E16|lia]. }
      simpl. rewrite store_Ok by lia. eexists; split; [reflexivity|].
      rewrite length_insert. exact Hlen.
    + eauto.
  - eauto.
Qed.

(** Frames of a supported depth hold values of a 16-bit sample. *)
Lemma readSampleFromData_range (data : Bytes) (i : Z) (h : WavHeader)
    (s : list Z) :
  readSampleFromData data i h = Ok s ->
  BitsPerSample h = 8 \/ BitsPerSample h = 16 ->
  length s = Z.to_nat (NumChannels h) /\
  Forall (fun v => -32768 <= v <= 32767) s.
Proof.
  intros Hok Hbits. apply readSampleFromData_Ok_inv in Hok as [Hlen Hslots].
  split; [exact Hlen|]. apply Forall_lookup. intros c x Hx.
  pose proof (lookup_lt_Some _ _ _ Hx) as Hc.
  destruct (Hslots c ltac:(lia)) as (x' & Hx' & (S8 & S16 & _)).
  rewrite Hx in Hx'. injection Hx' as <-.
  destruct Hbits as [E|E].
  - destruct (S8 E) as (b & _ & ->). pose proof (byte_val_range b). lia.
  - apply (bLEtoInt16_Ok_inv _ _ _ (S16 E)).
Qed.

(** ** Streaming pull *)

Lemma int64_small (z : Z) : - 2 ^ 63 <= z < 2 ^ 63 -> int64 z = z.
Proof. intros Hz. unfold int64. rewrite Z.mod_small by lia. lia. Qed.

Lemma callRead_spec {R : Type} `{Reader R} (r r' : R) (p p' : Bytes)
    (n : Z) (e : option error) :
  callRead r p = (n, p', e, r') ->
  0 <= n <= len p /\ len p' = len p.
Proof.
  unfold callRead. destruct (Read r (length (elems p))) as [[chunk e0] r0].
  intros [= <- <- <- <-]. unfold len; simpl.
  rewrite length_app, length_drop, !length_take. lia.
Qed.

Lemma index_take (data : Bytes) (m : nat) (x : Z) :
  (m <= length (elems data))%nat -> 0 <= x < Z.of_nat m ->
  index (exact (take m (elems data))) x = index data x.
Proof.
  intros Hm Hx. unfold index, len, exact; simpl.
  rewrite length_take_le by exact Hm.
  rewrite decide_True by exact Hx. rewrite decide_True by lia.
  rewrite lookup_take_lt by lia. reflexivity.
Qed.

Lemma bLEtoInt16_take (data : Bytes) (m : nat) (x : Z) :
  (m <= length (elems data))%nat -> 0 <= x -> x + 2 <= Z.of_nat m ->
  bLEtoInt16 (exact (take m (elems data))) x = bLEtoInt16 data x.
Proof.
  intros Hm H0 H1. unfold bLEtoInt16.
  rewrite !index_take by (first [exact Hm|lia]). reflexivity.
Qed.

(** A frame whose bytes lie within the first [m] bytes of the data is the
    frame decoded from those [m] bytes alone. *)
Lemma readSampleFromData_prefix (data : Bytes) (m : nat) (i : Z) (h : WavHeader) :
  (m <= length (elems data))%nat ->
  (BitsPerSample h = 8 -> forall c, 0 <= c < NumChannels h ->
     0 <= i * NumChannels h + c < Z.of_nat m) ->
  (BitsPerSample h = 16 -> forall c, 0 <= c < NumChannels h ->
     0 <= 2 * i * NumChannels h + c /\
     2 * i * NumChannels h + c + 2 <= Z.of_nat m) ->
  readSampleFromData (exact (take m (elems data))) i h =
  readSampleFromData data i h.
Proof.
  intros Hm H8 H16. unfold readSampleFromData.
  destruct (make_slice (NumChannels h) 0) as [s0| |]; simpl; try reflexivity.
  apply for_range_ext. intros k s Hk. rewrite Z.add_0_l.
  destruct (decide (BitsPerSample h = 8)) as [E8|E8];
    [|destruct (decide (BitsPerSample h = 16)) as [E16|E16]].
  - rewrite index_take; [reflexivity|exact Hm|]. apply H8; [exact E8|lia].
  - rewrite bLEtoInt16_take; [reflexivity|exact Hm|..]; apply H16; first [exact E16|lia].
  - reflexivity.
Qed.

Section Pull.
Context {R : Type} `{Reader R}.
Variable wav : StreamedWav R.

Let hdr := sheader wav.

Hypothesis align_pos : 0 < BlockAlign hdr.
Hypothesis channels_nonneg : 0 <= NumChannels hdr.
Hypothesis frame_fits :
  NumChannels hdr * sampleWidth (BitsPerSample hdr) <= BlockAlign hdr.

Lemma decodeBatch_misaligned (data : Bytes) (amountRead : Z) :
  ~ (BlockAlign hdr | amountRead) ->
  decodeBatch wav data amountRead =
    Err (errors_New "wav: Read an invalid amount of data").
Proof.
  intros Hnd. unfold decodeBatch, int_rem. fold hdr.
  rewrite decide_False by lia. simpl.
  rewrite decide_True; [reflexivity|].
  intros Hr. apply Hnd. apply Z.rem_divide; [lia|exact Hr].
Qed.

Lemma frame_bytes_8 (amountRead k c : Z) :
  BitsPerSample hdr = 8 ->
  0 <= k -> (k + 1) * BlockAlign hdr <= amountRead ->
  0 <= c < NumChannels hdr ->
  0 <= k * NumChannels hdr + c < amountRead.
Proof.
  intros E Hk Hfit Hc. revert frame_fits. unfold sampleWidth. rewrite E.
  rewrite decide_True by reflexivity. intros Hw. nia.
Qed.

Lemma frame_bytes_16 (amountRead k c : Z) :
  BitsPerSample hdr = 16 ->
  0 <= k -> (k + 1) * BlockAlign hdr <= amountRead ->
  0 <= c < NumChannels hdr ->
  0 <= 2 * k * NumChannels hdr + c /\
  2 * k * NumChannels hdr + c + 2 <= amountRead.
Proof.
  intros E Hk Hfit Hc. revert frame_fits. unfold sampleWidth. rewrite E.
  rewrite decide_False by discriminate. rewrite decide_True by reflexivity.
  intros Hw. nia.
Qed.

Lemma decodeBatch_aligned (data : Bytes) (amountRead : Z) :
  0 <= amountRead <= len data ->
  (BlockAlign hdr | amountRead) ->
  exists frames,
    decodeBatch wav data amountRead = Ok frames /\
    Z.of_nat (length frames) = amountRead / BlockAlign hdr /\
    forall i frame, frames !! i = Some frame ->
      readSampleFromData (exact (take (Z.to_nat amountRead) (elems data)))
        (Z.of_nat i) hdr = Ok frame.
Proof.
  intros Hread Hdiv. unfold decodeBatch, int_rem, int_div. fold hdr.
  rewrite !decide_False by lia. simpl.
  rewrite decide_False
    by (intros Hne; apply Hne; apply Z.rem_divide; [lia|exact Hdiv]).
  destruct (frame_count_floor amountRead (BlockAlign hdr)) as (Hq & Hq0 & _);
    [lia..|].
  rewrite Hq in *. set (n := amountRead / BlockAlign hdr) in *.
  assert (n * BlockAlign hdr = amountRead) as Hexact.
  { destruct Hdiv as [q ->]. unfold n. rewrite Z.div_mul by lia. reflexivity. }
  rewrite make_slice_Ok by exact Hq0. simpl.
  set (got := exact (take (Z.to_nat amountRead) (elems data))).
  assert (Z.to_nat amountRead <= length (elems data))%nat as Hm
    by (unfold len in Hread; lia).
  destruct (for_range_total
              (fun k s => length s = Z.to_nat n /\
                 forall i frame, (i < k)%nat -> s !! i = Some frame ->
                   readSampleFromData got (Z.of_nat i) hdr = Ok frame)
              (fun sampleIndex samples =>
                 sample ← readSampleFromData data sampleIndex hdr;
                 store samples sampleIndex sample)
              0 (Z.to_nat n) (replicate (Z.to_nat n) []))
    as (frames & Hrun & Hlen & Hframes).
  - split; [apply length_replicate|]. intros i frame Hi. lia.
  - intros k s Hk (Hlen & Hframes). rewrite Z.add_0_l.
    assert ((Z.of_nat k + 1) * BlockAlign hdr <= amountRead) as Hfit by nia.
    destruct (readSampleFromData_total got (Z.of_nat k) hdr) as (frame & Hframe).
    + exact channels_nonneg.
    + intros E c Hc. unfold got, len, exact; simpl. rewrite length_take_le by exact Hm.
      rewrite Z2Nat.id by lia.
      apply (frame_bytes_8 amountRead (Z.of_nat k) c E); [lia|exact Hfit|exact Hc].
    + intros E c Hc. unfold got, len, exact; simpl. rewrite length_take_le by exact Hm.
      rewrite Z2Nat.id by lia.
      apply (frame_bytes_16 amountRead (Z.of_nat k) c E); [lia|exact Hfit|exact Hc].
    + assert (readSampleFromData data (Z.of_nat k) hdr = Ok frame) as Hdata.
      { rewrite <- Hframe. symmetry. apply readSampleFromData_prefix.
        - exact Hm.
        - intros E c Hc. rewrite Z2Nat.id by lia.
          apply (frame_bytes_8 amountRead (Z.of_nat k) c E); [lia|exact Hfit|exact Hc].
        - intros E c Hc. rewrite Z2Nat.id by lia.
          apply (frame_bytes_16 amountRead (Z.of_nat k) c E); [lia|exact Hfit|exact Hc]. }
      rewrite Hdata. simpl. rewrite store_Ok by lia. rewrite Nat2Z.id.
      eexists; split; [reflexivity|]. split; [rewrite length_insert; exact Hlen|].
      intros i fr Hi Hfr. destruct (decide (i = k)) as [->|Hne].
      * rewrite list_lookup_insert_eq in Hfr by lia. injection Hfr as <-.
        exact Hframe.
      * rewrite list_lookup_insert_ne in Hfr by lia. apply (Hframes i); [lia|exact Hfr].
  - exists frames. split; [exact Hrun|]. split; [lia|].
    intros i frame Hfr. apply (Hframes i); [|exact Hfr].
    apply lookup_lt_Some in Hfr. lia.
Qed.
End Pull.

(** ** Stream acquisition *)

(** No block starts with "RIFF" and with "data" at once. *)
Lemma checkHeader_at_zero (h : Bytes) :
  (exists e, checkHeader h 0 = Err e) \/
  (cap h < 16 /\ checkHeader h 0 = Panic SliceBoundsOutOfRange).
Proof.
  destruct (checkHeader_cases h 0)
    as [(_ & E)|[(_ & _ & E)|[(_ & _ & _ & E)|[(_ & _ & _ & _ & E)
       |[((_ & _ & H1) & _ & _ & (_ & _ & H4) & _)|(N & E)]]]]]; eauto.
  - rewrite H1 in H4. discriminate.
  - right. split; [|exact E]. unfold has_marker, in_bounds in N. lia.
Qed.

Lemma setupWithHeaderData_at_zero (h : Bytes) :
  (exists e, setupWithHeaderData zeroHeader h = Err e) \/
  (cap h < 16 /\ setupWithHeaderData zeroHeader h = Panic SliceBoundsOutOfRange).
Proof.
  unfold setupWithHeaderData. simpl.
  destruct (checkHeader_at_zero h) as [[e ->]|[Hcap ->]]; simpl; eauto.
Qed.

Section Acquisition.
Context {R : Type} `{Reader R}.

Lemma scanForData_offset (fuel : nat) (reader reader' : R)
    (stringdata : list byte) (off off' : Z) :
  scanForData fuel reader stringdata off = Some (reader', off') -> off <= off'.
Proof.
  revert reader stringdata off; induction fuel as [|fuel IH];
    intros reader stringdata off; simpl.
  - destruct (Contains _ _); [intros [= _ <-]; lia|discriminate].
  - destruct (Contains _ _); [intros [= _ <-]; lia|].
    destruct (callRead reader (exact [x00])) as [[[n p] e] r1].
    destruct e as [e|]; [intros [= _ <-]; lia|].
    intros Hscan. apply IH in Hscan. lia.
Qed.

(** After the scan: the block of [off + 8] bytes is read and validated
    with the data marker expected at its offset 0. *)
Lemma StreamWav_after_scan (fuel : nat) (reader reader' : R) (off : Z) :
  scanForData fuel reader [] 0 = Some (reader', off) ->
  (exists e, StreamWav fuel (Some reader) = Some (Err e)) \/
  (off < 8 /\ StreamWav fuel (Some reader) = Some (Panic SliceBoundsOutOfRange)).
Proof.
  intros Hscan. unfold StreamWav. rewrite Hscan.
  pose proof (scanForData_offset _ _ _ _ _ _ Hscan) as Hoff.
  unfold make_bytes. rewrite decide_True by lia. simpl.
  destruct (callRead reader' (exact (replicate (Z.to_nat (off + 8)) x00)))
    as [[[n header] err] reader''] eqn:Hread.
  destruct err as [e|]; [eauto|].
  assert (cap header = off + 8) as Hcap.
  { unfold callRead in Hread.
    destruct (Read reader' _) as [[chunk e0] r0]. injection Hread as _ <- _ _.
    unfold cap, backing; simpl. rewrite app_nil_r, length_app, length_drop,
      !length_take, length_replicate. lia. }
  destruct (setupWithHeaderData_at_zero header) as [[e ->]|[Hlt ->]]; simpl.
  - eauto.
  - right. split; [lia|reflexivity].
Qed.
End Acquisition.

(** On an in-memory stream the scan ends within one iteration per byte
    and one more. *)
Lemma scanForData_bytes_terminates (s stringdata : list byte) (off : Z)
    (fuel : nat) :
  (length s < fuel)%nat ->
  exists reader' off', scanForData fuel s stringdata off = Some (reader', off').
Proof.
  revert s stringdata off; induction fuel as [|fuel IH];
    intros s stringdata off Hfuel; [lia|]. simpl.
  destruct (Contains _ _); [eauto|].
  destruct s as [|c s]; simpl; [eauto|].
  apply IH. simpl in Hfuel. rewrite drop_0. lia.
Qed.

(** What the specified pull promises after an aligned read. *)
Lemma pull_as_specified_aligned {R : Type} `{Reader R} (wav : StreamedWav R)
    (N n : Z) (data : Bytes) (r : R) :
  pull_as_specified wav N ->
  callRead (sreader wav)
    (exact (replicate (Z.to_nat (N * BlockAlign (sheader wav))) x00))
    = (n, data, None, r) ->
  (BlockAlign (sheader wav) | n) ->
  exists frames, fst (ReadSamples wav N) = Ok frames.
Proof.
  unfold pull_as_specified. intros Hspec Hread Hdiv. rewrite Hread in Hspec.
  destruct Hspec as [_ Hspec]. destruct (Hspec Hdiv) as (frames & Hf & _).
  eauto.
Qed.

(** ** Conversion to [float64] and halving

    Following [binary_normalize] and [SFdiv] on an integer below 2^53: the
    mantissa is the integer shifted up to 53 bits, and halving lowers the
    exponent by one. *)

Lemma digits2_pos_iter_xO (p k : positive) :
  digits2_pos (Pos.iter xO p k) = (digits2_pos p + k)%positive.
Proof.
  induction k as [|k IH] using Pos.peano_ind.
  - simpl. rewrite Pos.add_1_r. reflexivity.
  - rewrite Pos.iter_succ. simpl. rewrite IH, Pos.add_succ_r. reflexivity.
Qed.

Lemma Zpos_iter_xO (p k : positive) :
  Z.pos (Pos.iter xO p k) = Z.pos p * 2 ^ Z.pos k.
Proof.
  induction k as [|k IH] using Pos.peano_ind.
  - simpl. lia.
  - rewrite Pos.iter_succ, Pos2Z.inj_xO, IH, Pos2Z.inj_succ.
    rewrite Z.pow_succ_r by lia. lia.
Qed.

Lemma digits2_pos_bound (p : positive) :
  2 ^ (Z.pos (digits2_pos p) - 1) <= Z.pos p.
Proof.
  induction p as [p IH|p IH|]; simpl digits2_pos.
  - rewrite Pos2Z.inj_succ.
    replace (Z.succ (Z.pos (digits2_pos p)) - 1)
      with (Z.succ (Z.pos (digits2_pos p) - 1)) by lia.
    rewrite Z.pow_succ_r by lia. lia.
  - rewrite Pos2Z.inj_succ.
    replace (Z.succ (Z.pos (digits2_pos p)) - 1)
      with (Z.succ (Z.pos (digits2_pos p) - 1)) by lia.
    rewrite Z.pow_succ_r by lia. lia.
  - simpl. lia.
Qed.

Lemma digits2_pos_small (p : positive) :
  Z.pos p < 2 ^ 53 -> Z.pos (digits2_pos p) <= 53.
Proof.
  intros Hp. destruct (Z_le_gt_dec (Z.pos (digits2_pos p)) 53) as [Hle|Hgt];
    [exact Hle|exfalso].
  pose proof (digits2_pos_bound p) as Hb.
  assert (2 ^ 53 <= 2 ^ (Z.pos (digits2_pos p) - 1)) by (apply Z.pow_le_mono_r; lia).
  lia.
Qed.

Lemma binary_round_aux_canonical (s : bool) (m : positive) (e : Z) :
  digits2_pos m = 53%positive -> -1074 <= e <= 971 ->
  binary_round_aux 53 1024 s (Z.pos m) e loc_Exact = S754_finite s m e.
Proof.
  intros Hd He. unfold binary_round_aux, shr_fexp. simpl Zdigits2. rewrite Hd.
  assert (fexp 53 1024 (53 + e) - e = 0) as -> by (unfold fexp, emin; lia).
  simpl. rewrite Hd.
  assert (fexp 53 1024 (53 + e) - e = 0) as -> by (unfold fexp, emin; lia).
  simpl. change (1024 - 53) with 971. destruct (Z.leb_spec e 971); [reflexivity|lia].
Qed.

Lemma binary_round_small (s : bool) (p : positive) :
  Z.pos p < 2 ^ 53 ->
  exists m k, 0 <= k <= 52 /\ Z.pos m = Z.pos p * 2 ^ k /\
    digits2_pos m = 53%positive /\
    binary_round 53 1024 s p 0 = S754_finite s m (- k).
Proof.
  intros Hp. pose proof (digits2_pos_small p Hp) as Hd.
  unfold binary_round, shl_align.
  assert (fexp 53 1024 (Z.pos (digits2_pos p) + 0) - 0
          = Z.pos (digits2_pos p) - 53) as Hf by (unfold fexp, emin; lia).
  rewrite Hf.
  destruct (Z.pos (digits2_pos p) - 53) as [|q|q] eqn:Hq; [| lia |].
  - exists p, 0. split; [lia|]. split; [lia|].
    assert (digits2_pos p = 53%positive) as Hd53 by lia.
    split; [exact Hd53|].
    apply binary_round_aux_canonical; [exact Hd53|lia].
  - exists (Pos.iter xO p q), (Z.pos q). split; [lia|].
    split; [apply Zpos_iter_xO|].
    assert (digits2_pos (Pos.iter xO p q) = 53%positive) as Hd53
      by (rewrite digits2_pos_iter_xO; lia).
    split; [exact Hd53|].
    assert (fexp 53 1024 (Z.pos (digits2_pos p) + 0) = Z.neg q) as ->
      by (unfold fexp, emin; lia).
    apply binary_round_aux_canonical; [exact Hd53|lia].
Qed.

Lemma div_eucl_exact (a b q : Z) :
  0 < b -> a = q * b -> Z.div_eucl a b = (q, 0).
Proof.
  intros Hb ->.
  pose proof (Z.div_mul q b ltac:(lia)) as Hdiv.
  pose proof (Z.mod_mul q b ltac:(lia)) as Hmod.
  unfold Z.div, Z.modulo in Hdiv, Hmod.
  destruct (Z.div_eucl (q * b) b) as [q' r']. simpl in Hdiv, Hmod. congruence.
Qed.

Lemma float64_of_int_2 : float64_of_int 2 = S754_finite false 4503599627370496 (-51).
Proof. reflexivity. Qed.

Lemma SFdiv_core_by_two (m : positive) (k : Z) :
  digits2_pos m = 53%positive -> 0 <= k <= 52 ->
  SFdiv_core_binary 53 1024 (Z.pos m) (- k) 4503599627370496 (-51)
  = (Z.pos m~0, - k - 2, loc_Exact).
Proof.
  intros Hd Hk. unfold SFdiv_core_binary. cbv zeta.
  change (Zdigits2 (Z.pos m)) with (Z.pos (digits2_pos m)). rewrite Hd.
  change (Zdigits2 4503599627370496) with 53.
  assert (Z.min (fexp 53 1024 (53 + - k - (53 + -51))) (- k - -51) = - k - 2) as ->
    by (unfold fexp, emin; lia).
  replace (- k - -51 - (- k - 2)) with 53 by lia.
  rewrite (div_eucl_exact (Z.shiftl (Z.pos m) 53) 4503599627370496 (Z.pos m~0)).
  - reflexivity.
  - lia.
  - rewrite Z.shiftl_mul_pow2 by lia. lia.
Qed.

Lemma SFdiv_by_two (s : bool) (m : positive) (k : Z) :
  digits2_pos m = 53%positive -> 0 <= k <= 52 ->
  float64_div (S754_finite s m (- k)) (float64_of_int 2) = S754_finite s m (- k - 1).
Proof.
  intros Hd Hk. rewrite float64_of_int_2. unfold float64_div, SFdiv.
  rewrite (SFdiv_core_by_two m k Hd Hk). rewrite Bool.xorb_false_r.
  unfold binary_round_aux, shr_fexp.
  change (Zdigits2 (Z.pos m~0)) with (Z.pos (Pos.succ (digits2_pos m))). rewrite Hd.
  assert (fexp 53 1024 (Z.pos (Pos.succ 53) + (- k - 2)) - (- k - 2) = 1) as ->
    by (unfold fexp, emin; lia).
  cbn [shr shr_record_of_loc].
  change (SpecFloat.iter_pos shr_1 1 {| shr_m := Z.pos m~0; shr_r := false; shr_s := false |})
    with {| shr_m := Z.pos m; shr_r := false; shr_s := false |}.
  cbn [shr_m loc_of_shr_record round_nearest_even].
  change (Zdigits2 (Z.pos m)) with (Z.pos (digits2_pos m)). rewrite Hd.
  assert (fexp 53 1024 (53 + (- k - 2 + 1)) - (- k - 2 + 1) = 0) as ->
    by (unfold fexp, emin; lia).
  cbn [shr shr_record_of_loc shr_m]. change (1024 - 53) with 971.
  destruct (Z.leb_spec (- k - 2 + 1) 971); [|lia].
  f_equal. lia.
Qed.

Lemma represents_scaled (s : bool) (m : positive) (k z : Z) :
  0 <= k -> (if s then Z.neg m else Z.pos m) = z * 2 ^ k ->
  represents (S754_finite s m (- k)) (inject_Z z) /\
  represents (S754_finite s m (- k - 1)) (z # 2).
Proof.
  intros Hk Hm. unfold represents, float64_val. cbv zeta. rewrite Hm. split.
  - destruct k as [|p|p]; [| |lia]; simpl Z.opp; cbv iota.
    + rewrite Z.pow_0_r, Z.mul_1_r. reflexivity.
    + unfold Qeq, inject_Z. simpl Qnum. simpl Qden.
      rewrite Pos2Z.inj_pow. lia.
  - destruct (- k - 1) as [|p|p] eqn:E; [lia|lia|].
    unfold Qeq. simpl Qnum. simpl Qden. rewrite Pos2Z.inj_pow.
    replace (Z.pos p) with (k + 1) by lia.
    rewrite Z.pow_add_r by lia. lia.
Qed.

Lemma float64_of_int_shape (z : Z) :
  - 2 ^ 53 < z < 2 ^ 53 -> z <> 0 ->
  exists (s : bool) (m : positive) (k : Z), 0 <= k <= 52 /\ digits2_pos m = 53%positive /\
    (if s then Z.neg m else Z.pos m) = z * 2 ^ k /\
    float64_of_int z = S754_finite s m (- k).
Proof.
  intros Hz Hz0. unfold float64_of_int, binary_normalize.
  destruct z as [|p|p]; [contradiction| |].
  - destruct (binary_round_small false p) as (m & k & Hk & Hm & Hd & ->); [lia|].
    exists false, m, k. auto.
  - destruct (binary_round_small true p) as (m & k & Hk & Hm & Hd & ->); [lia|].
    exists true, m, k. repeat split; try assumption; try lia.
Qed.

(** [float64(z)] is exact, and so is its half, for [|z| < 2^53]. *)
Lemma float64_of_int_exact (z : Z) :
  - 2 ^ 53 < z < 2 ^ 53 ->
  represents (float64_of_int z) (inject_Z z) /\
  represents (float64_div (float64_of_int z) (float64_of_int 2)) (z # 2).
Proof.
  intros Hz. destruct (decide (z = 0)) as [->|Hz0].
  - split; reflexivity.
  - destruct (float64_of_int_shape z Hz Hz0) as (s & m & k & Hk & Hd & Hm & ->).
    rewrite (SFdiv_by_two s m k Hd Hk).
    apply represents_scaled; [lia|exact Hm].
Qed.

(** ** Frames of a decoded container *)

Lemma frame_loop_frames (data : Bytes) (n c : nat)
    (put : Wav -> Z -> Z -> Z -> result Wav) (wav wav' : Wav) :
  (forall w i ch v w', put w i ch v = Ok w' ->
     header w' = header w /\ Data w' = Data w) ->
  BitsPerSample (header wav) = 8 \/ BitsPerSample (header wav) = 16 ->
  length (Data wav) = n ->
  for_range 0 n
    (fun i wav =>
       sample ← readSampleFromData data i (header wav);
       generic ← store (Data wav) i sample;
       for_range 0 c
         (fun ch wav => v ← load sample ch; put wav i ch v)
         (withData wav generic))
    wav = Ok wav' ->
  Forall (decoded_frame (header wav)) (Data wav').
Proof.
  intros Hput Hbits Hlen Hrun.
  apply (for_range_partial
           (fun k w => header w = header wav /\ length (Data w) = n /\
              forall j f, (j < k)%nat -> Data w !! j = Some f ->
                decoded_frame (header wav) f)) in Hrun.
  - destruct Hrun as (_ & Hn & Hframes). apply Forall_lookup. intros j f Hf.
    apply (Hframes j); [|exact Hf]. apply lookup_lt_Some in Hf. lia.
  - split; [reflexivity|]. split; [exact Hlen|]. intros j f Hj. lia.
  - intros k w w1 Hk (Hh & Hn & Hframes) Hbody. rewrite Z.add_0_l in Hbody.
    apply bind_Ok_inv in Hbody as (sample & Hsample & Hbody).
    apply bind_Ok_inv in Hbody as (generic & Hgen & Hbody).
    apply store_Ok_inv in Hgen as [_ ->]. rewrite Nat2Z.id in Hbody.
    apply (for_range_partial
             (fun _ w' => header w' = header wav /\
                          Data w' = <[k:=sample]> (Data w))) in Hbody.
    + destruct Hbody as [Hh1 Hd1]. split; [exact Hh1|]. rewrite Hd1.
      split; [rewrite length_insert; exact Hn|].
      intros j f Hj Hf. destruct (decide (j = k)) as [->|Hne].
      * rewrite list_lookup_insert_eq in Hf by lia. injection Hf as <-.
        rewrite Hh in Hsample.
        apply (readSampleFromData_range _ _ _ _ Hsample Hbits).
      * rewrite list_lookup_insert_ne in Hf by lia. apply (Hframes j); [lia|exact Hf].
    + split; [exact Hh|reflexivity].
    + intros j w2 w3 _ [Hh2 Hd2] Hinner.
      apply bind_Ok_inv in Hinner as (v & _ & Hinner).
      destruct (Hput _ _ _ _ _ Hinner) as [-> ->]. auto.
Qed.

Lemma decodeAt_frames (bytes : Bytes) (off : Z) (w : Wav) :
  decodeAt bytes off = Ok w ->
  BitsPerSample (header w) = 8 \/ BitsPerSample (header w) = 16 ->
  Forall (decoded_frame (header w)) (Data w).
Proof.
  intros Hok Hbits. pose proof (decodeAt_header _ _ _ Hok) as Hhdr.
  unfold decodeAt in Hok. rewrite Hhdr in Hok. simpl in Hok.
  set (hdr := header w) in *.
  apply bind_Ok_inv in Hok as (data & _ & Hok).
  apply bind_Ok_inv in Hok as (generic & Hgen & Hok).
  apply make_slice_Ok_inv in Hgen as [Hn ->].
  destruct (decide (BitsPerSample hdr = 8)) as [H8|H8];
    [|destruct (decide (BitsPerSample hdr = 16)) as [H16|H16]].
  - apply bind_Ok_inv in Hok as (d0 & _ & Hok).
    apply bind_Ok_inv in Hok as (d8 & _ & Hok).
    apply (frame_loop_frames data _ _
             (fun wav i ch v =>
                d8 ← store2 (rows (Data8 wav)) i ch (wrap8 v);
                Ok (withData8 wav d8))) in Hok.
    + exact Hok.
    + intros w0 i ch v w' Hput.
      apply bind_Ok_inv in Hput as (d & _ & Hput). injection Hput as <-. auto.
    + exact Hbits.
    + apply length_replicate.
  - apply bind_Ok_inv in Hok as (d0 & _ & Hok).
    apply bind_Ok_inv in Hok as (d16 & _ & Hok).
    apply (frame_loop_frames data _ _
             (fun wav i ch v =>
                d16 ← store2 (rows (Data16 wav)) i ch (int16 v);
                Ok (withData16 wav d16))) in Hok.
    + exact Hok.
    + intros w0 i ch v w' Hput.
      apply bind_Ok_inv in Hput as (d & _ & Hput). injection Hput as <-. auto.
    + exact Hbits.
    + apply length_replicate.
  - tauto.
Qed.

Lemma ReadWav_frames (r : Source) (w : Wav) :
  ReadWav r = Ok w ->
  BitsPerSample (header w) = 8 \/ BitsPerSample (header w) = 16 ->
  Forall (decoded_frame (header w)) (Data w).
Proof.
  destruct r as [|e|bytes]; simpl; try discriminate.
  destruct (decide _); [discriminate|]. apply decodeAt_frames.
Qed.

(** ** Downmix loops *)

(** A loop that stores at index [i] a value made from entry [i] of [D]. *)
Lemma fill_loop {A B : Type} (D : list A) (Q : A -> B -> Prop)
    (body : Z -> list B -> result (list B)) (y0 : list B) :
  length y0 = length D ->
  (forall i f y, D !! i = Some f ->
     exists x, Q f x /\ body (Z.of_nat i) y = store y (Z.of_nat i) x) ->
  exists y, for_range 0 (length D) body y0 = Ok y /\ length y = length D /\
    forall i f, D !! i = Some f -> exists x, y !! i = Some x /\ Q f x.
Proof.
  intros Hlen Hbody.
  destruct (for_range_total
              (fun k y => length y = length D /\
                 forall i f, (i < k)%nat -> D !! i = Some f ->
                   exists x, y !! i = Some x /\ Q f x)
              body 0 (length D) y0) as (y & Hrun & Hy & Hall).
  - split; [exact Hlen|]. intros i f Hi. lia.
  - intros k y Hk (Hy & Hall). rewrite Z.add_0_l.
    destruct (lookup_lt_is_Some_2 D k Hk) as [f Hf].
    destruct (Hbody k f y Hf) as (x & HQ & ->).
    rewrite store_Ok by lia. rewrite Nat2Z.id.
    eexists; split; [reflexivity|]. split; [rewrite length_insert; exact Hy|].
    intros i g Hi Hg. destruct (decide (i = k)) as [->|Hne].
    + rewrite Hf in Hg. injection Hg as <-. exists x.
      split; [apply list_lookup_insert_eq; lia|exact HQ].
    + rewrite list_lookup_insert_ne by lia. apply Hall; [lia|exact Hg].
  - exists y. split; [exact Hrun|]. split; [exact Hy|].
    intros i f Hf. apply Hall; [|exact Hf]. apply lookup_lt_Some in Hf. exact Hf.
Qed.

(** * Specified properties *)

(** C6.  Header validation succeeds if and only if bytes [0,4) of the
    buffer are "RIFF", bytes [8,12) are "WAVE", bytes [12,16) are "fmt " and
    the four bytes at the supplied data-marker offset are "data".  The first
    of these ranges whose bytes differ makes the validation fail with the
    error that names that marker, and no other error is ever returned.  On
    a buffer that holds the four ranges the validation always returns. *)
Theorem checkHeader_validates_markers (h : Bytes) (off : Z) :
  (checkHeader h off = Ok tt <->
     has_marker h 0 "RIFF" /\ has_marker h 8 "WAVE" /\
     has_marker h 12 "fmt " /\ has_marker h off "data") /\
  (mismatch h 0 "RIFF" ->
     checkHeader h off = Err (errors_New "wav: Header does not contain 'RIFF'")) /\
  (has_marker h 0 "RIFF" -> mismatch h 8 "WAVE" ->
     checkHeader h off = Err (errors_New "wav: Header does not contain 'WAVE'")) /\
  (has_marker h 0 "RIFF" -> has_marker h 8 "WAVE" -> mismatch h 12 "fmt " ->
     checkHeader h off = Err (errors_New "wav: Header does not contain 'fmt'")) /\
  (has_marker h 0 "RIFF" -> has_marker h 8 "WAVE" -> has_marker h 12 "fmt " ->
     mismatch h off "data" ->
     checkHeader h off = Err (errors_New "wav: Header does not contain 'data'")) /\
  (forall e, checkHeader h off = Err e ->
     e = errors_New "wav: Header does not contain 'RIFF'" \/
     e = errors_New "wav: Header does not contain 'WAVE'" \/
     e = errors_New "wav: Header does not contain 'fmt'" \/
     e = errors_New "wav: Header does not contain 'data'") /\
  (16 <= cap h -> in_bounds h off ->
     checkHeader h off = Ok tt \/ exists e, checkHeader h off = Err e).
Proof.
  assert (16 <= cap h -> in_bounds h off ->
          checkHeader h off = Ok tt \/ exists e, checkHeader h off = Err e)
    as Hreturns.
  { intros Hcap Hoff.
    destruct (checkHeader_cases h off)
      as [(_ & E)|[(_ & _ & E)|[(_ & _ & _ & E)|[(_ & _ & _ & _ & E)
         |[(_ & _ & _ & _ & E)|(N & _)]]]]]; eauto.
    exfalso. unfold in_bounds in *. intuition lia. }
  split; [split; [apply checkHeader_Ok_inv|]|].
  - intros (H1 & H2 & H3 & H4).
    destruct (checkHeader_cases h off)
      as [(M & _)|[(_ & M & _)|[(_ & _ & M & _)|[(_ & _ & _ & M & _)
         |[(_ & _ & _ & _ & E)|(N & _)]]]]];
      try marker_clash.
    + exact E.
    + pose proof (has_marker_in_bounds h 0 "RIFF").
      pose proof (has_marker_in_bounds h 8 "WAVE").
      pose proof (has_marker_in_bounds h 12 "fmt ").
      pose proof (has_marker_in_bounds h off "data").
      tauto.
  - pose proof (has_marker_not_mismatch h 0 "RIFF") as X1.
    pose proof (has_marker_not_mismatch h 8 "WAVE") as X2.
    pose proof (has_marker_not_mismatch h 12 "fmt ") as X3.
    pose proof (has_marker_not_mismatch h off "data") as X4.
    pose proof (has_marker_in_bounds h 0 "RIFF") as Y1.
    pose proof (has_marker_in_bounds h 8 "WAVE") as Y2.
    pose proof (has_marker_in_bounds h 12 "fmt ") as Y3.
    pose proof (mismatch_in_bounds h 0 "RIFF") as Z1.
    pose proof (mismatch_in_bounds h 8 "WAVE") as Z2.
    pose proof (mismatch_in_bounds h 12 "fmt ") as Z3.
    pose proof (mismatch_in_bounds h off "data") as Z4.
    destruct (checkHeader_cases h off)
      as [(M & E)|[(H1 & M & E)|[(H1 & H2 & M & E)|[(H1 & H2 & H3 & M & E)
         |[(H1 & H2 & H3 & H4 & E)|(N & E)]]]]];
      (repeat split; [..|apply checkHeader_Err_inv|exact Hreturns]); intros;
      try exact E; exfalso; tauto.
Qed.

(** C8.  Bulk decode fails with the not-found error exactly when "data"
    occurs nowhere in the buffer; when it occurs, decoding proceeds with the
    offset of its first occurrence, which is the data-marker offset of the
    decoded container. *)
Theorem ReadWav_locates_first_data_marker (bytes : Bytes) :
  (ReadWav (ReadAllBytes bytes) = Err (errors_New "data header not found") <->
     forall k, ~ occurs_at (elems bytes) (marker "data") k) /\
  (forall k,
     occurs_at (elems bytes) (marker "data") k ->
     (forall j, (j < k)%nat -> ~ occurs_at (elems bytes) (marker "data") j) ->
     ReadWav (ReadAllBytes bytes) = decodeAt bytes (Z.of_nat k) /\
     forall w, ReadWav (ReadAllBytes bytes) = Ok w ->
               DataMarkerOffset (header w) = Z.of_nat k).
Proof.
  unfold ReadWav.
  destruct (getDataMarkerOffset_spec bytes) as [[Hm Hno]|(k & Hk & Hoc & Hfirst)].
  - rewrite Hm. rewrite decide_True by reflexivity. split.
    + split; [intros _; exact Hno|reflexivity].
    + intros k Hk _. destruct (Hno k Hk).
  - rewrite Hk. rewrite decide_False by lia. split.
    + split.
      * intros Herr. apply decodeAt_Err_inv, checkHeader_Err_inv in Herr.
        unfold errors_New in Herr.
        destruct Herr as [?|[?|[?|?]]]; discriminate.
      * intros Hno. destruct (Hno k Hoc).
    + intros k' Hoc' Hfirst'.
      assert (k' = k) as ->.
      { destruct (Nat.lt_trichotomy k' k) as [Hlt|[Heq|Hgt]]; [|exact Heq|].
        - destruct (Hfirst k' Hlt Hoc').
        - destruct (Hfirst' k Hgt Hoc). }
      split; [reflexivity|].
      intros w Hw. apply decodeAt_header, setupWithHeaderData_offset in Hw.
      exact Hw.
Qed.

(** C7.  Whenever a header is parsed, its frame count is the data
    sub-chunk size divided by the block alignment, rounded down, so that
    frame count × block alignment ≤ chunk size; and a header accepted by
    the validator is parsed whenever its fixed-offset fields and chunk size
    lie inside the buffer and its block alignment is not zero. *)
Theorem setupWithHeaderData_frame_count (wh : WavHeader) (h : Bytes) :
  (forall hdr, setupWithHeaderData wh h = Ok hdr ->
     bLEtoUint32 h (DataMarkerOffset wh + 4) = Ok (ChunkSize hdr) /\
     bLEtoUint16 h BlockAlignOffset = Ok (BlockAlign hdr) /\
     NumSamples hdr = ChunkSize hdr / BlockAlign hdr /\
     NumSamples hdr * BlockAlign hdr <= ChunkSize hdr) /\
  (checkHeader h (DataMarkerOffset wh) = Ok tt ->
   36 <= len h -> DataMarkerOffset wh + 8 <= len h ->
   bLEtoUint16 h BlockAlignOffset <> Ok 0 ->
   exists hdr, setupWithHeaderData wh h = Ok hdr).
Proof.
  split.
  - intros hdr Hok.
    apply setupWithHeaderData_Ok_inv in Hok
      as (_ & _ & Hba & _ & Hcs & Hne & Hn & _).
    pose proof (bLEtoUint16_Ok_inv _ _ _ Hba).
    pose proof (bLEtoUint32_Ok_inv _ _ _ Hcs).
    destruct (frame_count_floor (ChunkSize hdr) (BlockAlign hdr)) as (Hq & _ & Hle);
      [lia..|].
    rewrite Hn. rewrite <- Hq. auto.
  - intros Hck Hlen Hoff Hne.
    destruct (setupWithHeaderData_fields wh h Hck Hlen Hoff)
      as (af & nc & sr & br & ba & bits & cs & _ & Hba & _ & _ & _ & _ & _ & ->).
    unfold int_div. destruct (decide (ba = 0)) as [->|Hba0].
    + contradiction.
    + simpl. eauto.
Qed.

(** C4.  Some buffers that pass data-marker location and header validation
    make [ReadWav] terminate abnormally instead of returning an error: a
    block-alignment field of zero makes the frame-count division panic, and
    a declared chunk size that reaches past the capacity of the buffer makes
    the payload slice expression panic; no check guards either. *)
Theorem ReadWav_unguarded_panics :
  (forall bytes off,
     getDataMarkerOffset bytes = off -> off <> -1 ->
     checkHeader bytes off = Ok tt ->
     36 <= len bytes -> off + 8 <= len bytes ->
     (bLEtoUint16 bytes BlockAlignOffset = Ok 0 ->
      ReadWav (ReadAllBytes bytes) = Panic IntegerDivideByZero) /\
     (forall ba cs,
        bLEtoUint16 bytes BlockAlignOffset = Ok ba -> ba <> 0 ->
        bLEtoUint32 bytes (off + 4) = Ok cs -> cap bytes < off + 8 + cs ->
        ReadWav (ReadAllBytes bytes) = Panic SliceBoundsOutOfRange)) /\
  (exists bytes,
     getDataMarkerOffset bytes <> -1 /\
     checkHeader bytes (getDataMarkerOffset bytes) = Ok tt /\
     ReadWav (ReadAllBytes bytes) = Panic IntegerDivideByZero) /\
  (exists bytes,
     getDataMarkerOffset bytes <> -1 /\
     checkHeader bytes (getDataMarkerOffset bytes) = Ok tt /\
     ReadWav (ReadAllBytes bytes) = Panic SliceBoundsOutOfRange).
Proof.
  split; [|split].
  - intros bytes off Hoff Hne Hck Hlen Hoff8. rewrite (ReadWav_found bytes off Hoff Hne).
    split.
    + apply decodeAt_zero_block_align; assumption.
    + intros ba cs. apply decodeAt_payload_out_of_bounds; assumption.
  - exists (exact zeroAlignFile). vm_compute. repeat split; discriminate.
  - exists (exact shortPayloadFile). vm_compute. repeat split; discriminate.
Qed.

(** C3, as the code has it.  For a buffer that passes data-marker location and
    header validation, whose fields lie inside the buffer, whose block
    alignment is not zero and whose declared payload lies within its
    capacity: when bits-per-sample is neither 8 nor 16, bulk decode returns
    without error, both depth-specific representations stay nil, and the
    generic representation holds frame-count entries, each of them empty. *)
Theorem ReadWav_unsupported_depth (bytes : Bytes) (off ba bits cs : Z) :
  getDataMarkerOffset bytes = off -> off <> -1 ->
  checkHeader bytes off = Ok tt ->
  36 <= len bytes -> off + 8 <= len bytes ->
  bLEtoUint16 bytes BitsPerSampleOffset = Ok bits -> bits <> 8 -> bits <> 16 ->
  bLEtoUint16 bytes BlockAlignOffset = Ok ba -> ba <> 0 ->
  bLEtoUint32 bytes (off + 4) = Ok cs -> off + 8 + cs <= cap bytes ->
  exists w,
    ReadWav (ReadAllBytes bytes) = Ok w /\
    Data8 w = None /\ Data16 w = None /\
    BitsPerSample (header w) = bits /\
    NumSamples (header w) = cs / ba /\
    Data w = replicate (Z.to_nat (NumSamples (header w))) [].
Proof.
  intros Hoff Hne Hck Hlen Hoff8 Hbits H8 H16 Hba Hba0 Hcs Hcap.
  rewrite (ReadWav_found bytes off Hoff Hne).
  destruct (decodeAt_unsupported_depth bytes off ba bits cs)
    as (hdr & -> & Hn & Hb & _); try assumption.
  eexists. split; [reflexivity|]. simpl. auto.
Qed.

Lemma ReadWav_unsupported_depth_witness :
  exists w,
    ReadWav (ReadAllBytes (exact depth24File)) = Ok w /\
    Data8 w = None /\ Data16 w = None /\
    BitsPerSample (header w) = 24 /\
    NumSamples (header w) = 3 / 3 /\
    Data w = replicate (Z.to_nat (NumSamples (header w))) [].
Proof.
  apply (ReadWav_unsupported_depth (exact depth24File) 36 3 24 3);
    vm_compute; try reflexivity; discriminate.
Defined.

(** The 24-bit file decodes to one frame without channel slots, where the
    specification has one frame made of one zero-valued slot. *)
Lemma depth24_frames_are_empty :
  exists w,
    ReadWav (ReadAllBytes (exact depth24File)) = Ok w /\
    BitsPerSample (header w) = 24 /\
    NumSamples (header w) = 1 /\ NumChannels (header w) = 1 /\
    Data w = [[]] /\
    Data w <> replicate (Z.to_nat (NumSamples (header w)))
                (replicate (Z.to_nat (NumChannels (header w))) 0).
Proof.
  eexists. split; [vm_compute; reflexivity|]. simpl.
  repeat split. discriminate.
Qed.

(** C9, as the code has it.  The buffer made of "RIFF????WAVEfmt ", the four-byte
    size (16) of the "fmt " sub-chunk, the 16-byte fmt body (audio-format 1,
    channels 1, sample-rate 44100, byte-rate 88200, block-align 2,
    bits-per-sample 16), then "data", a chunk size of 4 and the two
    little-endian samples 100 and -100, bulk-decodes, whatever capacity the
    buffer has, to channel count 1, sample rate 44100, frame count 2 and
    generic samples [[100], [-100]]. *)
Theorem ReadWav_mono_scenario (sp : list byte) :
  exists w,
    ReadWav (ReadAllBytes (mkBytes monoFile sp)) = Ok w /\
    NumChannels (header w) = 1 /\ SampleRate (header w) = 44100 /\
    NumSamples (header w) = 2 /\ Data w = [[100]; [-100]].
Proof.
  eexists. split.
  - apply ReadWav_spare; [vm_compute; reflexivity|discriminate].
  - simpl. auto.
Qed.

(** With the fmt body directly behind "fmt ", as the scenario is worded,
    the fixed offsets 20 to 35 fall on other bytes: the decode succeeds with
    channel count 0, sample rate 88200 and no frame. *)
Lemma ReadWav_scenario_without_fmt_size :
  exists w,
    (forall sp, ReadWav (ReadAllBytes (mkBytes monoFileNoFmtSize sp)) = Ok w) /\
    NumChannels (header w) = 0 /\ SampleRate (header w) = 88200 /\
    NumSamples (header w) = 0 /\ Data w = [] /\
    Data w <> [[100]; [-100]].
Proof.
  eexists. split.
  - intros sp. apply ReadWav_spare; [vm_compute; reflexivity|discriminate].
  - simpl. repeat split. discriminate.
Qed.

(** C1.  Every slot [c] of a frame decoded at index [i] holds, for 8 bits,
    the unsigned byte at offset [i·C + c], as specified; for 16 bits it holds
    the signed little-endian pair read at offset [2·i·C + c], not at
    [2·(i·C + c)].  On a 16-bit stereo frame with left 1 and right 2 the
    right channel is therefore read at offset 1, across the two samples,
    and comes out as 512, where offset 2 holds the value 2; bulk and
    streaming decode agree on this. *)
Theorem stereo16_right_channel_misread :
  (forall data i h s, readSampleFromData data i h = Ok s ->
     forall c, (c < Z.to_nat (NumChannels h))%nat ->
       exists x, s !! c = Some x /\ slot_of data i h c x) /\
  (exists w, (forall sp, ReadWav (ReadAllBytes (mkBytes stereoFile sp)) = Ok w) /\
             NumChannels (header w) = 2 /\ BitsPerSample (header w) = 16 /\
             Data w = [[1; 512]]) /\
  fst (ReadSamples (mkStreamedWav (mkWavHeader 1 2 44100 176400 4 16 4 1 0)
                      stereoPayload) 1) = Ok [[1; 512]] /\
  bLEtoInt16 (exact stereoPayload) (2 * 0 * 2 + 1) = Ok 512 /\
  bLEtoInt16 (exact stereoPayload) (2 * (0 * 2 + 1)) = Ok 2.
Proof.
  split.
  { intros data i h s Hs. apply (readSampleFromData_Ok_inv _ _ _ _ Hs). }
  split; [|vm_compute; auto].
  eexists. split.
  - intros sp. apply ReadWav_spare; [vm_compute; reflexivity|discriminate].
  - simpl. auto.
Qed.

(** C5, as the code has it.  For every pull of N frames, N ≥ 0, on a streaming
    container whose block alignment is positive and covers the bytes of one
    frame (channel count × bytes per sample), with N × block-alignment a
    valid buffer length: if the one underlying read returns an error, that
    error is returned unchanged; otherwise, if the number R of bytes read
    is no multiple of the block alignment, the call fails with the
    misaligned-read error; otherwise exactly R ÷ block-alignment frames are
    returned, decoded from the bytes read. *)
Theorem ReadSamples_pull {R : Type} `{Reader R} (wav : StreamedWav R) (N : Z) :
  0 <= N ->
  N * BlockAlign (sheader wav) < 2 ^ 63 ->
  0 < BlockAlign (sheader wav) ->
  0 <= NumChannels (sheader wav) ->
  NumChannels (sheader wav) * sampleWidth (BitsPerSample (sheader wav))
    <= BlockAlign (sheader wav) ->
  pull_as_specified wav N.
Proof.
  intros HN Hfit Hba Hc Hw. unfold pull_as_specified, ReadSamples.
  rewrite int64_small by nia.
  unfold make_bytes. rewrite decide_True by nia.
  destruct (callRead (sreader wav)
              (exact (replicate (Z.to_nat (N * BlockAlign (sheader wav))) x00)))
    as [[[amountRead data] err] reader] eqn:Hread.
  apply callRead_spec in Hread as [Hn Hlen].
  destruct err as [e|]; simpl; [reflexivity|]. split.
  - intros Hnd. apply decodeBatch_misaligned; assumption.
  - intros Hdiv. apply decodeBatch_aligned; try assumption. lia.
Qed.

Lemma ReadSamples_pull_witness :
  pull_as_specified
    (mkStreamedWav (mkWavHeader 1 2 44100 176400 4 16 4 1 0) stereoPayload) 1.
Proof.
  apply ReadSamples_pull; vm_compute; congruence.
Defined.

(** Three pulls outside these conditions, each ending in a panic where the
    specification has an error or frames: a negative frame count, a block
    alignment of zero, and a block alignment of 1 under two 8-bit channels. *)
Lemma ReadSamples_pull_panics :
  (fst (ReadSamples (mkStreamedWav (mkWavHeader 1 2 44100 176400 4 16 4 1 0)
                       stereoPayload) (-1)) = Panic MakeLenOutOfRange /\
   ~ pull_as_specified
       (mkStreamedWav (mkWavHeader 1 2 44100 176400 4 16 4 1 0) stereoPayload)
       (-1)) /\
  (fst (ReadSamples (mkStreamedWav (mkWavHeader 1 1 44100 88200 0 16 4 0 0)
                       stereoPayload) 1) = Panic IntegerDivideByZero /\
   ~ pull_as_specified
       (mkStreamedWav (mkWavHeader 1 1 44100 88200 0 16 4 0 0) stereoPayload) 1) /\
  (fst (ReadSamples (mkStreamedWav (mkWavHeader 1 2 44100 88200 1 8 4 4 0)
                       stereoPayload) 1) = Panic IndexOutOfRange /\
   ~ pull_as_specified
       (mkStreamedWav (mkWavHeader 1 2 44100 88200 1 8 4 4 0) stereoPayload) 1).
Proof.
  assert (forall (wav : StreamedWav (list byte)) N p,
            fst (ReadSamples wav N) = Panic p ->
            (exists n data r,
               callRead (sreader wav)
                 (exact (replicate (Z.to_nat (N * BlockAlign (sheader wav))) x00))
               = (n, data, None, r) /\ (BlockAlign (sheader wav) | n)) ->
            ~ pull_as_specified wav N) as Hrefute.
  { intros wav N p Hp (n & data & r & Hread & Hdiv) Hspec.
    apply (pull_as_specified_aligned wav N n data r Hspec Hread) in Hdiv
      as (frames & Hf).
    rewrite Hp in Hf. discriminate. }
  split; [|split]; (split; [vm_compute; reflexivity|]).
  - eapply Hrefute; [vm_compute; reflexivity|].
    do 3 eexists. split; [vm_compute; reflexivity|]. exists 0. reflexivity.
  - eapply Hrefute; [vm_compute; reflexivity|].
    do 3 eexists. split; [vm_compute; reflexivity|]. exists 0. reflexivity.
  - eapply Hrefute; [vm_compute; reflexivity|].
    do 3 eexists. split; [vm_compute; reflexivity|]. exists 1. reflexivity.
Qed.

(** C2, as the code has it.  [StreamWav] never returns a container.  Whenever it
    returns, it returns nil and a non-nil error: the block read after the
    scan is validated with a data-marker offset of zero, so its bytes [0,4)
    would have to be "RIFF" and "data" at once.  It returns that way for a
    nil reader and whenever the scan consumed at least 8 bytes; when the
    scan consumed fewer, the block is shorter than 16 bytes and validation
    may instead stop on a slice out of range.  On an in-memory stream of n
    bytes the scan ends within n + 1 iterations. *)
Theorem StreamWav_never_succeeds :
  (forall (R : Type) (rd : Reader R) (fuel : nat) (reader : option R)
          (out : result (StreamedWav R)),
     StreamWav fuel reader = Some out ->
     (exists e, out = Err e) \/ out = Panic SliceBoundsOutOfRange) /\
  (forall (R : Type) (rd : Reader R) (fuel : nat),
     @StreamWav R rd fuel None = Some (Err (errors_New "wav: Invalid Reader"))) /\
  (forall (R : Type) (rd : Reader R) (fuel : nat) (reader reader' : R) (off : Z),
     scanForData fuel reader [] 0 = Some (reader', off) -> 8 <= off ->
     exists e, StreamWav fuel (Some reader) = Some (Err e)) /\
  (forall s : list byte,
     exists out, StreamWav (S (length s)) (Some s) = Some out).
Proof.
  split; [|split; [|split]].
  - intros R rd fuel [reader|] out; [|intros [= <-]; eauto].
    destruct (scanForData fuel reader [] 0) as [[reader' off]|] eqn:Hscan.
    + destruct (StreamWav_after_scan fuel reader reader' off Hscan)
        as [[e ->]|[_ ->]]; intros [= <-]; eauto.
    + unfold StreamWav. rewrite Hscan. discriminate.
  - reflexivity.
  - intros R rd fuel reader reader' off Hscan Hoff.
    destruct (StreamWav_after_scan fuel reader reader' off Hscan)
      as [He|[Hlt _]]; [exact He|lia].
  - intros s.
    destruct (scanForData_bytes_terminates s [] 0 (S (length s)))
      as (reader' & off & Hscan); [lia|].
    destruct (StreamWav_after_scan _ _ _ _ Hscan) as [[e ->]|[_ ->]]; eauto.
Qed.

(** The stream "dataRIFF????WAVE": the scan ends after 4 bytes, the block
    of 12 bytes reads "RIFF????WAVE", and the slice [12:16] of the
    validator is out of range. *)
Lemma StreamWav_short_block_panics :
  StreamWav 17 (Some (marker "dataRIFF????WAVE")) =
    Some (Panic SliceBoundsOutOfRange).
Proof. vm_compute. reflexivity. Qed.

(** C10, as the code has it.  For every decoded container of a supported bit
    depth (8 or 16) with at least one channel, the downmix utility returns
    one value per frame, in frame order: for a mono container the frame's
    sole channel value; for a 2-channel container with channel values
    (L, R) exactly (L+R)/2, and likewise, for more channels, half the sum
    of the first two. *)
Theorem GetMonoData_downmix (r : Source) (w : Wav) :
  ReadWav r = Ok w ->
  BitsPerSample (header w) = 8 \/ BitsPerSample (header w) = 16 ->
  1 <= NumChannels (header w) ->
  exists y,
    GetMonoData w = Ok y /\ length y = length (Data w) /\
    forall i frame, Data w !! i = Some frame ->
      exists x, y !! i = Some x /\
        ((NumChannels (header w) = 1 /\
          exists v, frame = [v] /\ represents x (inject_Z v)) \/
         (2 <= NumChannels (header w) /\
          length frame = Z.to_nat (NumChannels (header w)) /\
          exists L R rest,
            frame = L :: R :: rest /\ represents x ((L + R) # 2))).
Proof.
  intros Hread Hbits Hch.
  pose proof (ReadWav_frames r w Hread Hbits) as Hframes.
  unfold GetMonoData. rewrite make_slice_Ok by lia. simpl. rewrite Nat2Z.id.
  destruct (decide (NumChannels (header w) = 1)) as [H1|H1].
  - apply fill_loop; [apply length_replicate|].
    intros i f y Hf.
    destruct (proj1 (Forall_lookup _ _) Hframes i f Hf) as [Hlen Hrange].
    rewrite H1 in Hlen. destruct f as [|v [|? ?]]; try discriminate.
    exists (float64_of_int v). split.
    + left. split; [exact H1|]. exists v. split; [reflexivity|].
      apply Forall_cons in Hrange as [Hv _].
      apply float64_of_int_exact. lia.
    + rewrite (load_Ok _ _ _ Hf). reflexivity.
  - apply fill_loop; [apply length_replicate|].
    intros i f y Hf.
    destruct (proj1 (Forall_lookup _ _) Hframes i f Hf) as [Hlen Hrange].
    destruct f as [|L [|R rest]]; try (simpl in Hlen; lia).
    apply Forall_cons in Hrange as [HL Hrange].
    apply Forall_cons in Hrange as [HR _].
    exists (float64_div (float64_of_int (L + R)) (float64_of_int 2)). split.
    + right. split; [lia|]. split; [exact Hlen|].
      exists L, R, rest. split; [reflexivity|].
      apply float64_of_int_exact. lia.
    + assert (load (L :: R :: rest) 0 = Ok L) as H0
        by exact (load_Ok (L :: R :: rest) 0%nat L eq_refl).
      assert (load (L :: R :: rest) 1 = Ok R) as H1'
        by exact (load_Ok (L :: R :: rest) 1%nat R eq_refl).
      rewrite (load_Ok _ _ _ Hf). cbn [mbind result_bind bind].
      rewrite H0. cbn [mbind result_bind bind].
      rewrite H1'. cbn [mbind result_bind bind].
      rewrite int64_small by lia. reflexivity.
Qed.

Lemma GetMonoData_downmix_witness :
  exists y,
    GetMonoData (mkWav (mkWavHeader 1 2 44100 176400 4 16 4 1 36)
                   None (Some [[1; 512]]) [[1; 512]]) = Ok y /\
    length y = 1%nat /\
    forall i frame, [[1; 512]] !! i = Some frame ->
      exists x, y !! i = Some x /\
        ((2 = 1 /\ exists v, frame = [v] /\ represents x (inject_Z v)) \/
         (2 <= 2 /\ length frame = 2%nat /\
          exists L R rest,
            frame = L :: R :: rest /\ represents x ((L + R) # 2))).
Proof.
  apply (GetMonoData_downmix (ReadAllBytes (exact stereoFile))).
  - vm_compute. reflexivity.
  - right. reflexivity.
  - vm_compute. discriminate.
Defined.

(** Two decoded containers on which the downmix indexes a frame that has
    no channel value, and panics: the 24-bit mono file, whose one frame is
    nil, and an 8-bit file that declares no channel. *)
Lemma GetMonoData_empty_frame_panics :
  (exists w,
     ReadWav (ReadAllBytes (exact depth24File)) = Ok w /\
     NumChannels (header w) = 1 /\ length (Data w) = 1%nat /\
     GetMonoData w = Panic IndexOutOfRange) /\
  (exists w,
     ReadWav (ReadAllBytes (exact noChannelFile)) = Ok w /\
     BitsPerSample (header w) = 8 /\
     NumChannels (header w) = 0 /\ length (Data w) = 1%nat /\
     GetMonoData w = Panic IndexOutOfRange).
Proof.
  split.
  - eexists. split; [vm_compute; reflexivity|].
    split; [reflexivity|]. split; [reflexivity|]. vm_compute. reflexivity.
  - eexists. split; [vm_compute; reflexivity|].
    split; [reflexivity|]. split; [reflexivity|]. split; [reflexivity|].
    vm_compute. reflexivity.
Qed.

(** ** The conditional parts at concrete inputs *)

Lemma checkHeader_validates_markers_witness :
  checkHeader (exact (marker "RIFF????WAVXfmt data")) 16 =
    Err (errors_New "wav: Header does not contain 'WAVE'").
Proof.
  apply (proj1 (proj2 (proj2 (checkHeader_validates_markers
                                (exact (marker "RIFF????WAVXfmt data")) 16)))).
  - unfold has_marker. repeat split; vm_compute; congruence.
  - unfold mismatch. repeat split; vm_compute; congruence.
Defined.

Lemma setupWithHeaderData_frame_count_witness :
  exists hdr,
    setupWithHeaderData (mkWavHeader 0 0 0 0 0 0 0 0 36) (exact monoFile) = Ok hdr.
Proof.
  apply (proj2 (setupWithHeaderData_frame_count
                  (mkWavHeader 0 0 0 0 0 0 0 0 36) (exact monoFile)));
    vm_compute; congruence.
Defined.

Lemma ReadWav_locates_first_data_marker_witness :
  ReadWav (ReadAllBytes (exact monoFile)) = decodeAt (exact monoFile) 36 /\
  forall w, ReadWav (ReadAllBytes (exact monoFile)) = Ok w ->
            DataMarkerOffset (header w) = 36.
Proof.
  apply (proj2 (ReadWav_locates_first_data_marker (exact monoFile)) 36%nat).
  - vm_compute. reflexivity.
  - intros j Hj. do 36 (destruct j as [|j]; [vm_compute; discriminate|]). lia.
Defined.

(** * Further properties of the code *)

(** ** Byte-level codec *)

Lemma index_cases (b : Bytes) (i : Z) :
  (0 <= i < len b /\ exists x, index b i = Ok x /\ elems b !! Z.to_nat i = Some x) \/
  (~ (0 <= i < len b) /\ index b i = Panic IndexOutOfRange).
Proof.
  destruct (decide (0 <= i < len b)) as [Hi|Hi].
  - left. split; [exact Hi|]. apply index_Ok. exact Hi.
  - right. split; [exact Hi|]. apply index_out_of_range. exact Hi.
Qed.

Lemma shiftl_byte (b : byte) (k : Z) :
  0 <= k -> Z.shiftl (byte_val b) k = byte_val b * 2 ^ k.
Proof. intros Hk. apply Z.shiftl_mul_pow2. exact Hk. Qed.

(** X1.  [bLEtoUint32] panics with an index out of range exactly when the
    four bytes at [idx] are not all inside the slice; otherwise it returns
    their little-endian value b0 + 2^8·b1 + 2^16·b2 + 2^24·b3, with no loss
    to the 32-bit wrap-around of its shifts and sums. *)
Theorem bLEtoUint32_little_endian (b : Bytes) (idx : Z) :
  (0 <= idx /\ idx + 4 <= len b ->
   exists b0 b1 b2 b3,
     elems b !! Z.to_nat idx = Some b0 /\
     elems b !! Z.to_nat (idx + 1) = Some b1 /\
     elems b !! Z.to_nat (idx + 2) = Some b2 /\
     elems b !! Z.to_nat (idx + 3) = Some b3 /\
     bLEtoUint32 b idx =
       Ok (byte_val b0 + 256 * byte_val b1 + 65536 * byte_val b2
           + 16777216 * byte_val b3)) /\
  (~ (0 <= idx /\ idx + 4 <= len b) ->
   bLEtoUint32 b idx = Panic IndexOutOfRange).
Proof.
  unfold bLEtoUint32. split.
  - intros [H0 H4].
    destruct (index_Ok b (idx + 3)) as (b3 & -> & L3); [lia|].
    destruct (index_Ok b (idx + 2)) as (b2 & -> & L2); [lia|].
    destruct (index_Ok b (idx + 1)) as (b1 & -> & L1); [lia|].
    destruct (index_Ok b idx) as (b0 & -> & L0); [lia|].
    exists b0, b1, b2, b3. repeat (split; [assumption|]). simpl. f_equal.
    pose proof (byte_val_range b0). pose proof (byte_val_range b1).
    pose proof (byte_val_range b2). pose proof (byte_val_range b3).
    rewrite !shiftl_byte by lia. unfold wrap32.
    rewrite (Z.mod_small (byte_val b3 * 2 ^ 24)) by lia.
    rewrite (Z.mod_small (byte_val b2 * 2 ^ 16)) by lia.
    rewrite (Z.mod_small (byte_val b1 * 2 ^ 8)) by lia.
    rewrite (Z.mod_small (byte_val b3 * 2 ^ 24 + byte_val b2 * 2 ^ 16)) by lia.
    rewrite (Z.mod_small (byte_val b3 * 2 ^ 24 + byte_val b2 * 2 ^ 16
                          + byte_val b1 * 2 ^ 8)) by lia.
    rewrite Z.mod_small by lia. lia.
  - intros Hout.
    destruct (index_cases b (idx + 3)) as [(H3 & x3 & -> & _)|[_ ->]]; [|reflexivity].
    destruct (index_cases b (idx + 2)) as [(_ & x2 & -> & _)|[_ ->]]; [|reflexivity].
    destruct (index_cases b (idx + 1)) as [(_ & x1 & -> & _)|[_ ->]]; [|reflexivity].
    destruct (index_cases b idx) as [(H0 & _)|[_ ->]]; [|reflexivity].
    exfalso. apply Hout. lia.
Qed.

Lemma int16_small (z : Z) : -32768 <= z < 32768 -> int16 z = z.
Proof. intros Hz. unfold int16. rewrite Z.mod_small by lia. lia. Qed.

Lemma int16_high (z : Z) : 32768 <= z < 65536 -> int16 z = z - 65536.
Proof.
  intros Hz. unfold int16.
  replace (z + 2 ^ 15) with (z - 32768 + 1 * 2 ^ 16) by lia.
  rewrite Z_mod_plus_full. rewrite Z.mod_small by lia. lia.
Qed.

(** X2.  On two bytes inside the slice, [bLEtoUint16] returns their
    little-endian value u = b0 + 2^8·b1 and [bLEtoInt16] returns the same
    16 bits read as two's complement (u below 2^15, u - 2^16 from there
    on); when the two bytes are not inside the slice both panic with an
    index out of range. *)
Theorem bLEto16_little_endian (b : Bytes) (idx : Z) :
  (0 <= idx /\ idx + 2 <= len b ->
   exists b0 b1,
     elems b !! Z.to_nat idx = Some b0 /\
     elems b !! Z.to_nat (idx + 1) = Some b1 /\
     bLEtoUint16 b idx = Ok (byte_val b0 + 256 * byte_val b1) /\
     bLEtoInt16 b idx =
       Ok (if byte_val b0 + 256 * byte_val b1 <? 32768
           then byte_val b0 + 256 * byte_val b1
           else byte_val b0 + 256 * byte_val b1 - 65536)) /\
  (~ (0 <= idx /\ idx + 2 <= len b) ->
   bLEtoUint16 b idx = Panic IndexOutOfRange /\
   bLEtoInt16 b idx = Panic IndexOutOfRange).
Proof.
  unfold bLEtoUint16, bLEtoInt16. split.
  - intros [H0 H2].
    destruct (index_Ok b (idx + 1)) as (b1 & -> & L1); [lia|].
    destruct (index_Ok b idx) as (b0 & -> & L0); [lia|].
    exists b0, b1. split; [exact L0|]. split; [exact L1|]. simpl.
    pose proof (byte_val_range b0). pose proof (byte_val_range b1).
    rewrite !shiftl_byte by lia. split; f_equal.
    + unfold wrap16. rewrite (Z.mod_small (byte_val b1 * 2 ^ 8)) by lia.
      rewrite Z.mod_small by lia. lia.
    + destruct (Z.ltb_spec (byte_val b0 + 256 * byte_val b1) 32768) as [Hlt|Hge].
      * rewrite (int16_small (byte_val b1 * 2 ^ 8)) by lia.
        rewrite int16_small by lia. lia.
      * rewrite (int16_high (byte_val b1 * 2 ^ 8)) by lia.
        rewrite int16_small by lia. lia.
  - intros Hout.
    destruct (index_cases b (idx + 1)) as [(H1 & x1 & -> & _)|[_ ->]]; [|auto].
    destruct (index_cases b idx) as [(H0 & _)|[_ ->]]; [|auto].
    exfalso. apply Hout. lia.
Qed.

(** ** Parsed headers *)





(** ** The loops of the bulk decoder *)

Lemma frames_of_length (data : Bytes) (hdr : WavHeader) (n : nat) :
  length (frames_of data hdr n) = n.
Proof. unfold frames_of. rewrite length_map, length_seq. reflexivity. Qed.

Lemma frames_of_lookup (data : Bytes) (hdr : WavHeader) (n i : nat) (f : list Z) :
  (i < n)%nat -> readSampleFromData data (Z.of_nat i) hdr = Ok f ->
  frames_of data hdr n !! i = Some f.
Proof.
  intros Hi Hf. unfold frames_of. rewrite list_lookup_fmap.
  rewrite lookup_seq_lt by exact Hi. simpl. rewrite Hf. reflexivity.
Qed.

(** The loop that allocates the rows of a depth-specific table. *)
Lemma rows_loop (n : nat) (C : Z) :
  0 <= C ->
  for_range 0 n
    (fun sampleIndex d => row ← make_slice C 0; store d sampleIndex row)
    (replicate n ([] : list Z))
  = Ok (replicate n (replicate (Z.to_nat C) 0)).
Proof.
  intros HC.
  destruct (for_range_total
              (fun k d => length d = n /\
                 forall j, (j < k)%nat -> d !! j = Some (replicate (Z.to_nat C) 0))
              (fun sampleIndex d => row ← make_slice C 0; store d sampleIndex row)
              0 n (replicate n ([] : list Z))) as (d & -> & Hlen & Hrows).
  - split; [apply length_replicate|]. intros j Hj. lia.
  - intros k d Hk (Hlen & Hrows). rewrite Z.add_0_l.
    rewrite make_slice_Ok by exact HC. simpl.
    rewrite store_Ok by lia. rewrite Nat2Z.id.
    eexists; split; [reflexivity|]. split; [rewrite length_insert; exact Hlen|].
    intros j Hj. destruct (decide (j = k)) as [->|Hne].
    + apply list_lookup_insert_eq. lia.
    + rewrite list_lookup_insert_ne by lia. apply Hrows. lia.
  - f_equal. apply (list_eq_same_length _ _ n);
      [apply length_replicate|exact Hlen|].
    intros i x y Hi Hx Hy. rewrite (Hrows i Hi) in Hx.
    apply lookup_replicate in Hy as [-> _]. congruence.
Qed.

Section FrameLoop.
Variable get : Wav -> list (list Z).
Variable put : Wav -> list (list Z) -> Wav.
Variable conv : Z -> Z.
Variable keeps : Wav -> Prop.
Hypothesis get_put : forall w d, get (put w d) = d.
Hypothesis header_put : forall w d, header (put w d) = header w.
Hypothesis Data_put : forall w d, Data (put w d) = Data w.
Hypothesis keeps_put : forall w d, keeps w -> keeps (put w d).
Hypothesis get_withData : forall w g, get (withData w g) = get w.
Hypothesis keeps_withData : forall w g, keeps w -> keeps (withData w g).

Variable data : Bytes.
Variable hdr : WavHeader.
Variables n c : nat.
Variable fs : list (list Z).
Hypothesis fs_length : length fs = n.
Hypothesis fs_frames : forall i f, fs !! i = Some f ->
  readSampleFromData data (Z.of_nat i) hdr = Ok f /\ length f = c /\
  Forall (fun v => conv v = v) f.

(** The channel loop copies one frame into row [i] of the table. *)
Lemma channel_loop (i : nat) (f : list Z) (w : Wav) :
  (i < n)%nat -> fs !! i = Some f ->
  header w = hdr -> keeps w -> length (get w) = n ->
  get w !! i = Some (replicate c 0) ->
  exists w',
    for_range 0 c
      (fun ch wav =>
         v ← load f ch;
         d ← store2 (get wav) (Z.of_nat i) ch (conv v);
         Ok (put wav d)) w = Ok w' /\
    header w' = hdr /\ keeps w' /\ Data w' = Data w /\
    get w' = <[i := f]> (get w).
Proof.
  intros Hi Hf Hh Hk Hlen Hrow.
  destruct (fs_frames i f Hf) as (_ & Hfc & Hconv).
  destruct (for_range_total
              (fun m w' => header w' = hdr /\ keeps w' /\ Data w' = Data w /\
                 exists row, get w' = <[i := row]> (get w) /\ length row = c /\
                   forall j, (j < m)%nat -> row !! j = f !! j)
              (fun ch wav =>
                 v ← load f ch;
                 d ← store2 (get wav) (Z.of_nat i) ch (conv v);
                 Ok (put wav d))
              0 c w) as (w' & Hrun & Hh' & Hk' & HD' & row & Hget & Hrl & Hrow').
  - split; [exact Hh|]. split; [exact Hk|]. split; [reflexivity|].
    exists (replicate c 0). split; [symmetry; apply list_insert_id; exact Hrow|].
    split; [apply length_replicate|]. intros j Hj. lia.
  - intros m w1 Hm (Hh1 & Hk1 & HD1 & row & Hget & Hrl & Hrow1). rewrite Z.add_0_l.
    destruct (lookup_lt_is_Some_2 f m ltac:(lia)) as [v Hv].
    rewrite (load_Ok _ _ _ Hv). cbn [mbind result_bind bind].
    assert (conv v = v) as ->
      by (exact (proj1 (Forall_lookup _ _) Hconv m v Hv)).
    unfold store2.
    assert (get w1 !! i = Some row) as Hrowi
      by (rewrite Hget; apply list_lookup_insert_eq; lia).
    rewrite (load_Ok _ _ _ Hrowi). cbn [mbind result_bind bind].
    rewrite store_Ok by lia. cbn [mbind result_bind bind].
    rewrite store_Ok by (rewrite Hget, length_insert; lia).
    cbn [mbind result_bind bind]. rewrite !Nat2Z.id.
    eexists; split; [reflexivity|].
    split; [rewrite header_put; exact Hh1|]. split; [apply keeps_put; exact Hk1|].
    split; [rewrite Data_put; exact HD1|].
    exists (<[m := v]> row). rewrite get_put, Hget, list_insert_insert_eq.
    split; [reflexivity|]. split; [rewrite length_insert; exact Hrl|].
    intros j Hj. destruct (decide (j = m)) as [->|Hne].
    + rewrite list_lookup_insert_eq by lia. symmetry. exact Hv.
    + rewrite list_lookup_insert_ne by lia. apply Hrow1. lia.
  - exists w'. split; [exact Hrun|]. split; [exact Hh'|]. split; [exact Hk'|].
    split; [exact HD'|]. rewrite Hget. f_equal.
    apply (list_eq_same_length _ _ c); [exact Hfc|exact Hrl|].
    intros j x y Hj Hx Hy. rewrite (Hrow' j Hj) in Hx. congruence.
Qed.

(** The frame loop fills the generic table and the depth-specific table
    with the decoded frames. *)
Lemma frame_loop_total (w0 : Wav) :
  header w0 = hdr -> keeps w0 -> length (Data w0) = n ->
  get w0 = replicate n (replicate c 0) ->
  exists w',
    for_range 0 n
      (fun i wav =>
         sample ← readSampleFromData data i (header wav);
         generic ← store (Data wav) i sample;
         for_range 0 c
           (fun ch wav =>
              v ← load sample ch;
              d ← store2 (get wav) i ch (conv v);
              Ok (put wav d))
           (withData wav generic))
      w0 = Ok w' /\
    header w' = hdr /\ keeps w' /\ Data w' = fs /\ get w' = fs.
Proof.
  intros Hh0 Hk0 HD0 Hg0.
  destruct (for_range_total
              (fun k w => header w = hdr /\ keeps w /\
                 length (Data w) = n /\ length (get w) = n /\
                 (forall j f, (j < k)%nat -> fs !! j = Some f ->
                    Data w !! j = Some f /\ get w !! j = Some f) /\
                 (forall j, (k <= j < n)%nat ->
                    get w !! j = Some (replicate c 0)))
              (fun i wav =>
                 sample ← readSampleFromData data i (header wav);
                 generic ← store (Data wav) i sample;
                 for_range 0 c
                   (fun ch wav =>
                      v ← load sample ch;
                      d ← store2 (get wav) i ch (conv v);
                      Ok (put wav d))
                   (withData wav generic))
              0 n w0)
    as (w' & Hrun & Hh' & Hk' & HDl & Hgl & Hdone & _).
  - split; [exact Hh0|]. split; [exact Hk0|]. split; [exact HD0|].
    split; [rewrite Hg0; apply length_replicate|].
    split; [intros j f Hj; lia|].
    intros j Hj. rewrite Hg0. apply lookup_replicate_2. lia.
  - intros k w Hk (Hh & Hkp & HDl & Hgl & Hdone & Hrest). rewrite Z.add_0_l.
    destruct (lookup_lt_is_Some_2 fs k ltac:(lia)) as [f Hf].
    destruct (fs_frames k f Hf) as (Hread & _ & _).
    rewrite Hh, Hread. cbn [mbind result_bind bind].
    rewrite store_Ok by lia. cbn [mbind result_bind bind]. rewrite Nat2Z.id.
    destruct (channel_loop k f (withData w (<[k := f]> (Data w))))
      as (w1 & Hinner & Hh1 & Hk1 & HD1 & Hg1).
    + exact Hk.
    + exact Hf.
    + exact Hh.
    + apply keeps_withData. exact Hkp.
    + rewrite get_withData. exact Hgl.
    + rewrite get_withData. apply Hrest. lia.
    + exists w1. split; [exact Hinner|].
      rewrite get_withData in Hg1. simpl in HD1.
      split; [exact Hh1|]. split; [exact Hk1|].
      split; [rewrite HD1, length_insert; exact HDl|].
      split; [rewrite Hg1, length_insert; exact Hgl|]. split.
      * intros j g Hj Hg. rewrite HD1, Hg1.
        destruct (decide (j = k)) as [->|Hne].
        -- rewrite Hf in Hg. injection Hg as <-.
           rewrite !list_lookup_insert_eq by lia. auto.
        -- rewrite !list_lookup_insert_ne by lia. apply Hdone; [lia|exact Hg].
      * intros j Hj. rewrite Hg1, list_lookup_insert_ne by lia. apply Hrest. lia.
  - exists w'. split; [exact Hrun|]. split; [exact Hh'|]. split; [exact Hk'|].
    split.
    + apply (list_eq_same_length _ _ n); [exact fs_length|exact HDl|].
      intros j x y Hj Hx Hy. destruct (Hdone j y Hj Hy) as [Hx' _]. congruence.
    + apply (list_eq_same_length _ _ n); [exact fs_length|exact Hgl|].
      intros j x y Hj Hx Hy. destruct (Hdone j y Hj Hy) as [_ Hx']. congruence.
Qed.
End FrameLoop.

Lemma frame_loop_reads (data : Bytes) (n c : nat)
    (put : Wav -> Z -> Z -> Z -> result Wav) (wav wav' : Wav) :
  (forall w i ch v w', put w i ch v = Ok w' -> header w' = header w) ->
  for_range 0 n
    (fun i wav =>
       sample ← readSampleFromData data i (header wav);
       generic ← store (Data wav) i sample;
       for_range 0 c
         (fun ch wav => v ← load sample ch; put wav i ch v)
         (withData wav generic))
    wav = Ok wav' ->
  forall i, (i < n)%nat ->
    exists f, readSampleFromData data (Z.of_nat i) (header wav) = Ok f.
Proof.
  intros Hput Hrun.
  apply (for_range_partial
           (fun k w => header w = header wav /\
              forall i, (i < k)%nat ->
                exists f, readSampleFromData data (Z.of_nat i) (header wav) = Ok f))
    in Hrun; [apply Hrun|split; [reflexivity|intros i Hi; lia]|].
  intros k w w1 Hk (Hh & Hdone) Hbody. rewrite Z.add_0_l in Hbody.
  apply bind_Ok_inv in Hbody as (sample & Hsample & Hbody).
  apply bind_Ok_inv in Hbody as (generic & _ & Hbody).
  apply (for_range_partial (fun _ w' => header w' = header wav)) in Hbody.
  - split; [exact Hbody|]. intros i Hi.
    destruct (decide (i = k)) as [->|Hne]; [|apply Hdone; lia].
    exists sample. rewrite <- Hh. exact Hsample.
  - exact Hh.
  - intros j w2 w3 _ Hh2 Hinner.
    apply bind_Ok_inv in Hinner as (v & _ & Hinner).
    rewrite (Hput _ _ _ _ _ Hinner). exact Hh2.
Qed.

Lemma frames_of_frames (data : Bytes) (hdr : WavHeader) (n : nat) (conv : Z -> Z) :
  (forall i, (i < n)%nat ->
     exists f, readSampleFromData data (Z.of_nat i) hdr = Ok f) ->
  (forall v, -32768 <= v <= 32767 ->
     BitsPerSample hdr = 16 -> conv v = v) ->
  (forall v, 0 <= v <= 255 -> BitsPerSample hdr = 8 -> conv v = v) ->
  BitsPerSample hdr = 8 \/ BitsPerSample hdr = 16 ->
  forall i f, frames_of data hdr n !! i = Some f ->
    readSampleFromData data (Z.of_nat i) hdr = Ok f /\
    length f = Z.to_nat (NumChannels hdr) /\
    Forall (fun v => conv v = v) f.
Proof.
  intros Hall H16 H8 Hbits i f Hf.
  pose proof (lookup_lt_Some _ _ _ Hf) as Hi. rewrite frames_of_length in Hi.
  destruct (Hall i Hi) as (f' & Hf').
  rewrite (frames_of_lookup _ _ _ _ _ Hi Hf') in Hf. injection Hf as <-.
  split; [exact Hf'|].
  apply readSampleFromData_Ok_inv in Hf' as [Hlen Hslots].
  split; [exact Hlen|]. apply Forall_lookup. intros j x Hx.
  pose proof (lookup_lt_Some _ _ _ Hx) as Hj.
  destruct (Hslots j ltac:(lia)) as (x' & Hx' & (S8 & S16 & _)).
  rewrite Hx in Hx'. injection Hx' as <-.
  destruct Hbits as [E|E].
  - destruct (S8 E) as (b & _ & ->). apply H8; [apply byte_val_range|exact E].
  - apply H16; [apply (bLEtoInt16_Ok_inv _ _ _ (S16 E))|exact E].
Qed.

Lemma wrap8_small (v : Z) : 0 <= v <= 255 -> wrap8 v = v.
Proof. intros Hv. unfold wrap8. apply Z.mod_small. lia. Qed.

Lemma decodeAt_supported (bytes : Bytes) (off : Z) (hdr : WavHeader)
    (data : Bytes) :
  setupWithHeaderData (mkWavHeader 0 0 0 0 0 0 0 0 off) bytes = Ok hdr ->
  reslice bytes (off + 8) (ChunkSize hdr + off + 8) = Ok data ->
  BitsPerSample hdr = 8 \/ BitsPerSample hdr = 16 ->
  (forall i, (i < Z.to_nat (NumSamples hdr))%nat ->
     exists f, readSampleFromData data (Z.of_nat i) hdr = Ok f) ->
  decodeAt bytes off =
    Ok (decoded_as hdr (frames_of data hdr (Z.to_nat (NumSamples hdr)))).
Proof.
  intros Hsetup Hdata Hbits Hall. unfold decodeAt. rewrite Hsetup.
  cbn [mbind result_bind bind]. rewrite Hdata. cbn [mbind result_bind bind].
  pose proof (setupWithHeaderData_Ok_inv _ _ _ Hsetup)
    as (_ & Hnc & Hba & _ & Hcs & Hne & Hn & _).
  apply bLEtoUint16_Ok_inv in Hnc. apply bLEtoUint16_Ok_inv in Hba.
  apply bLEtoUint32_Ok_inv in Hcs.
  destruct (frame_count_floor (ChunkSize hdr) (BlockAlign hdr)) as (_ & Hq0 & _);
    [lia..|].
  rewrite <- Hn in Hq0.
  rewrite !(make_slice_Ok (NumSamples hdr)) by exact Hq0.
  cbn [mbind result_bind bind].
  set (n := Z.to_nat (NumSamples hdr)) in *.
  set (fs := frames_of data hdr n).
  unfold decoded_as.
  destruct (decide (BitsPerSample hdr = 8)) as [E8|E8].
  - destruct (decide (BitsPerSample hdr = 16)) as [?|_]; [lia|].
    rewrite rows_loop by lia. cbn [mbind result_bind bind].
    destruct (frame_loop_total (fun w => rows (Data8 w)) withData8 wrap8
                (fun w => Data16 w = None /\ Data8 w <> None)
                ltac:(reflexivity) ltac:(reflexivity) ltac:(reflexivity)
                ltac:(intros w d [? ?]; split; [assumption|discriminate])
                ltac:(reflexivity) ltac:(intros w g H; exact H)
                data hdr n (Z.to_nat (NumChannels hdr)) fs
                (frames_of_length _ _ _)
                (frames_of_frames data hdr n wrap8 Hall
                   ltac:(intros; lia) ltac:(intros; apply wrap8_small; lia) Hbits)
                (withData8 (mkWav hdr None None (replicate n []))
                   (replicate n (replicate (Z.to_nat (NumChannels hdr)) 0))))
      as (w' & Hrun & Hh & (Hk16 & Hk8) & HD & Hg).
    + reflexivity.
    + split; [reflexivity|discriminate].
    + apply length_replicate.
    + reflexivity.
    + destruct w' as [h' d8 d16 d]. cbn [header Data8 Data16 Data] in Hh, Hk16, Hk8, HD, Hg.
      destruct d8 as [d8|]; [|contradiction]. cbn [rows] in Hg.
      cbv beta in Hrun. rewrite Hrun, Hh, Hk16, HD, Hg. reflexivity.
  - destruct Hbits as [?|E16]; [contradiction|].
    destruct (decide (BitsPerSample hdr = 16)) as [_|?]; [|contradiction].
    rewrite rows_loop by lia. cbn [mbind result_bind bind].
    destruct (frame_loop_total (fun w => rows (Data16 w)) withData16 int16
                (fun w => Data8 w = None /\ Data16 w <> None)
                ltac:(reflexivity) ltac:(reflexivity) ltac:(reflexivity)
                ltac:(intros w d [? ?]; split; [assumption|discriminate])
                ltac:(reflexivity) ltac:(intros w g H; exact H)
                data hdr n (Z.to_nat (NumChannels hdr)) fs
                (frames_of_length _ _ _)
                (frames_of_frames data hdr n int16 Hall
                   ltac:(intros; apply int16_small; lia) ltac:(intros; lia)
                   (or_intror E16))
                (withData16 (mkWav hdr None None (replicate n []))
                   (replicate n (replicate (Z.to_nat (NumChannels hdr)) 0))))
      as (w' & Hrun & Hh & (Hk8 & Hk16) & HD & Hg).
    + reflexivity.
    + split; [reflexivity|discriminate].
    + apply length_replicate.
    + reflexivity.
    + destruct w' as [h' d8 d16 d]. cbn [header Data8 Data16 Data] in Hh, Hk16, Hk8, HD, Hg.
      destruct d16 as [d16|]; [|contradiction]. cbn [rows] in Hg.
      cbv beta in Hrun. rewrite Hrun, Hh, Hk8, HD, Hg. reflexivity.
Qed.

Lemma reslice_len (b s : Bytes) (lo hi : Z) :
  reslice b lo hi = Ok s -> len s = hi - lo.
Proof.
  unfold reslice, cap. destruct (decide _) as [Hb|]; [|discriminate].
  intros [= <-]. unfold len; simpl. rewrite length_take, length_drop. lia.
Qed.

Lemma decodeAt_supported_inv (bytes : Bytes) (off : Z) (w : Wav) :
  decodeAt bytes off = Ok w ->
  BitsPerSample (header w) = 8 \/ BitsPerSample (header w) = 16 ->
  exists data,
    reslice bytes (off + 8) (ChunkSize (header w) + off + 8) = Ok data /\
    (forall i, (i < Z.to_nat (NumSamples (header w)))%nat ->
       exists f, readSampleFromData data (Z.of_nat i) (header w) = Ok f) /\
    w = decoded_as (header w)
          (frames_of data (header w) (Z.to_nat (NumSamples (header w)))).
Proof.
  intros Hok Hbits. pose proof (decodeAt_header _ _ _ Hok) as Hhdr.
  pose proof Hok as Hrun. unfold decodeAt in Hrun. rewrite Hhdr in Hrun.
  cbn [mbind result_bind bind] in Hrun.
  set (hdr := header w) in *.
  apply bind_Ok_inv in Hrun as (data & Hdata & Hrun).
  apply bind_Ok_inv in Hrun as (generic & _ & Hrun).
  exists data. split; [exact Hdata|].
  assert (forall i, (i < Z.to_nat (NumSamples hdr))%nat ->
            exists f, readSampleFromData data (Z.of_nat i) hdr = Ok f) as Hall.
  { destruct (decide (BitsPerSample hdr = 8)) as [H8|H8];
      [|destruct (decide (BitsPerSample hdr = 16)) as [H16|H16]].
    - apply bind_Ok_inv in Hrun as (d0 & _ & Hrun).
      apply bind_Ok_inv in Hrun as (d8 & _ & Hrun).
      refine (frame_loop_reads data _ _
                (fun wav i ch v =>
                   d8 ← store2 (rows (Data8 wav)) i ch (wrap8 v);
                   Ok (withData8 wav d8)) _ _ _ Hrun).
      intros w0 i ch v w' Hput.
      apply bind_Ok_inv in Hput as (d & _ & Hput). injection Hput as <-. reflexivity.
    - apply bind_Ok_inv in Hrun as (d0 & _ & Hrun).
      apply bind_Ok_inv in Hrun as (d16 & _ & Hrun).
      refine (frame_loop_reads data _ _
                (fun wav i ch v =>
                   d16 ← store2 (rows (Data16 wav)) i ch (int16 v);
                   Ok (withData16 wav d16)) _ _ _ Hrun).
      intros w0 i ch v w' Hput.
      apply bind_Ok_inv in Hput as (d & _ & Hput). injection Hput as <-. reflexivity.
    - tauto. }
  split; [exact Hall|].
  pose proof (decodeAt_supported bytes off hdr data Hhdr Hdata Hbits Hall) as Heq.
  rewrite Hok in Heq. injection Heq as Heq. exact Heq.
Qed.

(** X4.  A bulk decode of a file of depth 8 or 16 is the per-frame decode
    applied to each frame index in turn: the generic table has frame-count
    entries, and entry i is what [readSampleFromData] returns for index i
    on the payload, the chunk-size bytes from 8 bytes behind the data
    marker; each entry has one slot per channel. *)
Theorem ReadWav_frames_by_frame_index (bytes : Bytes) (w : Wav) :
  ReadWav (ReadAllBytes bytes) = Ok w ->
  BitsPerSample (header w) = 8 \/ BitsPerSample (header w) = 16 ->
  exists data,
    reslice bytes (DataMarkerOffset (header w) + 8)
      (ChunkSize (header w) + DataMarkerOffset (header w) + 8) = Ok data /\
    len data = ChunkSize (header w) /\
    length (Data w) = Z.to_nat (NumSamples (header w)) /\
    forall i frame, Data w !! i = Some frame ->
      readSampleFromData data (Z.of_nat i) (header w) = Ok frame /\
      length frame = Z.to_nat (NumChannels (header w)).
Proof.
  unfold ReadWav. destruct (decide _) as [|Hfound]; [discriminate|].
  intros Hok Hbits.
  pose proof (decodeAt_header _ _ _ Hok) as Hhdr.
  apply setupWithHeaderData_offset in Hhdr. simpl in Hhdr. rewrite Hhdr.
  destruct (decodeAt_supported_inv _ _ _ Hok Hbits) as (data & Hdata & Hall & Hw).
  exists data. split; [exact Hdata|].
  split; [rewrite (reslice_len _ _ _ _ Hdata); lia|].
  apply (f_equal Data) in Hw. simpl in Hw. rewrite Hw.
  split; [apply frames_of_length|].
  intros i frame Hf.
  pose proof (lookup_lt_Some _ _ _ Hf) as Hi. rewrite frames_of_length in Hi.
  destruct (Hall i Hi) as (f & Hread).
  rewrite (frames_of_lookup _ _ _ _ _ Hi Hread) in Hf. injection Hf as <-.
  split; [exact Hread|]. apply (readSampleFromData_Ok_inv _ _ _ _ Hread).
Qed.

Lemma ReadWav_frames_by_frame_index_witness :
  exists data,
    reslice (exact stereoFile) (36 + 8) (4 + 36 + 8) = Ok data /\
    len data = 4 /\
    length [[1; 512]] = Z.to_nat 1 /\
    forall i frame, [[1; 512]] !! i = Some frame ->
      readSampleFromData data (Z.of_nat i)
        (mkWavHeader 1 2 44100 176400 4 16 4 1 36) = Ok frame /\
      length frame = Z.to_nat 2.
Proof.
  apply (ReadWav_frames_by_frame_index (exact stereoFile)
           (mkWav (mkWavHeader 1 2 44100 176400 4 16 4 1 36)
              None (Some [[1; 512]]) [[1; 512]])).
  - vm_compute. reflexivity.
  - right. reflexivity.
Defined.

(** X5.  The generic table of a decoded container is a copy of the table
    of its depth: for 8 bits [Data8] holds the same frames as [Data] and
    [Data16] is nil, for 16 bits [Data16] holds them and [Data8] is nil,
    and for any other depth both are nil. *)
Theorem ReadWav_Data_copies_depth_table (r : Source) (w : Wav) :
  ReadWav r = Ok w ->
  (BitsPerSample (header w) = 8 -> Data8 w = Some (Data w) /\ Data16 w = None) /\
  (BitsPerSample (header w) = 16 -> Data16 w = Some (Data w) /\ Data8 w = None) /\
  (BitsPerSample (header w) <> 8 -> BitsPerSample (header w) <> 16 ->
   Data8 w = None /\ Data16 w = None).
Proof.
  destruct r as [|e|bytes]; simpl; try discriminate.
  destruct (decide _) as [|Hfound]; [discriminate|]. intros Hok.
  split; [|split].
  - intros E8.
    destruct (decodeAt_supported_inv _ _ _ Hok (or_introl E8)) as (data & _ & _ & Hw).
    pose proof (f_equal Data8 Hw) as H8. pose proof (f_equal Data16 Hw) as H16.
    pose proof (f_equal Data Hw) as HD. simpl in H8, H16, HD.
    rewrite decide_True in H8 by exact E8. rewrite decide_False in H16 by lia.
    rewrite H8, H16, HD. auto.
  - intros E16.
    destruct (decodeAt_supported_inv _ _ _ Hok (or_intror E16)) as (data & _ & _ & Hw).
    pose proof (f_equal Data8 Hw) as H8. pose proof (f_equal Data16 Hw) as H16.
    pose proof (f_equal Data Hw) as HD. simpl in H8, H16, HD.
    rewrite decide_False in H8 by lia. rewrite decide_True in H16 by exact E16.
    rewrite H8, H16, HD. auto.
  - intros N8 N16. pose proof (decodeAt_header _ _ _ Hok) as Hhdr.
    unfold decodeAt in Hok. rewrite Hhdr in Hok. cbn [mbind result_bind bind] in Hok.
    apply bind_Ok_inv in Hok as (data & _ & Hok).
    apply bind_Ok_inv in Hok as (generic & _ & Hok).
    rewrite decide_False in Hok by exact N8.
    rewrite decide_False in Hok by exact N16.
    injection Hok as <-. auto.
Qed.

Lemma ReadWav_Data_copies_depth_table_witness :
  (BitsPerSample (header monoDecoded) = 8 ->
   Data8 monoDecoded = Some (Data monoDecoded) /\ Data16 monoDecoded = None) /\
  (BitsPerSample (header monoDecoded) = 16 ->
   Data16 monoDecoded = Some (Data monoDecoded) /\ Data8 monoDecoded = None) /\
  (BitsPerSample (header monoDecoded) <> 8 ->
   BitsPerSample (header monoDecoded) <> 16 ->
   Data8 monoDecoded = None /\ Data16 monoDecoded = None).
Proof.
  apply (ReadWav_Data_copies_depth_table (ReadAllBytes (exact monoFile))).
  vm_compute. reflexivity.
Defined.

(** X6.  Bulk decode succeeds on every buffer whose "data" marker is
    found and validated, whose fixed fields and chunk size lie inside it,
    whose depth is 8 or 16, whose block alignment is not zero and covers
    the bytes of one frame, and whose declared payload lies within its
    capacity: it returns chunk-size ÷ block-alignment frames of
    channel-count values each. *)
Theorem ReadWav_well_formed_succeeds (bytes : Bytes) (off nc ba bits cs : Z) :
  getDataMarkerOffset bytes = off -> off <> -1 ->
  checkHeader bytes off = Ok tt ->
  36 <= len bytes -> off + 8 <= len bytes ->
  bLEtoUint16 bytes NumChannelsOffset = Ok nc ->
  bLEtoUint16 bytes BlockAlignOffset = Ok ba ->
  bLEtoUint16 bytes BitsPerSampleOffset = Ok bits ->
  bLEtoUint32 bytes (off + 4) = Ok cs ->
  bits = 8 \/ bits = 16 ->
  ba <> 0 -> nc * sampleWidth bits <= ba ->
  off + 8 + cs <= cap bytes ->
  exists w,
    ReadWav (ReadAllBytes bytes) = Ok w /\
    NumChannels (header w) = nc /\ BitsPerSample (header w) = bits /\
    NumSamples (header w) = cs / ba /\
    length (Data w) = Z.to_nat (cs / ba) /\
    Forall (fun frame => length frame = Z.to_nat nc) (Data w).
Proof.
  intros Hoff Hfound Hck Hlen Hoff8 Hnc Hba Hbits Hcs Hdepth Hba0 Hfit Hcap.
  rewrite (ReadWav_found bytes off Hoff Hfound).
  assert (0 <= off) as Hpos.
  { apply checkHeader_Ok_inv in Hck as (_ & _ & _ & (H0 & _)). exact H0. }
  destruct (setupWithHeaderData_fields (mkWavHeader 0 0 0 0 0 0 0 0 off) bytes
              Hck Hlen Hoff8)
    as (af & nc' & sr & br & ba' & bits' & cs' & Hnc' & Hba' & Hbits' & Hcs'
        & Rnc & Rba & Rcs & Hsetup).
  simpl in Hcs'. rewrite Hnc in Hnc'. rewrite Hba in Hba'.
  rewrite Hbits in Hbits'. rewrite Hcs in Hcs'.
  injection Hnc' as <-. injection Hba' as <-.
  injection Hbits' as <-. injection Hcs' as <-.
  destruct (frame_count_floor cs ba) as (Hq & Hq0 & Hqle); [lia..|].
  unfold int_div in Hsetup. rewrite decide_False in Hsetup by exact Hba0.
  cbn [mbind result_bind bind] in Hsetup. simpl in Hsetup.
  set (hdr := mkWavHeader af nc sr br ba bits cs (Z.quot cs ba) off) in *.
  destruct (reslice_Ok_or_Panic bytes (off + 8) (ChunkSize hdr + off + 8))
    as [[data Hdata]|Hpanic].
  2:{ unfold reslice in Hpanic. simpl in Hpanic.
      rewrite decide_True in Hpanic by lia. discriminate. }
  pose proof (reslice_len _ _ _ _ Hdata) as Hdlen. simpl in Hdlen.
  assert (forall i, (i < Z.to_nat (NumSamples hdr))%nat ->
            exists f, readSampleFromData data (Z.of_nat i) hdr = Ok f) as Hall.
  { intros i Hi. simpl in Hi.
    assert ((Z.of_nat i + 1) * ba <= cs) as Hrow by nia.
    apply readSampleFromData_total; simpl.
    - lia.
    - intros E c Hc. unfold sampleWidth in Hfit.
      rewrite decide_True in Hfit by exact E. nia.
    - intros E c Hc. unfold sampleWidth in Hfit.
      rewrite decide_False in Hfit by lia.
      rewrite decide_True in Hfit by exact E. nia. }
  rewrite (decodeAt_supported bytes off hdr data Hsetup Hdata Hdepth Hall).
  eexists. split; [reflexivity|]. unfold decoded_as; simpl.
  split; [reflexivity|]. split; [reflexivity|]. split; [exact Hq|].
  split; [rewrite frames_of_length, Hq; reflexivity|].
  apply Forall_lookup. intros i frame Hf.
  pose proof (lookup_lt_Some _ _ _ Hf) as Hi. rewrite frames_of_length in Hi.
  destruct (Hall i Hi) as (f & Hread).
  rewrite (frames_of_lookup _ _ _ _ _ Hi Hread) in Hf. injection Hf as <-.
  apply (readSampleFromData_Ok_inv _ _ _ _ Hread).
Qed.

Lemma ReadWav_well_formed_succeeds_witness :
  exists w,
    ReadWav (ReadAllBytes (exact stereoFile)) = Ok w /\
    NumChannels (header w) = 2 /\ BitsPerSample (header w) = 16 /\
    NumSamples (header w) = 4 / 4 /\
    length (Data w) = Z.to_nat (4 / 4) /\
    Forall (fun frame => length frame = Z.to_nat 2) (Data w).
Proof.
  apply (ReadWav_well_formed_succeeds (exact stereoFile) 36 2 4 16 4);
    try (vm_compute; congruence).
  right. reflexivity.
Defined.

(** ** Errors of the bulk decoder *)

Lemma occurs_at_has_marker (bytes : Bytes) (k : nat) :
  occurs_at (elems bytes) (marker "data") k ->
  has_marker bytes (Z.of_nat k) "data".
Proof.
  unfold occurs_at, has_marker, cap, backing. intros Hoc.
  assert (length (drop k (elems bytes)) >= 4)%nat as Hlen.
  { destruct (le_lt_dec 4 (length (drop k (elems bytes)))) as [Hge|Hlt]; [lia|].
    apply (f_equal length) in Hoc. rewrite length_take in Hoc.
    change (length (marker "data")) with 4%nat in Hoc. lia. }
  rewrite length_drop in Hlen. rewrite length_app. rewrite Nat2Z.id.
  split; [lia|]. split; [lia|].
  rewrite drop_app_le by lia. rewrite take_app_le by (rewrite length_drop; lia).
  exact Hoc.
Qed.

(** X7.  The errors [ReadWav] can return: the invalid-reader error for a
    nil reader, the error of [ReadAll] unchanged, and on a buffer either
    the not-found error or the error naming "RIFF", "WAVE" or "fmt".  The
    error naming "data" is never returned, since the validator is handed
    the offset at which the marker was just found, and the decoding loops
    return no error at all. *)
Theorem ReadWav_errors (r : Source) (e : error) :
  ReadWav r = Err e ->
  (r = NilReader /\ e = errors_New "wav: Invalid Reader") \/
  r = ReadAllError e \/
  (exists bytes, r = ReadAllBytes bytes /\
     ((getDataMarkerOffset bytes = -1 /\ e = errors_New "data header not found") \/
      (getDataMarkerOffset bytes <> -1 /\
       checkHeader bytes (getDataMarkerOffset bytes) = Err e /\
       (e = errors_New "wav: Header does not contain 'RIFF'" \/
        e = errors_New "wav: Header does not contain 'WAVE'" \/
        e = errors_New "wav: Header does not contain 'fmt'")))).
Proof.
  destruct r as [|e'|bytes]; simpl.
  - intros [= <-]. left. auto.
  - intros [= <-]. right; left. reflexivity.
  - intros Herr. right; right. exists bytes. split; [reflexivity|].
    destruct (decide (getDataMarkerOffset bytes = -1)) as [Hm|Hm].
    + left. injection Herr as <-. auto.
    + right. split; [exact Hm|]. apply decodeAt_Err_inv in Herr.
      split; [exact Herr|].
      destruct (getDataMarkerOffset_spec bytes) as [[Hm' _]|(k & Hk & Hoc & _)];
        [contradiction|].
      rewrite Hk in Herr. apply occurs_at_has_marker in Hoc.
      destruct (checkHeader_cases bytes (Z.of_nat k))
        as [(_ & E)|[(_ & _ & E)|[(_ & _ & _ & E)|[(_ & _ & _ & M & _)
           |[(_ & _ & _ & _ & E)|(_ & E)]]]]];
        try (rewrite E in Herr; first [discriminate|injection Herr as <-; auto]).
      destruct (has_marker_not_mismatch _ _ _ Hoc M).
Qed.

Lemma ReadWav_errors_witness :
  (ReadAllBytes (exact (marker "RIFF????WAVXfmt data")) = NilReader /\
   errors_New "wav: Header does not contain 'WAVE'"
   = errors_New "wav: Invalid Reader") \/
  ReadAllBytes (exact (marker "RIFF????WAVXfmt data"))
  = ReadAllError (errors_New "wav: Header does not contain 'WAVE'") \/
  (exists bytes,
     ReadAllBytes (exact (marker "RIFF????WAVXfmt data")) = ReadAllBytes bytes /\
     ((getDataMarkerOffset bytes = -1 /\
       errors_New "wav: Header does not contain 'WAVE'"
       = errors_New "data header not found") \/
      (getDataMarkerOffset bytes <> -1 /\
       checkHeader bytes (getDataMarkerOffset bytes)
       = Err (errors_New "wav: Header does not contain 'WAVE'") /\
       (errors_New "wav: Header does not contain 'WAVE'"
        = errors_New "wav: Header does not contain 'RIFF'" \/
        errors_New "wav: Header does not contain 'WAVE'"
        = errors_New "wav: Header does not contain 'WAVE'" \/
        errors_New "wav: Header does not contain 'WAVE'"
        = errors_New "wav: Header does not contain 'fmt'")))).
Proof.
  apply ReadWav_errors. vm_compute. reflexivity.
Defined.

(** ** Frames of an unsupported depth *)

Lemma for_range_id {St : Type} (i : Z) (n : nat) (s : St) :
  for_range i n (fun _ s => Ok s) s = Ok s.
Proof. revert i; induction n as [|n IH]; intros i; simpl; [reflexivity|apply IH]. Qed.

Lemma readSampleFromData_unsupported (data : Bytes) (i : Z) (h : WavHeader) :
  0 <= NumChannels h -> BitsPerSample h <> 8 -> BitsPerSample h <> 16 ->
  readSampleFromData data i h = Ok (replicate (Z.to_nat (NumChannels h)) 0).
Proof.
  intros HC N8 N16. unfold readSampleFromData.
  rewrite make_slice_Ok by exact HC. cbn [mbind result_bind bind].
  rewrite (for_range_ext _ (fun _ s => Ok s)); [apply for_range_id|].
  intros k s _. rewrite decide_False by exact N8.
  rewrite decide_False by exact N16. reflexivity.
Qed.

(** X8.  A streaming pull on a container whose depth is neither 8 nor 16
    reads no sample byte: after an aligned read of R bytes it returns
    R ÷ block-alignment frames, each made of channel-count zeros, whatever
    the bytes read were (where bulk decode leaves such frames nil). *)
Theorem ReadSamples_unsupported_depth_zero_fills {R : Type} `{Reader R}
    (wav : StreamedWav R) (N amountRead : Z) (data : Bytes) (reader : R) :
  0 <= N -> N * BlockAlign (sheader wav) < 2 ^ 63 ->
  0 < BlockAlign (sheader wav) -> 0 <= NumChannels (sheader wav) ->
  BitsPerSample (sheader wav) <> 8 -> BitsPerSample (sheader wav) <> 16 ->
  callRead (sreader wav)
    (exact (replicate (Z.to_nat (N * BlockAlign (sheader wav))) x00))
    = (amountRead, data, None, reader) ->
  (BlockAlign (sheader wav) | amountRead) ->
  fst (ReadSamples wav N) =
    Ok (replicate (Z.to_nat (amountRead / BlockAlign (sheader wav)))
          (replicate (Z.to_nat (NumChannels (sheader wav))) 0)).
Proof.
  intros HN Hfit Hba HC N8 N16 Hread Hdiv. unfold ReadSamples.
  rewrite int64_small by nia. unfold make_bytes. rewrite decide_True by nia.
  rewrite Hread. simpl. apply callRead_spec in Hread as [Hn Hlen].
  destruct (decodeBatch_aligned wav Hba HC) with (data := data)
    (amountRead := amountRead) as (frames & -> & Hcount & Hframes).
  - unfold sampleWidth. rewrite decide_False by exact N8.
    rewrite decide_False by exact N16. lia.
  - lia.
  - exact Hdiv.
  - f_equal.
    apply (list_eq_same_length _ _ (Z.to_nat (amountRead / BlockAlign (sheader wav))));
      [apply length_replicate|lia|].
    intros i x y Hi Hx Hy. apply Hframes in Hx.
    rewrite readSampleFromData_unsupported in Hx by assumption.
    apply lookup_replicate in Hy as [-> _]. congruence.
Qed.

Lemma ReadSamples_unsupported_depth_zero_fills_witness :
  fst (ReadSamples (mkStreamedWav (mkWavHeader 1 1 44100 132300 3 24 3 1 0)
                      [x01; x02; x03]) 1) =
    Ok (replicate (Z.to_nat (3 / 3)) (replicate (Z.to_nat 1) 0)).
Proof.
  apply (ReadSamples_unsupported_depth_zero_fills
           (mkStreamedWav (mkWavHeader 1 1 44100 132300 3 24 3 1 0)
              [x01; x02; x03]) 1 3 (exact [x01; x02; x03]) []);
    try (vm_compute; congruence).
  exists 1. reflexivity.
Defined.

(** ** Pulls on an in-memory stream *)

(** What one read of an in-memory stream delivers. *)
Lemma callRead_bytes (s : list byte) (m : nat) :
  s <> [] ->
  callRead s (exact (replicate m x00)) =
    (Z.of_nat (min m (length s)),
     exact (take m s ++ replicate (m - length s) x00),
     None, drop m s).
Proof.
  intros Hs. unfold callRead, Read, bytes_Reader.
  destruct s as [|c s]; [contradiction|].
  cbn [elems exact spare]. rewrite length_replicate.
  rewrite take_take, Nat.min_id, length_take, drop_replicate.
  replace (m - m `min` length (c :: s))%nat with (m - length (c :: s))%nat by lia.
  reflexivity.
Qed.

Lemma callRead_bytes_empty (p : Bytes) :
  callRead ([] : list byte) p = (0, p, Some EOF, []).
Proof.
  unfold callRead, Read, bytes_Reader. rewrite take_nil. simpl.
  rewrite drop_0. destruct p; reflexivity.
Qed.

Lemma ReadSamples_bytes (h : WavHeader) (s : list byte) (N : Z) :
  0 < BlockAlign h -> 0 <= NumChannels h ->
  NumChannels h * sampleWidth (BitsPerSample h) <= BlockAlign h ->
  0 <= N -> N * BlockAlign h < 2 ^ 63 -> s <> [] ->
  let m := Z.min (N * BlockAlign h) (Z.of_nat (length s)) in
  snd (ReadSamples (mkStreamedWav h s) N) =
    mkStreamedWav h (drop (Z.to_nat (N * BlockAlign h)) s) /\
  (~ (BlockAlign h | m) ->
   fst (ReadSamples (mkStreamedWav h s) N) =
     Err (errors_New "wav: Read an invalid amount of data")) /\
  ((BlockAlign h | m) ->
   exists frames,
     fst (ReadSamples (mkStreamedWav h s) N) = Ok frames /\
     Z.of_nat (length frames) = m / BlockAlign h /\
     forall i frame, frames !! i = Some frame ->
       readSampleFromData (exact s) (Z.of_nat i) h = Ok frame).
Proof.
  intros Hba HC Hfit HN Hbig Hs m. unfold ReadSamples.
  cbn [sheader sreader]. rewrite int64_small by nia.
  unfold make_bytes. rewrite decide_True by nia.
  set (M := Z.to_nat (N * BlockAlign h)).
  rewrite (callRead_bytes s M Hs).
  assert (Z.of_nat (min M (length s)) = m) as Hm by (unfold m, M; lia).
  rewrite Hm. cbn [fst snd].
  split; [reflexivity|]. split.
  - intros Hnd.
    apply (decodeBatch_misaligned (mkStreamedWav h s)); assumption.
  - intros Hdiv.
    destruct (decodeBatch_aligned (mkStreamedWav h s) Hba HC Hfit)
      with (data := exact (take M s ++ replicate (M - length s) x00))
           (amountRead := m) as (frames & Hrun & Hcount & Hframes).
    + unfold len, exact; cbn [elems]. rewrite length_app, length_take, length_replicate.
      unfold m, M. lia.
    + exact Hdiv.
    + exists frames. split; [exact Hrun|]. split; [exact Hcount|].
      intros i frame Hf. pose proof (lookup_lt_Some _ _ _ Hf) as Hi.
      apply Hframes in Hf. cbn [sheader elems exact] in Hf.
      rewrite take_app_le in Hf by (rewrite length_take; lia).
      rewrite take_take in Hf.
      replace (Z.to_nat m `min` M)%nat with (Z.to_nat m) in Hf by lia.
      rewrite <- Hf. symmetry.
      assert (m / BlockAlign h * BlockAlign h = m) as Hexact.
      { destruct Hdiv as [q ->]. rewrite Z.div_mul by lia. reflexivity. }
      assert ((Z.of_nat i + 1) * BlockAlign h <= m) as Hend.
      { cbn [sheader] in Hcount. revert Hexact Hcount.
        generalize (m / BlockAlign h). intros q Hq Hc. nia. }
      assert (0 <= m) as Hm0 by (unfold m; lia).
      apply (readSampleFromData_prefix (exact s)).
      * cbn [elems exact]. lia.
      * intros E c Hc. rewrite Z2Nat.id by lia.
        unfold sampleWidth in Hfit. rewrite E in Hfit.
        rewrite decide_True in Hfit by reflexivity. nia.
      * intros E c Hc. rewrite Z2Nat.id by lia.
        unfold sampleWidth in Hfit. rewrite E in Hfit.
        rewrite decide_False in Hfit by discriminate.
        rewrite decide_True in Hfit by reflexivity. nia.
Qed.

Lemma ReadSamples_bytes_empty (h : WavHeader) (N : Z) :
  0 <= N * BlockAlign h < 2 ^ 63 ->
  ReadSamples (mkStreamedWav h ([] : list byte)) N =
    (Err EOF, mkStreamedWav h []).
Proof.
  intros HN. unfold ReadSamples. cbn [sheader sreader].
  rewrite int64_small by lia. unfold make_bytes. rewrite decide_True by lia.
  rewrite callRead_bytes_empty. reflexivity.
Qed.

(** X9.  A pull of N frames on an in-memory stream, for a header whose
    block alignment is positive and holds a frame's bytes.  On an exhausted
    stream the pull returns the end-of-file error, also for N = 0.
    Otherwise the stream advances by N × block-alignment bytes (to its end
    when fewer are left), and with m the number of bytes taken: if m is no
    multiple of the block alignment the pull fails with the misaligned-read
    error, else it returns m ÷ block-alignment frames, frame i being the
    per-frame decode of index i on the stream's bytes; so a pull near the
    end returns fewer frames than asked for. *)
Theorem ReadSamples_in_memory (h : WavHeader) (s : list byte) (N : Z) :
  0 < BlockAlign h -> 0 <= NumChannels h ->
  NumChannels h * sampleWidth (BitsPerSample h) <= BlockAlign h ->
  0 <= N -> N * BlockAlign h < 2 ^ 63 ->
  let m := Z.min (N * BlockAlign h) (Z.of_nat (length s)) in
  (s = [] ->
   ReadSamples (mkStreamedWav h s) N = (Err EOF, mkStreamedWav h [])) /\
  (s <> [] ->
   snd (ReadSamples (mkStreamedWav h s) N) =
     mkStreamedWav h (drop (Z.to_nat (N * BlockAlign h)) s) /\
   (~ (BlockAlign h | m) ->
    fst (ReadSamples (mkStreamedWav h s) N) =
      Err (errors_New "wav: Read an invalid amount of data")) /\
   ((BlockAlign h | m) ->
    exists frames,
      fst (ReadSamples (mkStreamedWav h s) N) = Ok frames /\
      Z.of_nat (length frames) = m / BlockAlign h /\
      forall i frame, frames !! i = Some frame ->
        readSampleFromData (exact s) (Z.of_nat i) h = Ok frame)).
Proof.
  intros Hba HC Hfit HN Hbig m. split.
  - intros ->. apply ReadSamples_bytes_empty. nia.
  - intros Hs. apply ReadSamples_bytes; assumption.
Qed.

Lemma ReadSamples_in_memory_witness :
  (stereoPayload = [] ->
   ReadSamples (mkStreamedWav (mkWavHeader 1 2 44100 176400 4 16 4 1 36)
                  stereoPayload) 3 =
     (Err EOF, mkStreamedWav (mkWavHeader 1 2 44100 176400 4 16 4 1 36) [])) /\
  (stereoPayload <> [] ->
   snd (ReadSamples (mkStreamedWav (mkWavHeader 1 2 44100 176400 4 16 4 1 36)
                       stereoPayload) 3) =
     mkStreamedWav (mkWavHeader 1 2 44100 176400 4 16 4 1 36)
       (drop (Z.to_nat (3 * 4)) stereoPayload) /\
   (~ (4 | Z.min (3 * 4) (Z.of_nat (length stereoPayload))) ->
    fst (ReadSamples (mkStreamedWav (mkWavHeader 1 2 44100 176400 4 16 4 1 36)
                        stereoPayload) 3) =
      Err (errors_New "wav: Read an invalid amount of data")) /\
   ((4 | Z.min (3 * 4) (Z.of_nat (length stereoPayload))) ->
    exists frames,
      fst (ReadSamples (mkStreamedWav (mkWavHeader 1 2 44100 176400 4 16 4 1 36)
                          stereoPayload) 3) = Ok frames /\
      Z.of_nat (length frames) =
        Z.min (3 * 4) (Z.of_nat (length stereoPayload)) / 4 /\
      forall i frame, frames !! i = Some frame ->
        readSampleFromData (exact stereoPayload) (Z.of_nat i)
          (mkWavHeader 1 2 44100 176400 4 16 4 1 36) = Ok frame)).
Proof.
  apply (ReadSamples_in_memory (mkWavHeader 1 2 44100 176400 4 16 4 1 36)
           stereoPayload 3); vm_compute; congruence.
Defined.

(** Reading behind [k] consumed bytes is reading [k] bytes further on. *)
Lemma index_drop (s : list byte) (k : nat) (x : Z) :
  (k <= length s)%nat -> 0 <= x ->
  index (exact (drop k s)) x = index (exact s) (Z.of_nat k + x).
Proof.
  intros Hk Hx. unfold index, len, exact; cbn [elems].
  rewrite length_drop, lookup_drop.
  replace (Z.to_nat (Z.of_nat k + x)) with (k + Z.to_nat x)%nat by lia.
  destruct (decide (0 <= x < Z.of_nat (length s - k))) as [Hin|Hout].
  - rewrite decide_True by lia. reflexivity.
  - rewrite decide_False by lia. reflexivity.
Qed.

Lemma bLEtoInt16_drop (s : list byte) (k : nat) (x : Z) :
  (k <= length s)%nat -> 0 <= x ->
  bLEtoInt16 (exact (drop k s)) x = bLEtoInt16 (exact s) (Z.of_nat k + x).
Proof.
  intros Hk Hx. unfold bLEtoInt16.
  rewrite !index_drop by lia.
  replace (Z.of_nat k + (x + 1)) with (Z.of_nat k + x + 1) by lia. reflexivity.
Qed.

Lemma readSampleFromData_drop (s : list byte) (k : nat) (j i : Z) (h : WavHeader) :
  (k <= length s)%nat -> 0 <= j -> 0 <= i -> 0 <= NumChannels h ->
  Z.of_nat k = j * (NumChannels h * sampleWidth (BitsPerSample h)) ->
  readSampleFromData (exact (drop k s)) i h =
  readSampleFromData (exact s) (j + i) h.
Proof.
  intros Hk Hj Hi HC Hstride. unfold readSampleFromData.
  destruct (make_slice (NumChannels h) 0) as [s0| |]; simpl; try reflexivity.
  apply for_range_ext. intros c s1 Hc. rewrite Z.add_0_l.
  unfold sampleWidth in Hstride.
  destruct (decide (BitsPerSample h = 8)) as [E8|E8];
    [|destruct (decide (BitsPerSample h = 16)) as [E16|E16]].
  - rewrite index_drop by nia.
    replace (Z.of_nat k + (i * NumChannels h + Z.of_nat c))
      with ((j + i) * NumChannels h + Z.of_nat c) by lia.
    reflexivity.
  - rewrite bLEtoInt16_drop by nia.
    replace (Z.of_nat k + (2 * i * NumChannels h + Z.of_nat c))
      with (2 * (j + i) * NumChannels h + Z.of_nat c) by lia.
    reflexivity.
  - reflexivity.
Qed.

(** X10.  Pulls compose when the block alignment is exactly the bytes of
    one frame (channel-count × bytes-per-sample): on an in-memory stream
    that holds at least N1 + N2 frames, a pull of N1 frames followed by a
    pull of N2 >= 1 frames returns the frames a single pull of N1 + N2
    returns, in the same order, and leaves the stream at the same place. *)
Theorem ReadSamples_sequential_pulls (h : WavHeader) (s : list byte) (N1 N2 : Z) :
  0 < BlockAlign h -> 0 <= NumChannels h ->
  BlockAlign h = NumChannels h * sampleWidth (BitsPerSample h) ->
  0 <= N1 -> 1 <= N2 ->
  (N1 + N2) * BlockAlign h <= Z.of_nat (length s) ->
  (N1 + N2) * BlockAlign h < 2 ^ 63 ->
  exists f1 wav1 f2 wav2,
    ReadSamples (mkStreamedWav h s) N1 = (Ok f1, wav1) /\
    ReadSamples wav1 N2 = (Ok f2, wav2) /\
    ReadSamples (mkStreamedWav h s) (N1 + N2) = (Ok (f1 ++ f2), wav2).
Proof.
  intros Hba HC Hstride HN1 HN2 Hlen Hbig.
  assert (s <> []) as Hs by (intros ->; simpl in Hlen; nia).
  set (k := Z.to_nat (N1 * BlockAlign h)).
  assert (drop k s <> []) as Hs2.
  { intros E. apply (f_equal length) in E. rewrite length_drop in E.
    simpl in E. unfold k in E. nia. }
  assert (forall N, 0 <= N -> N * BlockAlign h <= Z.of_nat (length s) ->
            Z.min (N * BlockAlign h) (Z.of_nat (length s)) / BlockAlign h = N) as Hq.
  { intros N HN Hle. rewrite Z.min_l by exact Hle. apply Z.div_mul. lia. }
  assert (forall N l, N * BlockAlign h <= l ->
            (BlockAlign h | Z.min (N * BlockAlign h) l)) as Hd.
  { intros N l Hle. rewrite Z.min_l by exact Hle. exists N. reflexivity. }
  destruct (ReadSamples_bytes h s N1) as (Hw1 & _ & Hf1); try assumption; try nia.
  destruct Hf1 as (f1 & Hr1 & Hc1 & Hfr1); [apply Hd; nia|].
  rewrite Hq in Hc1 by nia. fold k in Hw1.
  destruct (ReadSamples_bytes h (drop k s) N2) as (Hw2 & _ & Hf2);
    try assumption; try nia; try lia.
  assert (N2 * BlockAlign h <= Z.of_nat (length (drop k s))) as Hlen2
    by (rewrite length_drop; unfold k; nia).
  destruct Hf2 as (f2 & Hr2 & Hc2 & Hfr2); [apply Hd; exact Hlen2|].
  rewrite Z.min_l in Hc2 by exact Hlen2. rewrite Z.div_mul in Hc2 by lia.
  destruct (ReadSamples_bytes h s (N1 + N2)) as (Hw & _ & Hf); try assumption; try nia.
  destruct Hf as (f & Hr & Hc & Hfr); [apply Hd; exact Hlen|].
  rewrite Hq in Hc by nia.
  exists f1, (mkStreamedWav h (drop k s)), f2,
    (mkStreamedWav h (drop (Z.to_nat (N2 * BlockAlign h)) (drop k s))).
  split; [rewrite (surjective_pairing (ReadSamples _ N1)), Hw1, Hr1; reflexivity|].
  split; [rewrite (surjective_pairing (ReadSamples _ N2)), Hw2, Hr2; reflexivity|].
  rewrite (surjective_pairing (ReadSamples _ (N1 + N2))), Hw, Hr.
  f_equal.
  - f_equal. apply (list_eq_same_length _ _ (length f)); [|reflexivity|].
    + rewrite length_app. lia.
    + intros i x y Hi Hx Hy. apply Hfr in Hx.
      destruct (decide (i < length f1)%nat) as [Hlt|Hge].
      * rewrite lookup_app_l in Hy by exact Hlt. apply Hfr1 in Hy. congruence.
      * rewrite lookup_app_r in Hy by lia. apply Hfr2 in Hy.
        rewrite (readSampleFromData_drop s k N1) in Hy
          by (unfold k; first [assumption|rewrite <- Hstride; lia|nia]).
        replace (N1 + Z.of_nat (i - length f1)) with (Z.of_nat i) in Hy by lia.
        congruence.
  - f_equal. rewrite drop_drop. f_equal. unfold k. nia.
Qed.

Lemma ReadSamples_sequential_pulls_witness :
  exists f1 wav1 f2 wav2,
    ReadSamples (mkStreamedWav (mkWavHeader 1 1 44100 88200 2 16 4 2 36)
                   (le16 100 ++ le16 (-100))) 1 = (Ok f1, wav1) /\
    ReadSamples wav1 1 = (Ok f2, wav2) /\
    ReadSamples (mkStreamedWav (mkWavHeader 1 1 44100 88200 2 16 4 2 36)
                   (le16 100 ++ le16 (-100))) (1 + 1) = (Ok (f1 ++ f2), wav2).
Proof.
  apply (ReadSamples_sequential_pulls (mkWavHeader 1 1 44100 88200 2 16 4 2 36)
           (le16 100 ++ le16 (-100)) 1 1); vm_compute; congruence.
Defined.

(** X11.  Streaming agrees with bulk decode.  For a file of depth 8 or 16
    that [ReadWav] decodes, with a block alignment that holds a frame's
    bytes: one pull of frame-count frames on the payload bytes, under the
    decoded header, returns the generic table [Data] of the bulk decode.
    An empty payload is the exception: bulk decode returns no frames, the
    pull returns the end-of-file error. *)
Theorem ReadSamples_agrees_with_ReadWav (bytes data : Bytes) (w : Wav) :
  ReadWav (ReadAllBytes bytes) = Ok w ->
  BitsPerSample (header w) = 8 \/ BitsPerSample (header w) = 16 ->
  NumChannels (header w) * sampleWidth (BitsPerSample (header w))
    <= BlockAlign (header w) ->
  reslice bytes (DataMarkerOffset (header w) + 8)
    (ChunkSize (header w) + DataMarkerOffset (header w) + 8) = Ok data ->
  (0 < ChunkSize (header w) ->
   fst (ReadSamples (mkStreamedWav (header w) (elems data))
          (NumSamples (header w))) = Ok (Data w)) /\
  (ChunkSize (header w) = 0 ->
   fst (ReadSamples (mkStreamedWav (header w) (elems data))
          (NumSamples (header w))) = Err EOF /\ Data w = []).
Proof.
  unfold ReadWav. destruct (decide _) as [|Hfound]; [discriminate|].
  intros Hok Hbits Hfit Hdata.
  pose proof (decodeAt_header _ _ _ Hok) as Hhdr.
  pose proof (setupWithHeaderData_offset _ _ _ Hhdr) as Hoff. simpl in Hoff.
  rewrite Hoff in Hdata.
  destruct (decodeAt_supported_inv _ _ _ Hok Hbits) as (data' & Hdata' & Hall & Hw).
  rewrite Hdata in Hdata'. injection Hdata' as <-.
  pose proof (setupWithHeaderData_Ok_inv _ _ _ Hhdr)
    as (_ & Hnc & Hba & _ & Hcs & Hne & Hn & _).
  apply bLEtoUint16_Ok_inv in Hnc. apply bLEtoUint16_Ok_inv in Hba.
  apply bLEtoUint32_Ok_inv in Hcs.
  destruct (frame_count_floor (ChunkSize (header w)) (BlockAlign (header w)))
    as (Hq & Hq0 & Hqle); [lia..|].
  rewrite <- Hn in Hq, Hq0, Hqle.
  pose proof (reslice_len _ _ _ _ Hdata) as Hlen. unfold len in Hlen.
  apply (f_equal Data) in Hw. simpl in Hw.
  set (hdr := header w) in *. set (n := NumSamples hdr) in *.
  split.
  - intros Hpos.
    destruct (ReadSamples_bytes hdr (elems data) n) as (_ & _ & Hf);
      try assumption; try lia.
    { intros E. rewrite E in Hlen. simpl in Hlen. lia. }
    destruct Hf as (frames & Hr & Hc & Hfr).
    { rewrite Z.min_l by lia. exists n. reflexivity. }
    rewrite Z.min_l in Hc by lia. rewrite Z.div_mul in Hc by lia.
    rewrite Hr, Hw. f_equal.
    apply (list_eq_same_length _ _ (Z.to_nat n));
      [apply frames_of_length|lia|].
    intros i x y Hi Hx Hy. apply Hfr in Hx.
    assert (readSampleFromData data (Z.of_nat i) hdr = Ok x) as Hx'.
    { rewrite <- Hx. unfold readSampleFromData.
      destruct (make_slice (NumChannels hdr) 0) as [s0| |]; reflexivity. }
    rewrite (frames_of_lookup _ _ _ _ _ Hi Hx') in Hy. congruence.
  - intros Hzero.
    assert (elems data = []) as ->
      by (apply length_zero_iff_nil; lia).
    assert (n = 0) as Hn0 by nia.
    rewrite ReadSamples_bytes_empty by (rewrite Hn0; simpl; lia).
    split; [reflexivity|]. rewrite Hw, Hn0. reflexivity.
Qed.

Lemma ReadSamples_agrees_with_ReadWav_witness :
  (0 < ChunkSize (header monoDecoded) ->
   fst (ReadSamples (mkStreamedWav (header monoDecoded)
                       (elems (exact (le16 100 ++ le16 (-100)))))
          (NumSamples (header monoDecoded))) = Ok (Data monoDecoded)) /\
  (ChunkSize (header monoDecoded) = 0 ->
   fst (ReadSamples (mkStreamedWav (header monoDecoded)
                       (elems (exact (le16 100 ++ le16 (-100)))))
          (NumSamples (header monoDecoded))) = Err EOF /\
   Data monoDecoded = []).
Proof.
  apply (ReadSamples_agrees_with_ReadWav (exact monoFile)).
  - vm_compute. reflexivity.
  - right. reflexivity.
  - vm_compute. congruence.
  - vm_compute. reflexivity.
Defined.

(** ** Stream acquisition on an in-memory stream *)

Lemma Contains_occurs (s sub : list byte) :
  Contains s sub = true <-> exists k, occurs_at s sub k.
Proof.
  unfold Contains, Index.
  destruct (IndexFrom_spec sub s 0) as [[-> Hno]|(k & -> & Hoc & _)].
  - split; [discriminate|]. intros [k Hk]. destruct (Hno k Hk).
  - split; [eauto|]. intros _. apply Z.leb_le. lia.
Qed.

Lemma occurs_at_take (s : list byte) (j k : nat) :
  occurs_at (take j s) (marker "data") k <->
  occurs_at s (marker "data") k /\ (k + 4 <= j)%nat.
Proof.
  unfold occurs_at. change (length (marker "data")) with 4%nat.
  split.
  - intros Hoc.
    assert (k + 4 <= j)%nat as Hj.
    { apply (f_equal length) in Hoc.
      rewrite length_take, length_drop, length_take in Hoc.
      change (length (marker "data")) with 4%nat in Hoc. lia. }
    split; [|exact Hj]. rewrite <- Hoc.
    replace j with (k + (j - k))%nat at 1 by lia.
    rewrite <- take_drop_commute, take_take.
    f_equal. lia.
  - intros [Hoc Hj]. rewrite <- Hoc.
    replace j with (k + (j - k))%nat at 1 by lia.
    rewrite <- take_drop_commute, take_take.
    f_equal. lia.
Qed.

Lemma callRead_one (c : byte) (s : list byte) :
  callRead (c :: s) (exact [x00]) = (1, exact [c], None, s).
Proof. reflexivity. Qed.

Lemma scanForData_bytes_from (s : list byte) (fuel j : nat) :
  (j <= length s)%nat -> (length s - j < fuel)%nat ->
  (forall k, occurs_at s (marker "data") k ->
     (forall i, (i < k)%nat -> ~ occurs_at s (marker "data") i) ->
     (j <= k + 4)%nat ->
     scanForData fuel (drop j s) (take j s) (Z.of_nat j) =
       Some (drop (k + 4) s, Z.of_nat (k + 4))) /\
  ((forall k, ~ occurs_at s (marker "data") k) ->
   scanForData fuel (drop j s) (take j s) (Z.of_nat j) =
     Some ([], Z.of_nat (length s))).
Proof.
  revert j; induction fuel as [|fuel IH]; intros j Hj Hfuel; [lia|].
  split.
  - intros k Hoc Hfirst Hjk. simpl.
    destruct (Contains (take j s) (marker "data")) eqn:Hc.
    + apply Contains_occurs in Hc as [k' Hk'].
      apply occurs_at_take in Hk' as [Hk' Hle].
      destruct (decide (k' < k)%nat) as [Hlt|Hge]; [destruct (Hfirst k' Hlt Hk')|].
      replace j with (k + 4)%nat by lia. reflexivity.
    + assert (j < k + 4)%nat as Hlt.
      { destruct (decide (j < k + 4)%nat) as [?|Hge]; [assumption|].
        assert (Contains (take j s) (marker "data") = true) as Ht.
        { apply Contains_occurs. exists k. apply occurs_at_take. split; [exact Hoc|lia]. }
        congruence. }
      assert (k + 4 <= length s)%nat as Hin.
      { apply (f_equal length) in Hoc. rewrite length_take, length_drop in Hoc.
        change (length (marker "data")) with 4%nat in Hoc. lia. }
      destruct (lookup_lt_is_Some_2 s j ltac:(lia)) as [c Hcj].
      rewrite (drop_S _ _ _ Hcj), callRead_one. cbn [elems exact].
      rewrite <- (take_S_r _ _ _ Hcj).
      replace (Z.of_nat j + 1) with (Z.of_nat (S j)) by lia.
      apply (IH (S j)); [lia|lia|exact Hoc|exact Hfirst|lia].
  - intros Hno. simpl.
    destruct (Contains (take j s) (marker "data")) eqn:Hc.
    + apply Contains_occurs in Hc as [k' Hk'].
      apply occurs_at_take in Hk' as [Hk' _]. destruct (Hno k' Hk').
    + destruct (decide (j = length s)) as [->|Hne].
      * rewrite drop_all. reflexivity.
      * destruct (lookup_lt_is_Some_2 s j ltac:(lia)) as [c Hcj].
        rewrite (drop_S _ _ _ Hcj), callRead_one. cbn [elems exact].
        rewrite <- (take_S_r _ _ _ Hcj).
        replace (Z.of_nat j + 1) with (Z.of_nat (S j)) by lia.
        apply (IH (S j)); [lia|lia|exact Hno].
Qed.

(** X12.  The scan of [StreamWav] on an in-memory stream, given fuel for
    one iteration per byte and one more: when "data" first occurs at index
    k the scan consumes the k + 4 bytes up to and including the marker and
    counts k + 4, leaving the stream right behind the marker; when "data"
    does not occur it consumes the whole stream and counts its length. *)
Theorem scanForData_consumes_through_marker (s : list byte) (fuel : nat) :
  (length s < fuel)%nat ->
  (forall k, occurs_at s (marker "data") k ->
     (forall i, (i < k)%nat -> ~ occurs_at s (marker "data") i) ->
     scanForData fuel s [] 0 = Some (drop (k + 4) s, Z.of_nat (k + 4))) /\
  ((forall k, ~ occurs_at s (marker "data") k) ->
   scanForData fuel s [] 0 = Some ([], Z.of_nat (length s))).
Proof.
  intros Hfuel.
  destruct (scanForData_bytes_from s fuel 0) as [Hfound Hnone]; [lia..|].
  rewrite drop_0, take_0 in Hfound, Hnone. split.
  - intros k Hoc Hfirst. apply Hfound; [exact Hoc|exact Hfirst|lia].
  - exact Hnone.
Qed.

Lemma scanForData_consumes_through_marker_witness :
  (forall k, occurs_at monoFile (marker "data") k ->
     (forall i, (i < k)%nat -> ~ occurs_at monoFile (marker "data") i) ->
     scanForData 49 monoFile [] 0 =
       Some (drop (k + 4) monoFile, Z.of_nat (k + 4))) /\
  ((forall k, ~ occurs_at monoFile (marker "data") k) ->
   scanForData 49 monoFile [] 0 = Some ([], Z.of_nat (length monoFile))).
Proof.
  apply (scanForData_consumes_through_marker monoFile 49). vm_compute. lia.
Defined.

Lemma checkHeader_mismatch_RIFF (h : Bytes) (off : Z) :
  mismatch h 0 "RIFF" ->
  checkHeader h off = Err (errors_New "wav: Header does not contain 'RIFF'").
Proof.
  intros Hm. pose proof (mismatch_in_bounds _ _ _ Hm) as Hb.
  destruct (checkHeader_cases h off)
    as [(_ & E)|[(H1 & _)|[(H1 & _)|[(H1 & _)|[(H1 & _)
       |([N|[(H1 & _)|[(H1 & _)|(H1 & _)]]] & _)]]]]];
    first [exact E|contradiction
          |destruct (has_marker_not_mismatch _ _ _ H1 Hm)].
Qed.

(** X13.  [StreamWav] on an in-memory stream that contains "data", first
    at index k.  The header block is read from behind the marker: when the
    stream ends with the marker the read fails and the end-of-file error is
    returned; when at least four bytes follow that do not spell "RIFF"
    (as the chunk size and payload of a canonical file), the error naming
    'RIFF' is returned. *)
Theorem StreamWav_in_memory (s : list byte) (k fuel : nat) :
  (length s < fuel)%nat ->
  occurs_at s (marker "data") k ->
  (forall i, (i < k)%nat -> ~ occurs_at s (marker "data") i) ->
  (length s = (k + 4)%nat -> StreamWav fuel (Some s) = Some (Err EOF)) /\
  ((k + 8 <= length s)%nat ->
   take 4 (drop (k + 4) s) <> marker "RIFF" ->
   StreamWav fuel (Some s) =
     Some (Err (errors_New "wav: Header does not contain 'RIFF'"))).
Proof.
  intros Hfuel Hoc Hfirst.
  destruct (scanForData_bytes_from s fuel 0) as [Hfound _]; [lia..|].
  rewrite drop_0, take_0 in Hfound.
  specialize (Hfound k Hoc Hfirst ltac:(lia)). change (Z.of_nat 0) with 0 in Hfound.
  unfold StreamWav. rewrite Hfound. unfold make_bytes.
  rewrite decide_True by lia. cbn [mbind result_bind bind].
  split.
  - intros Hlen. rewrite drop_ge by lia.
    rewrite callRead_bytes_empty. reflexivity.
  - intros Hlen Hriff.
    rewrite callRead_bytes
      by (intros E; apply (f_equal length) in E; rewrite length_drop in E;
          simpl in E; lia).
    set (rest := drop (k + 4) s) in *.
    set (M := Z.to_nat (Z.of_nat (k + 4) + 8)).
    assert (4 <= length rest)%nat as Hrest by (unfold rest; rewrite length_drop; lia).
    unfold setupWithHeaderData.
    rewrite checkHeader_mismatch_RIFF; [reflexivity|].
    unfold mismatch, cap, backing, exact. cbn [elems spare].
    rewrite app_nil_r, drop_0.
    split; [lia|]. split.
    + rewrite length_app, length_take, length_replicate. unfold M. lia.
    + rewrite take_app_le by (rewrite length_take; unfold M; lia).
      rewrite take_take.
      replace (4 `min` M)%nat with 4%nat by (unfold M; lia).
      exact Hriff.
Qed.

Lemma StreamWav_in_memory_witness :
  (length monoFile = (36 + 4)%nat ->
   StreamWav 49 (Some monoFile) = Some (Err EOF)) /\
  ((36 + 8 <= length monoFile)%nat ->
   take 4 (drop (36 + 4) monoFile) <> marker "RIFF" ->
   StreamWav 49 (Some monoFile) =
     Some (Err (errors_New "wav: Header does not contain 'RIFF'"))).
Proof.
  apply (StreamWav_in_memory monoFile 36 49).
  - vm_compute. lia.
  - vm_compute. reflexivity.
  - intros i Hi.
    do 36 (destruct i as [|i]; [vm_compute; congruence|]). lia.
Defined.

(** ** Downmix of any container *)

(** A loop over the frames that panics at a short frame. *)
Lemma fill_loop_panics {A B : Type} (D : list A) (short : A -> Prop)
    (body : Z -> list B -> result (list B)) :
  (forall f, short f \/ ~ short f) ->
  (forall i f y, D !! i = Some f -> short f ->
     body (Z.of_nat i) y = Panic IndexOutOfRange) ->
  (forall i f y, D !! i = Some f -> ~ short f ->
     exists x, body (Z.of_nat i) y = store y (Z.of_nat i) x) ->
  forall suf pre y, D = pre ++ suf -> length y = length D ->
    Exists short suf ->
    for_range (Z.of_nat (length pre)) (length suf) body y = Panic IndexOutOfRange.
Proof.
  intros Hdec Hshort Hlong suf. induction suf as [|f suf IH]; intros pre y HD Hy Hex.
  - inversion Hex.
  - assert (D !! length pre = Some f) as Hf.
    { rewrite HD. rewrite lookup_app_r by lia. rewrite Nat.sub_diag. reflexivity. }
    simpl.
    destruct (Exists_cons short f suf) as [Hcases _].
    assert (short f \/ (~ short f /\ Exists short suf)) as [Hs|[Hn Hrest]].
    { destruct (Hcases Hex) as [Hs|Hrest]; [left; exact Hs|].
      destruct (Hdec f); [left|right]; auto. }
    + rewrite (Hshort _ _ y Hf Hs). reflexivity.
    + destruct (Hlong _ _ y Hf Hn) as (x & ->).
      assert (length pre < length D)%nat as Hlt
        by (rewrite HD, length_app; simpl; lia).
      rewrite store_Ok by lia. cbn [mbind result_bind bind].
      replace (Z.of_nat (length pre) + 1) with (Z.of_nat (length (pre ++ [f])))
        by (rewrite length_app; simpl; lia).
      apply IH.
      * rewrite <- app_assoc. exact HD.
      * rewrite length_insert. exact Hy.
      * exact Hrest.
Qed.

(** X14.  The downmix of any container, decoded or built by hand.  It
    indexes the first entry of each frame for a mono header and the first
    two entries for any other channel count (0 and 3 or more included).
    When every frame has that many entries it returns one value per frame:
    the first entry converted, or the sum of the first two, in [int]
    arithmetic, converted and divided by 2.0.  When some frame is shorter
    it panics on an index out of range; it never returns an error. *)
Theorem GetMonoData_panics_on_short_frame (w : Wav) :
  (Forall (fun f => (channels_read (header w) <= length f)%nat) (Data w) ->
   exists y,
     GetMonoData w = Ok y /\ length y = length (Data w) /\
     forall i f, Data w !! i = Some f ->
       exists x, y !! i = Some x /\
         ((NumChannels (header w) = 1 /\
           exists v rest, f = v :: rest /\ x = float64_of_int v) \/
          (NumChannels (header w) <> 1 /\
           exists L R rest, f = L :: R :: rest /\
             x = float64_div (float64_of_int (int64 (L + R)))
                   (float64_of_int 2)))) /\
  (Exists (fun f => (length f < channels_read (header w))%nat) (Data w) ->
   GetMonoData w = Panic IndexOutOfRange).
Proof.
  unfold channels_read, GetMonoData.
  rewrite make_slice_Ok by lia. cbn [mbind result_bind bind]. rewrite Nat2Z.id.
  assert (forall (L R : Z) rest, load (L :: R :: rest) 0 = Ok L) as H0
    by (intros L R rest; exact (load_Ok (L :: R :: rest) 0%nat L eq_refl)).
  assert (forall (L R : Z) rest, load (L :: R :: rest) 1 = Ok R) as H1
    by (intros L R rest; exact (load_Ok (L :: R :: rest) 1%nat R eq_refl)).
  assert (forall (L : Z) rest, load (L :: rest) 0 = Ok L) as H0'
    by (intros L rest; exact (load_Ok (L :: rest) 0%nat L eq_refl)).
  destruct (decide (NumChannels (header w) = 1)) as [E|E].
  - split.
    + intros Hall. apply fill_loop; [apply length_replicate|].
      intros i f y Hf.
      pose proof (proj1 (Forall_lookup _ _) Hall i f Hf) as Hlen.
      destruct f as [|v rest]; [simpl in Hlen; lia|].
      exists (float64_of_int v). split; [left; eauto|].
      rewrite (load_Ok _ _ _ Hf). cbn [mbind result_bind bind].
      rewrite H0'. reflexivity.
    + intros Hex.
      apply (fill_loop_panics (Data w) (fun f => (length f < 1)%nat) _
               ltac:(intros f; cbv beta; lia)) with (pre := []);
        [| |reflexivity|apply length_replicate|exact Hex].
      * intros i f y Hf Hs. destruct f; [|simpl in Hs; lia].
        rewrite (load_Ok _ _ _ Hf). reflexivity.
      * intros i f y Hf Hs. destruct f as [|v rest]; [simpl in Hs; lia|].
        exists (float64_of_int v).
        rewrite (load_Ok _ _ _ Hf). cbn [mbind result_bind bind].
        rewrite H0'. reflexivity.
  - split.
    + intros Hall. apply fill_loop; [apply length_replicate|].
      intros i f y Hf.
      pose proof (proj1 (Forall_lookup _ _) Hall i f Hf) as Hlen.
      destruct f as [|L [|R rest]]; try (simpl in Hlen; lia).
      eexists. split; [right; split; [exact E|]; eauto|].
      rewrite (load_Ok _ _ _ Hf). cbn [mbind result_bind bind].
      rewrite H0. cbn [mbind result_bind bind].
      rewrite H1. reflexivity.
    + intros Hex.
      apply (fill_loop_panics (Data w) (fun f => (length f < 2)%nat) _
               ltac:(intros f; cbv beta; lia)) with (pre := []);
        [| |reflexivity|apply length_replicate|exact Hex].
      * intros i f y Hf Hs. destruct f as [|L [|R rest]]; [| |simpl in Hs; lia].
        -- rewrite (load_Ok _ _ _ Hf). reflexivity.
        -- rewrite (load_Ok _ _ _ Hf). cbn [mbind result_bind bind].
           rewrite H0'. reflexivity.
      * intros i f y Hf Hs. destruct f as [|L [|R rest]]; try (simpl in Hs; lia).
        eexists.
        rewrite (load_Ok _ _ _ Hf). cbn [mbind result_bind bind].
        rewrite H0. cbn [mbind result_bind bind].
        rewrite H1. reflexivity.
Qed.

(** ** Bounds of the per-frame decode *)




